(** * notionSnapshot: the crawl-and-materialize engine of [notionsnapshot/__main__.py]

    A shallow embedding of [FileManager] and [Scraper] and the properties
    of the traversal, the link rewriter, the asset store, the
    disclosure expander, the readiness check, the clean-up and the
    table views.

    Python values are modelled as follows: [str] is [string] (bytes; the
    methods used by the program are in [Py]), a [set] of URLs is a
    [gset string], a BeautifulSoup [Tag] is a rose tree, the files of a
    directory are an association list in listing order, and an exception
    that leaves a function is the [Raise] case of [result]. *)

From Stdlib Require Import ZArith Ascii String List Lia Bool.
From stdpp Require Import base option list strings gmap sets relations.

Local Open Scope string_scope.
Local Open Scope Z_scope.
Local Open Scope list_scope.

(** ** Python [str] methods used by the program *)
Module Py.

Definition chr (c : ascii) : string := String c EmptyString.

(** [s.startswith(p)] *)
Fixpoint startswith (s p : string) : bool :=
  match p, s with
  | EmptyString, _ => true
  | String c p', String d s' => if Ascii.eqb c d then startswith s' p' else false
  | String _ _, EmptyString => false
  end.

(** index of the first occurrence of [sub] in [s] *)
Fixpoint find_nat (sub s : string) : option nat :=
  if startswith s sub then Some 0%nat
  else match s with
       | EmptyString => None
       | String _ s' => S <$> find_nat sub s'
       end.

(** index of the last occurrence of [sub] in [s] *)
Fixpoint rfind_nat (sub s : string) : option nat :=
  match s with
  | EmptyString => if startswith s sub then Some 0%nat else None
  | String _ s' =>
      match rfind_nat sub s' with
      | Some j => Some (S j)
      | None => if startswith s sub then Some 0%nat else None
      end
  end.

(** [s.find(sub)] and [s.rfind(sub)]: [-1] when [sub] does not occur *)
Definition find (s sub : string) : Z :=
  match find_nat sub s with Some i => Z.of_nat i | None => -1 end.

Definition rfind (s sub : string) : Z :=
  match rfind_nat sub s with Some i => Z.of_nat i | None => -1 end.

(** [sub in s] *)
Definition contains (sub s : string) : bool :=
  match find_nat sub s with Some _ => true | None => false end.

Fixpoint take (n : nat) (s : string) : string :=
  match n, s with
  | S n', String c s' => String c (take n' s')
  | _, _ => EmptyString
  end.

Fixpoint drop (n : nat) (s : string) : string :=
  match n, s with
  | S n', String _ s' => drop n' s'
  | _, _ => s
  end.

(** a slice bound [k] of a sequence of length [len], clamped as Python
    does: a negative bound counts from the end *)
Definition bound (len : nat) (k : Z) : nat :=
  if k <? 0 then Z.to_nat (Z.max 0 (Z.of_nat len + k))
  else Nat.min (Z.to_nat k) len.

(** [s[lo:hi]] *)
Definition slice (s : string) (lo hi : Z) : string :=
  let n := String.length s in
  let a := bound n lo in
  let b := bound n hi in
  take (b - a) (drop a s).

(** [s[lo:]] and [s[:hi]] *)
Definition slice_from (s : string) (lo : Z) : string :=
  drop (bound (String.length s) lo) s.

Definition slice_to (s : string) (hi : Z) : string :=
  take (bound (String.length s) hi) s.

Definition lower_ascii (c : ascii) : ascii :=
  let n := nat_of_ascii c in
  if ((65 <=? n) && (n <=? 90))%nat then ascii_of_nat (n + 32) else c.

(** [s.lower()] on ASCII text *)
Fixpoint lower (s : string) : string :=
  match s with
  | EmptyString => EmptyString
  | String c s' => String (lower_ascii c) (lower s')
  end.

(** [s.split(sep)] for a non-empty separator; [fuel] bounds the number
    of pieces and [String.length s + 1] always suffices *)
Fixpoint split_fuel (fuel : nat) (sep s : string) : list string :=
  match fuel with
  | O => [s]
  | S fuel' =>
      match find_nat sep s with
      | None => [s]
      | Some i =>
          take i s :: split_fuel fuel' sep (drop (i + String.length sep) s)
      end
  end.

Definition split (s sep : string) : list string :=
  split_fuel (S (String.length s)) sep s.

(** [l[0]] and [l[-1]] of a list that [split] returned (never empty) *)
Definition first (l : list string) : string := List.hd EmptyString l.
Definition last (l : list string) : string := List.last l EmptyString.

(** [sep.join(l)] *)
Fixpoint join (sep : string) (l : list string) : string :=
  match l with
  | [] => EmptyString
  | [x] => x
  | x :: rest => x +:+ sep +:+ join sep rest
  end.

Fixpoint interleave (new s : string) : string :=
  match s with
  | EmptyString => new
  | String c s' => new +:+ String c (interleave new s')
  end.

(** the number of characters of [sep.join(l)] for a one-character
    [sep], plus one *)
Fixpoint total_length (l : list string) : nat :=
  match l with
  | [] => 0
  | x :: l' => S (String.length x) + total_length l'
  end.

(** [s.replace(old, new)]; an empty [old] matches between all
    characters *)
Definition replace (s old new : string) : string :=
  match old with
  | EmptyString => interleave new s
  | _ => join new (split s old)
  end.

Fixpoint lstrip (c : ascii) (s : string) : string :=
  match s with
  | String d s' => if Ascii.eqb c d then lstrip c s' else s
  | EmptyString => EmptyString
  end.

Fixpoint rstrip (c : ascii) (s : string) : string :=
  match s with
  | EmptyString => EmptyString
  | String d s' =>
      match rstrip c s' with
      | EmptyString => if Ascii.eqb c d then EmptyString else chr d
      | r => String d r
      end
  end.

(** [s.strip(c)] for a one-character [c] *)
Definition strip (s : string) (c : ascii) : string := rstrip c (lstrip c s).

(** [bool(s)]: a string is true when it is not empty *)
Definition truthy (s : string) : bool :=
  match s with EmptyString => false | _ => true end.

(** [s[:-1]] written on the characters: the string without its last one *)
Definition remove_last (s : string) : string :=
  string_of_list_ascii (List.removelast (list_ascii_of_string s)).

Definition hex_digit (n : nat) : ascii :=
  ascii_of_nat (if (n <? 10)%nat then 48 + n else 87 + n).

(** the quote [repr] chooses: double quotes only when the text has a
    single quote and no double quote *)
Definition repr_quote (s : string) : ascii :=
  if contains "'" s && negb (contains (chr (ascii_of_nat 34)) s)
  then ascii_of_nat 34 else "'"%char.

Definition repr_char (q c : ascii) : string :=
  let n := nat_of_ascii c in
  if Ascii.eqb c q || Ascii.eqb c "\"%char then String "\"%char (chr c)
  else if (n =? 9)%nat then "\t"
  else if (n =? 10)%nat then "\n"
  else if (n =? 13)%nat then "\r"
  else if ((n <? 32) || (n =? 127))%nat
       then "\x" +:+ chr (hex_digit (n / 16)) +:+ chr (hex_digit (n mod 16))
  else chr c.

Fixpoint repr_body (q : ascii) (s : string) : string :=
  match s with
  | EmptyString => EmptyString
  | String c s' => repr_char q c +:+ repr_body q s'
  end.

(** printable ASCII text without quote and backslash, which [repr]
    leaves as it is between two single quotes *)
Definition plain_char (c : ascii) : bool :=
  let n := nat_of_ascii c in
  negb (Ascii.eqb c "'"%char) && negb (Ascii.eqb c "\"%char)
  && (32 <=? n)%nat && negb (n =? 127)%nat.

Definition plain (s : string) : bool :=
  List.forallb plain_char (list_ascii_of_string s).

(** [repr(s)] of a [str] of ASCII text *)
Definition repr (s : string) : string :=
  let q := repr_quote s in chr q +:+ repr_body q s +:+ chr q.

(** [str(l)] of a list of [str] *)
Definition str_list (l : list string) : string :=
  "[" +:+ join ", " (List.map repr l) +:+ "]".

End Py.

(** ** [pathlib] (POSIX flavour) and [os.path], as far as the program uses them *)
Module Pathlib.

(** a pure path: its root ([""], ["/"] or ["//"]) and its components *)
Record Path := mkPath { root : string; parts : list string }.

Definition is_part (p : string) : bool :=
  negb (String.eqb p "" || String.eqb p ".").

Definition root_of (s : string) : string :=
  if Py.startswith s "///" then "/"
  else if Py.startswith s "//" then "//"
  else if Py.startswith s "/" then "/"
  else "".

(** [Path(s)]: empty and ["."] components are dropped, so runs of
    slashes collapse *)
Definition of_str (s : string) : Path :=
  mkPath (root_of s) (List.filter is_part (Py.split s "/")).

(** [str(p)] *)
Definition str (p : Path) : string :=
  match root p, parts p with
  | EmptyString, [] => "."
  | r, ps => r +:+ Py.join "/" ps
  end.

(** [p / s] *)
Definition joinpath (p : Path) (s : string) : Path :=
  let q := of_str s in
  match root q with
  | EmptyString => mkPath (root p) (parts p ++ parts q)
  | _ => q
  end.

(** [p.name] *)
Definition name (p : Path) : string := List.last (parts p) "".

Definition suffix_of_name (n : string) : string :=
  match Py.rfind_nat "." n with
  | Some i =>
      if ((0 <? i) && (i <? String.length n - 1))%nat then Py.drop i n else ""
  | None => ""
  end.

(** [p.suffix] *)
Definition suffix (p : Path) : string := suffix_of_name (name p).

Definition valid_suffix (suf : string) : bool :=
  match suf with
  | EmptyString => true
  | _ => Py.startswith suf "." && negb (String.eqb suf ".")
         && negb (Py.contains "/" suf)
  end.

(** [p.with_suffix(suf)]; [None] stands for the [ValueError] of an
    empty name or an invalid suffix *)
Definition with_suffix (p : Path) (suf : string) : option Path :=
  let n := name p in
  if negb (Py.truthy n) || negb (valid_suffix suf) then None
  else
    let old := suffix_of_name n in
    let stem := Py.take (String.length n - String.length old) n in
    Some (mkPath (root p) (List.removelast (parts p) ++ [stem +:+ suf])).

Fixpoint strip_parts (pre l : list string) : option (list string) :=
  match pre, l with
  | [], _ => Some l
  | a :: pre', b :: l' => if String.eqb a b then strip_parts pre' l' else None
  | _ :: _, [] => None
  end.

(** [p.relative_to(base)]; [None] stands for its [ValueError] *)
Definition relative_to (p base : Path) : option Path :=
  if String.eqb (root p) (root base) then
    mkPath "" <$> strip_parts (parts base) (parts p)
  else None.

(** [os.path.join(a, b)] *)
Definition os_join (a b : string) : string :=
  if Py.startswith b "/" then b
  else match a with
       | EmptyString => b
       | _ => if String.eqb (Py.slice_from a (-1)) "/" then a +:+ b
              else a +:+ "/" +:+ b
       end.

(** [os.path.split(p)[0]]: everything before the last slash, without
    its trailing slashes unless it consists of slashes only *)
Definition os_dirname (p : string) : string :=
  match Py.rfind_nat "/" p with
  | None => ""
  | Some i =>
      let head := Py.take (S i) p in
      match Py.rstrip "/" head with
      | EmptyString => head
      | h => h
      end
  end.

(** [os.path.basename(p)] *)
Definition os_basename (p : string) : string :=
  match Py.rfind_nat "/" p with
  | None => p
  | Some i => Py.drop (S i) p
  end.

End Pathlib.

(** ** Exceptions *)
Inductive exn :=
  | ValueError (msg : string)
  | FileNotFoundError (path : string)
  | KeyError (key : string)
  | AssertionError (msg : string)
  | OtherError (msg : string).

Inductive result (A : Type) :=
  | Ok (a : A)
  | Raise (e : exn).
Arguments Ok {A} a.
Arguments Raise {A} e.

#[global] Instance result_ret : MRet result := λ A a, Ok a.
#[global] Instance result_bind : MBind result := λ A B k r,
  match r with
  | Ok a => k a
  | Raise e => Raise e
  end.

#[global] Instance result_fmap : FMap result := λ A B f r,
  match r with
  | Ok a => Ok (f a)
  | Raise e => Raise e
  end.

Definition is_ok {A} (r : result A) : bool :=
  match r with Ok _ => true | Raise _ => false end.

(** ** The collaborators: libraries and the network

    [urllib], [hashlib], [mimetypes], [appdirs], [cssutils] and
    [requests] are not part of the program; the program is modelled over
    any behaviour of theirs. *)

(** the fields of [urllib.parse.urlparse(url)] the program reads *)
Record ParseResult := mkParse { netloc : string; path : string; query : string }.

(** what [session.get(url)] gives: an exception, or a response with its
    status code, its [content-type] header and its body *)
Inductive fetch_result :=
  | ConnectionError
  | Response (status : Z) (content_type : option string) (content : string).

(** a rule of a parsed stylesheet: a [@font-face] rule with the value of
    its [src] descriptor, or any other rule *)
Inductive css_rule :=
  | FontFace (src : string)
  | OtherRule (text : string).

Class Env := {
  urlparse : string → ParseResult;
  (** [urllib.parse.parse_qs(query)] *)
  parse_qs : string → gmap string (list string);
  (** [hashlib.sha1(data).hexdigest()] *)
  sha1_hexdigest : string → string;
  (** [mimetypes.guess_extension(content_type)] *)
  guess_extension : string → option string;
  (** [appdirs.user_cache_dir(appname, appauthor)] *)
  user_cache_dir : string;
  (** [requests.Session().get(url)], given the requests made so far *)
  session_get : list string → string → fetch_result;
  (** [cssutils.parseString(data).cssRules] and [stylesheet.cssText] *)
  css_parse : string → list css_rule;
  css_text : list css_rule → string;
  (** [cssutils.parseStyle(text)[prop]] *)
  style_get : string → string → string;
  (** [style[prop] = value] on a parsed declaration: whether the
      assignment is taken ([true]) or raises [xml.dom.SyntaxErr] *)
  valid_value : string → string → bool;
  (** [cssutils.parseStyle(text)], then [style[prop] = value], then
      [style.cssText] *)
  style_set : string → string → string → string;
}.

(** the live document handle, as far as the disclosure expander uses it.
    Elements are known by their identity (a [WebElement] compares by id). *)
Class Driver := {
  dom : Type;
  (** lines 220-230: the toggle blocks, then the header blocks that
      carry a button *)
  get_toggle_blocks : dom → list nat;
  (** line 243: the arrow of the block's button is turned by 180 degrees *)
  is_expanded : dom → nat → bool;
  (** line 245: the click on the block's button *)
  click : dom → nat → dom;
  (** line 247: the document once [WebDriverWait.until] has returned, and
      whether it returned for [is_block_expanded] ([true]) or for the
      deadline, raising [TimeoutException] ([false]) *)
  wait_until_expanded : dom → nat → dom * bool;
}.

(** the logger [LOG] of the module [logger], as far as its behaviour
    decides what the program does: the call of line 249,
    [LOG.warning(msg, file=sys.stderr)]. [None] when the call returns;
    [Some e] when it raises [e], as the [warning] of a [logging.Logger]
    does for the keyword [file] (a [TypeError]). *)
Class Logger := {
  warning_to_file : option exn;
}.

(** ** [FileManager] *)
Module FileManager.
Section with_env.
Context `{E : Env}.

(** the files of one directory, in listing order: name and content *)
Definition dir := list (string * string).

(** what a run changes outside the documents: the output assets
    directory, the cache directory, and the requests made so far *)
Record world := mkWorld {
  assets : dir;
  cache : dir;
  requests : list string;
}.

Record t := mk {
  url : string;
  output_dir : string;
  cache_assets : bool;
  cache_dir : string;
}.

(** the name both [__init__] and [get_filename_from_url] derive from a
    page URL: [id[: id.rfind("-")].lower()] with [id] the path without
    its first character *)
Definition page_name (u : string) : string :=
  let id := Py.slice_from (path (urlparse u)) 1 in
  Py.lower (Py.slice_to id (Py.rfind id "-")).

(** [__init__], before [_setup] *)
Definition init (u : string) (cache_assets : bool) : t :=
  let name := page_name u in
  mk u (Pathlib.os_join "snapshots" name) cache_assets
     (Pathlib.os_join user_cache_dir name).

(** writing the file [n] of a directory: an existing entry is
    overwritten in place, a new one is listed last *)
Fixpoint write_file (n content : string) (d : dir) : dir :=
  match d with
  | [] => [(n, content)]
  | (m, c) :: d' =>
      if String.eqb m n then (n, content) :: d'
      else (m, c) :: write_file n content d'
  end.

Fixpoint read_file (n : string) (d : dir) : option string :=
  match d with
  | [] => None
  | (m, c) :: d' => if String.eqb m n then Some c else read_file n d'
  end.

(** [_setup], on a world whose [assets] are those of the previous
    snapshot of this URL (if any): they are copied over the cache when
    caching is on, and the output directory starts empty *)
Definition _setup (fm : t) (w : world) : world :=
  let c :=
    if cache_assets fm
    then List.fold_left (λ d f, write_file f.1 f.2 d) (assets w) (cache w)
    else cache w in
  mkWorld [] c (requests w).

(** [glob.has_magic(s)]: [s] has one of the characters that make
    [glob] read it as a pattern *)
Definition has_magic (s : string) : bool :=
  Py.contains "*" s || Py.contains "?" s || Py.contains "[" s.

(** [glob.glob(d + "/" + stem + ".*")] where neither the directory nor
    [stem] has a character of [has_magic] and [stem] has no slash: the
    entries whose name starts with [stem + "."]. A path with such a
    character is read by [glob] as a pattern, which is not modelled:
    the properties that depend on what [glob] finds assume [literal]. *)
Definition glob_stem (d : dir) (stem : string) : list string :=
  List.filter (λ n, Py.startswith n (stem +:+ ".")) (List.map fst d).

(** [glob.glob(d + "/" + n)] where neither the directory nor [n] has a
    character of [has_magic] and [n] has no slash: the entry [n], if it
    is there *)
Definition glob_name (d : dir) (n : string) : list string :=
  List.filter (String.eqb n) (List.map fst d).

(** lines 62-67: the text that is hashed when no [filename] is given *)
Definition hash_input (u : string) : string :=
  let parsed_url := urlparse u in
  let queryless_url := netloc parsed_url +:+ path parsed_url in
  let params := parse_qs (query parsed_url) in
  match params !! "width" with
  | Some width => queryless_url +:+ "?width=" +:+ Py.str_list width
  | None => queryless_url
  end.

(** line 68 *)
Definition generated_name (u : string) : string :=
  sha1_hexdigest (hash_input u).

(** [_load_from_cache(filename)]: the path of the copy made into the
    output directory, if the cache has the file *)
Definition _load_from_cache (fm : t) (w : world) (filename : string)
  : option string * world :=
  let cached :=
    if Py.truthy (Pathlib.suffix (Pathlib.of_str filename))
    then glob_name (cache w) filename
    else glob_stem (cache w) filename in
  match cached with
  | c :: _ =>
      let content := default "" (read_file c (cache w)) in
      (Some (Pathlib.os_join "assets" (Pathlib.os_basename c)),
       mkWorld (write_file c content (assets w)) (cache w) (requests w))
  | [] => (None, w)
  end.

(** [response.raise_for_status()] raises on a 4xx or 5xx status *)
Definition raises_for_status (status : Z) : bool :=
  (400 <=? status) && (status <? 600).

(** [re.split("%3f", suffix, flags=re.IGNORECASE)[0]] *)
Definition before_question_mark (suffix : string) : string :=
  match Py.find_nat "%3f" (Py.lower suffix) with
  | Some i => Py.take i suffix
  | None => suffix
  end.

(** lines 85-98: the destination with its extension, [None] when
    [with_suffix] or an [assert] raises *)
Definition with_extension (destination : Pathlib.Path) (u : string)
    (content_type : option string) : option Pathlib.Path :=
  let missing_file_extension := negb (Py.truthy (Pathlib.suffix destination)) in
  if missing_file_extension then
    let suffix := Pathlib.suffix (Pathlib.of_str (path (urlparse u))) in
    if Py.truthy suffix then
      let suffix :=
        if Py.contains "%3f" (Py.lower suffix)
        then before_question_mark suffix else suffix in
      Pathlib.with_suffix destination suffix
    else
      ct ← content_type;
      mimetype ← guess_extension ct;
      Pathlib.with_suffix destination mimetype
  else Some destination.

(** the body of the [try] of lines 79-102: [None] when an exception is
    raised inside it. A file can be created only directly inside the
    assets directory, which has no subdirectories. *)
Definition try_fetch (fm : t) (w : world) (u filename : string)
  : option (string * world) :=
  let destination :=
    Pathlib.joinpath
      (Pathlib.joinpath (Pathlib.of_str (output_dir fm)) "assets") filename in
  match session_get (requests w) u with
  | ConnectionError => None
  | Response status content_type content =>
      if raises_for_status status then None
      else
        destination ← with_extension destination u content_type;
        rel ← Pathlib.relative_to destination (Pathlib.of_str (output_dir fm));
        match Pathlib.parts rel with
        | [a; n] =>
            if String.eqb a "assets" && negb (String.eqb n "..") then
              Some (Py.replace (Pathlib.str rel) "\" "/",
                    mkWorld (write_file n content (assets w)) (cache w)
                            (requests w ++ [u]))
            else None
        | _ => None
        end
  end.

(** [download_asset(url, filename)]: the path to write into the
    document, and the world after the call *)
Definition download_asset (fm : t) (w : world) (u filename : string)
  : string * world :=
  let filename := if Py.truthy filename then filename else generated_name u in
  match glob_stem (assets w) filename with
  | found :: _ => (Py.replace ("assets/" +:+ found) "\" "/", w)
  | [] =>
      let '(cached, w) :=
        if cache_assets fm then _load_from_cache fm w filename else (None, w) in
      match cached with
      | Some p => (p, w)
      | None =>
          match try_fetch fm w u filename with
          | Some r => r
          | None =>
              (Py.replace (Pathlib.str (Pathlib.of_str u)) "\" "/",
               mkWorld (assets w) (cache w) (requests w ++ [u]))
          end
      end
  end.

(** [get_filename_from_url(url)] *)
Definition get_filename_from_url (fm : t) (u : string) : string :=
  let filename := page_name u +:+ ".html" in
  if String.eqb u (url fm) then "index.html" else filename.

(** [get_path_from_url(url)] *)
Definition get_path_from_url (fm : t) (u : string) : Pathlib.Path :=
  Pathlib.of_str (output_dir fm +:+ "/" +:+ get_filename_from_url fm u).

(** a name that is one component of a path: [Path(n)] has the single
    part [n] *)
Definition simple_name (n : string) : bool :=
  negb (Py.contains "/" n) && Pathlib.is_part n.

(** [glob] takes the paths made of the directories of [fm] and the
    name [n] literally *)
Definition literal (fm : t) (n : string) : bool :=
  negb (has_magic (output_dir fm)) && negb (has_magic (cache_dir fm))
  && negb (has_magic n).

Definition is_hex_digit (c : ascii) : bool :=
  let n := nat_of_ascii c in
  ((48 <=? n) && (n <=? 57) || (97 <=? n) && (n <=? 102))%nat.

(** the shape of a [hexdigest()]: hexadecimal digits, at least one *)
Fixpoint is_hex (s : string) : bool :=
  match s with
  | EmptyString => false
  | String c EmptyString => is_hex_digit c
  | String c s' => is_hex_digit c && is_hex s'
  end.

(** the world [w'] comes from [w] without a change to the cache, with
    the requests of [w] first, and with every file of the assets of [w]
    still there *)
Definition extends (w w' : world) : Prop :=
  cache w' = cache w
  ∧ (∃ new, requests w' = requests w ++ new)
  ∧ ∀ n, n ∈ (assets w).*1 → n ∈ (assets w').*1.

End with_env.
End FileManager.

(** ** Documents: the BeautifulSoup tree

    A tag has its name, its attributes (a dict), its [class] attribute,
    which BeautifulSoup keeps apart as a list of names, and its
    contents. *)
#[local] Unset Elimination Schemes.
Inductive node :=
  | Text (s : string)
  | Tag (name : string) (attrs : gmap string string)
        (class : option (list string)) (contents : list node).
#[local] Set Elimination Schemes.

(** a pass over the tags of a document in document order, as the loops
    over [soup.findAll(...)] make it: [f] sees the name, the attributes
    and the classes of each tag and gives its new attributes *)
Fixpoint for_each_tag {S : Type}
    (f : string → gmap string string → option (list string) → S →
         result (gmap string string * S))
    (n : node) (s : S) : result (node * S) :=
  match n with
  | Text x => Ok (Text x, s)
  | Tag name attrs class contents =>
      '(attrs', s) ← f name attrs class s;
      '(contents', s) ←
        (fix go (l : list node) (s : S) : result (list node * S) :=
           match l with
           | [] => Ok ([], s)
           | c :: l' =>
               '(c', s) ← for_each_tag f c s;
               '(l'', s) ← go l' s;
               Ok (c' :: l'', s)
           end) contents s;
      Ok (Tag name attrs' class contents', s)
  end.

(** the contents of a tag, passed one after the other: the inner loop
    of [for_each_tag] *)
Definition for_each_content {S : Type}
    (f : string → gmap string string → option (list string) → S →
         result (gmap string string * S))
    (l : list node) (s : S) : result (list node * S) :=
  (fix go (l : list node) (s : S) : result (list node * S) :=
     match l with
     | [] => Ok ([], s)
     | c :: l' =>
         '(c', s) ← for_each_tag f c s;
         '(l'', s) ← go l' s;
         Ok (c' :: l'', s)
     end) l s.

(** what [find] and [findAll] test on an element: its name, its
    attributes and its classes *)
Definition selector : Type :=
  string → gmap string string → option (list string) → bool.

Definition selects (p : selector) (n : node) : bool :=
  match n with
  | Text _ => false
  | Tag name attrs class _ => p name attrs class
  end.

(** an element and all that is below it, in document order *)
Fixpoint subtree (n : node) : list node :=
  n :: match n with
       | Text _ => []
       | Tag _ _ _ contents => List.flat_map subtree contents
       end.

(** what [soup.findAll()] ranges over: all that is below the root *)
Definition descendants (n : node) : list node :=
  match n with
  | Text _ => []
  | Tag _ _ _ contents => List.flat_map subtree contents
  end.

(** the texts of a document, in document order *)
Fixpoint texts (n : node) : list string :=
  match n with
  | Text x => [x]
  | Tag _ _ _ contents => List.flat_map texts contents
  end.

(** a document without its attributes: the names, the classes, the
    texts and the nesting *)
Fixpoint strip_attrs (n : node) : node :=
  match n with
  | Text x => Text x
  | Tag name _ class contents => Tag name ∅ class (List.map strip_attrs contents)
  end.

(** a document and what is left of it when elements below its root
    have been taken out, each with all it contains *)
Inductive pruned : node → node → Prop :=
  | pruned_text x : pruned (Text x) (Text x)
  | pruned_tag name attrs class l l' :
      pruned_contents l l' →
      pruned (Tag name attrs class l) (Tag name attrs class l')
with pruned_contents : list node → list node → Prop :=
  | pruned_nil : pruned_contents [] []
  | pruned_drop c l l' : pruned_contents l l' → pruned_contents (c :: l) l'
  | pruned_keep c c' l l' :
      pruned c c' → pruned_contents l l' → pruned_contents (c :: l) (c' :: l').

(** ** [Scraper] *)
Module Scraper.
Section with_env.
Context `{E : Env}.

Record t := mk {
  url : string;
  file_manager : FileManager.t;
}.

(** [c in tag["class"]] for a tag that may have no [class] *)
Definition has_class (c : string) (class : option (list string)) : bool :=
  match class with
  | Some l => List.existsb (String.eqb c) l
  | None => false
  end.

(** *** [_link_to_subpages] *)

(** line 395 *)
Definition domain (s : t) : string :=
  Py.first (Py.split (url s) "notion.site") +:+ "notion.site".

(** lines 398-402: the URL the classification looks at *)
Definition resolve (domain href : string) : string :=
  if Py.startswith href "/"
  then domain +:+ "/" +:+ Py.last (Py.split href "/")
  else href.

(** lines 428-430 on one element: an element without [style] is not
    among the [children] of line 426 *)
Definition force_cursor (attrs : gmap string string) : gmap string string :=
  match attrs !! "style" with
  | Some style => <["style" := style_set style "cursor" "default"]> attrs
  | None => attrs
  end.

(** what the loop body does to one anchor: its new name, attributes
    and classes, whether it was deactivated (then the elements below
    it get their cursor forced too), and the URLs it appends to
    [subpage_urls] *)
Record rewritten := mkRewritten {
  r_name : string;
  r_attrs : gmap string string;
  r_class : option (list string);
  r_deactivated : bool;
  r_urls : list string;
}.

(** lines 398-430, for an anchor [a] with [a["href"] = href];
    [is_scroller] says whether a [div] of class [notion-scroller] is
    among its parents (such a parent has the anchor below it, so its
    length is positive) *)
Definition rewrite_anchor (s : t) (is_scroller : bool)
    (name : string) (attrs : gmap string string)
    (class : option (list string)) (href : string) : rewritten :=
  let dom := domain s in
  let u := resolve dom href in
  let is_external_url := negb (Py.startswith u dom) in
  if is_external_url then mkRewritten name attrs class false []
  else
    let is_table_of_contents := Py.contains "#" u in
    if is_table_of_contents then
      let arr := Py.split u "#" in
      mkRewritten name (<["href" := "#" +:+ Py.last arr]> attrs)
        (Some (default [] class ++ ["notionsnapshot-anchor-link"])) false []
    else if is_scroller then
      let filename := FileManager.get_filename_from_url (file_manager s) u in
      mkRewritten name (<["href" := filename]> attrs) class false [u]
    else
      mkRewritten "span" (force_cursor (delete "href" attrs)) class true [].

(** the loop of lines 397-430 over [soup.find_all("a", href=True)], in
    document order. [is_scroller] and [forced] carry what the parents
    contribute: whether one of them is a [notion-scroller] div, and
    how many of them were deactivated, each of which has forced the
    cursor of this element before its own turn. *)
Fixpoint link_node (s : t) (is_scroller : bool) (forced : nat) (n : node)
  : node * list string :=
  match n with
  | Text x => (Text x, [])
  | Tag name attrs class contents =>
      let attrs := Nat.iter forced force_cursor attrs in
      let r :=
        match (if String.eqb name "a" then attrs !! "href" else None) with
        | Some href => rewrite_anchor s is_scroller name attrs class href
        | None => mkRewritten name attrs class false []
        end in
      let below_scroller :=
        is_scroller
        || (String.eqb name "div" && has_class "notion-scroller" class) in
      let forced := if r_deactivated r then S forced else forced in
      let below :=
        (fix go (l : list node) : list node * list string :=
           match l with
           | [] => ([], [])
           | c :: l' =>
               let '(c', us) := link_node s below_scroller forced c in
               let '(l'', us') := go l' in
               (c' :: l'', us ++ us')
           end) contents in
      (Tag (r_name r) (r_attrs r) (r_class r) below.1, r_urls r ++ below.2)
  end.

(** [_link_to_subpages(soup)]: the rewritten document and [subpage_urls] *)
Definition _link_to_subpages (s : t) (soup : node) : node * list string :=
  link_node s false 0 soup.

(** the contents of a tag, rewritten one after the other: the inner
    loop of [link_node] *)
Definition link_contents (s : t) (is_scroller : bool) (forced : nat)
    (l : list node) : list node * list string :=
  (fix go (l : list node) : list node * list string :=
     match l with
     | [] => ([], [])
     | c :: l' =>
         let '(c', us) := link_node s is_scroller forced c in
         let '(l'', us') := go l' in
         (c' :: l'', us ++ us')
     end) l.

(** a property of the attributes of every tag of a document *)
Fixpoint every_tag (P : gmap string string → Prop) (n : node) : Prop :=
  match n with
  | Text _ => True
  | Tag _ attrs _ contents =>
      P attrs
      ∧ (fix all (l : list node) : Prop :=
           match l with
           | [] => True
           | c :: l' => every_tag P c ∧ all l'
           end) contents
  end.

(** an inline style, if there is one, is what line 429 has made of it *)
Definition cursor_forced (attrs : gmap string string) : Prop :=
  ∀ style, attrs !! "style" = Some style →
    ∃ old, style = style_set old "cursor" "default".

(** the four things that happen to an anchor: it is left as it is, it
    becomes a link inside the page, it becomes a link to the file of a
    subpage, or it is deactivated *)
Inductive link_kind := Kept | InPage | Subpage | Deactivated.

(** what [_link_to_subpages] makes of an anchor with [a["href"] = href]
    that has [forced] deactivated anchors above it, for each kind: the
    condition on the URL the code looks at, and the rewritten anchor
    with the URLs collected from it and from below *)
Definition link_outcome (s : t) (is_scroller : bool) (forced : nat)
    (attrs : gmap string string) (class : option (list string))
    (contents : list node) (href : string) (k : link_kind) : Prop :=
  let u := resolve (domain s) href in
  let internal := Py.startswith u (domain s) in
  let fragment := Py.contains "#" u in
  let out := link_node s is_scroller forced (Tag "a" attrs class contents) in
  let attrs := Nat.iter forced force_cursor attrs in
  let below := link_contents s is_scroller forced contents in
  match k with
  | Kept =>
      internal = false ∧ out = (Tag "a" attrs class below.1, below.2)
  | InPage =>
      internal = true ∧ fragment = true
      ∧ out = (Tag "a" (<["href" := "#" +:+ Py.last (Py.split u "#")]> attrs)
                 (Some (default [] class ++ ["notionsnapshot-anchor-link"]))
                 below.1,
               below.2)
  | Subpage =>
      internal = true ∧ fragment = false ∧ is_scroller = true
      ∧ out = (Tag "a"
                 (<["href" :=
                      FileManager.get_filename_from_url (file_manager s) u]> attrs)
                 class below.1,
               u :: below.2)
  | Deactivated =>
      internal = true ∧ fragment = false ∧ is_scroller = false
      ∧ ∃ attrs' contents' urls,
          out = (Tag "span" attrs' class contents', urls)
          ∧ attrs' = force_cursor (delete "href" attrs)
          ∧ attrs' !! "href" = None
          ∧ cursor_forced attrs'
          ∧ Forall (every_tag cursor_forced) contents'
  end.

(** *** [run] *)

(** the two sets of the frontier, and the [save_page] calls made so
    far: the URL and the path of each, in order *)
Record state := mkState {
  will_visit : gset string;
  visited : gset string;
  saved : list (string * string);
}.

(** lines 160-161 *)
Definition start (s : t) : state := mkState {[url s]} ∅ [].

(** line 165: [u] has been taken out of [will_visit] *)
Definition popped (st : state) (u : string) : state :=
  mkState (will_visit st ∖ {[u]}) (visited st) (saved st).

(** lines 174-179 for the popped URL [u], once lines 167-173 have
    produced [soup], when lines 175 and 177 return; line 175 adds
    nothing to the frontier *)
Definition visit (s : t) (st : state) (u : string) (soup : node) : state :=
  let subpage_urls := (_link_to_subpages s soup).2 in
  let st := popped st u in
  let path := Pathlib.str (FileManager.get_path_from_url (file_manager s) u) in
  let visited' := visited st ∪ {[u]} in
  mkState
    (will_visit st ∪ list_to_set (filter (λ page, page ∉ visited') subpage_urls))
    visited'
    (saved st ++ [(u, path)]).

(** where a run is: in the loop, past it, or left by an exception *)
Inductive config :=
  | Running (st : state)
  | Exited (st : state)
  | Crashed (st : state) (e : exn).

Definition state_of (c : config) : state :=
  match c with Running st | Exited st | Crashed st _ => st end.

(** one turn of the [while] of line 164, for any element [pop] may
    return, any document the page may render to, and any exception
    that may leave lines 167-177 *)
Inductive step (s : t) : config → config → Prop :=
  | step_exit st :
      will_visit st = ∅ → step s (Running st) (Exited st)
  | step_visit st u soup :
      u ∈ will_visit st → step s (Running st) (Running (visit s st u soup))
  | step_crash st u e :
      u ∈ will_visit st → step s (Running st) (Crashed (popped st u) e).

(** the path of the index document *)
Definition index_path (s : t) : string :=
  Pathlib.str
    (Pathlib.of_str
       (FileManager.output_dir (file_manager s) +:+ "/" +:+ "index.html")).

(** what holds of the frontier at every point of a run: no URL is in
    both sets, the saved pages are those of the visited URLs, each
    saved once under the path [get_path_from_url] gives it, and the
    loop has been left only with nothing pending *)
Definition frontier_ok (s : t) (c : config) : Prop :=
  let st := state_of c in
  will_visit st ## visited st
  ∧ NoDup (saved st).*1
  ∧ (∀ u, u ∈ visited st ↔ u ∈ (saved st).*1)
  ∧ (∀ u p, (u, p) ∈ saved st →
       p = Pathlib.str (FileManager.get_path_from_url (file_manager s) u))
  ∧ match c with Exited st => will_visit st = ∅ | _ => True end.

(** *** [_expand_toggle_blocks] *)
Section expander.
Context `{D : Driver} `{L : Logger}.

(** the live document, the accumulator [expanded_toggle_blocks], and
    the clicks made so far *)
Record expansion := mkExpansion {
  e_dom : dom;
  e_expanded : list nat;
  e_clicks : list nat;
}.

(** lines 238-239 and 253: the toggle blocks not in the accumulator *)
Definition unexpanded (x : expansion) : list nat :=
  List.filter (λ b, negb (bool_decide (b ∈ e_expanded x)))
              (get_toggle_blocks (e_dom x)).

(** the loop of lines 241-251: the state it reaches, and the exception
    that leaves it, if any *)
Fixpoint expand_blocks (toggle_blocks : list nat) (x : expansion)
  : expansion * option exn :=
  match toggle_blocks with
  | [] => (x, None)
  | block :: rest =>
      if is_expanded (e_dom x) block then
        expand_blocks rest
          (mkExpansion (e_dom x) (e_expanded x ++ [block]) (e_clicks x))
      else
        let clicked := click (e_dom x) block in
        let '(d, in_time) := wait_until_expanded clicked block in
        if in_time then
          expand_blocks rest
            (mkExpansion d (e_expanded x ++ [block]) (e_clicks x ++ [block]))
        else
          let x := mkExpansion d (e_expanded x) (e_clicks x ++ [block]) in
          match warning_to_file with
          | None => expand_blocks rest x
          | Some e => (x, Some e)
          end
  end.

(** how a call of [_expand_toggle_blocks] stands after a bounded number
    of recursive calls: it has returned, it is still recursing, or an
    exception has left it; each with the state reached *)
Inductive expanded :=
  | Returned (x : expansion)
  | Unfinished (x : expansion)
  | Raised (e : exn) (x : expansion).

Definition reached (o : expanded) : expansion :=
  match o with Returned x | Unfinished x | Raised _ x => x end.

(** [_expand_toggle_blocks(expanded_toggle_blocks)]; [depth] bounds
    the recursion *)
Fixpoint _expand_toggle_blocks (depth : nat) (x : expansion) : expanded :=
  match depth with
  | O => Unfinished x
  | S depth' =>
      let toggle_blocks := unexpanded x in
      match expand_blocks toggle_blocks x with
      | (x, Some e) => Raised e x
      | (x, None) =>
          let nested_toggle_blocks := unexpanded x in
          match nested_toggle_blocks with
          | [] => Returned x
          | _ :: _ => _expand_toggle_blocks depth' x
          end
      end
  end.

End expander.

(** *** [_download_images] *)

Definition notion : string := "https://www.notion.so".

Definition is_emoji (name : string) (class : option (list string)) : bool :=
  String.eqb name "img" && has_class "notion-emoji" class.

(** lines 288-296 on one tag *)
Definition localize_image (fm : FileManager.t) (name : string)
    (attrs : gmap string string) (class : option (list string))
    (w : FileManager.world) : result (gmap string string * FileManager.world) :=
  match (if String.eqb name "img" && negb (is_emoji name class)
         then attrs !! "src" else None) with
  | Some src =>
      let is_notion_asset := Py.startswith src "/" in
      if negb (Py.contains "data:image" src) then
        let img_src := if is_notion_asset then notion +:+ src else src in
        let '(p, w) := FileManager.download_asset fm w img_src "" in
        Ok (<["src" := p]> attrs, w)
      else if is_notion_asset then Ok (<["src" := notion +:+ src]> attrs, w)
      else Ok (attrs, w)
  | None => Ok (attrs, w)
  end.

(** lines 300-306 on one tag: line 301 raises [KeyError] without a
    [style] attribute, line 305 raises [xml.dom.SyntaxErr] when
    [cssutils] does not take the new value *)
Definition localize_emoji (fm : FileManager.t) (name : string)
    (attrs : gmap string string) (class : option (list string))
    (w : FileManager.world) : result (gmap string string * FileManager.world) :=
  if is_emoji name class then
    match attrs !! "style" with
    | None => Raise (KeyError "style")
    | Some style =>
        let spritesheet := style_get style "background" in
        let spritesheet_url :=
          Py.slice spritesheet (Py.find spritesheet "(" + 1)
                   (Py.find spritesheet ")") in
        let '(download_path, w) :=
          FileManager.download_asset fm w (notion +:+ spritesheet_url) "" in
        let background := Py.replace spritesheet spritesheet_url download_path in
        if valid_value "background" background then
          Ok (<["style" := style_set style "background" background]> attrs, w)
        else Raise (OtherError "SyntaxErr")
    end
  else Ok (attrs, w).


(** [_download_images(soup)]: the images, then the emojis; no tag is
    both, so the assertion of line 310 holds *)
Definition _download_images (fm : FileManager.t) (soup : node)
    (w : FileManager.world) : result (node * FileManager.world) :=
  '(soup, w) ← for_each_tag (localize_image fm) soup w;
  for_each_tag (localize_emoji fm) soup w.

(** *** [_download_stylesheets] *)

(** the pattern [https:/www.notion.so] at the head of [s], in which a
    dot stands for any character but a newline; gives the rest *)
Fixpoint match_pattern (pat s : string) : option string :=
  match pat, s with
  | EmptyString, _ => Some s
  | String p pat', String c s' =>
      if (if Ascii.eqb p "."%char then negb (Ascii.eqb c "010"%char)
          else Ascii.eqb p c)
      then match_pattern pat' s' else None
  | String _ _, EmptyString => None
  end.

(** one repetition of the first group, [/?https:/www.notion.so] *)
Definition match_prefix (s : string) : option string :=
  match_pattern "https:/www.notion.so"
    (if Py.startswith s "/" then Py.drop 1 s else s).

(** the second group [(.+?)] followed by the closing parenthesis: the
    shortest non-empty run without newline that a parenthesis ends *)
Fixpoint match_lazy_rest (s : string) : option string :=
  match s with
  | EmptyString => None
  | String c s' =>
      if Ascii.eqb c ")"%char then Some EmptyString
      else if Ascii.eqb c "010"%char then None
      else String c <$> match_lazy_rest s'
  end.

Definition match_lazy (s : string) : option string :=
  match s with
  | EmptyString => None
  | String c s' =>
      if Ascii.eqb c "010"%char then None else String c <$> match_lazy_rest s'
  end.

(** the greedy repetition of the first group, giving back repetitions
    while the rest of the pattern fails *)
Fixpoint match_groups (fuel : nat) (s : string) : option string :=
  match fuel with
  | O => match_lazy s
  | S fuel' =>
      match match_prefix s with
      | Some s' =>
          match match_groups fuel' s' with
          | Some g => Some g
          | None => match_lazy s
          end
      | None => match_lazy s
      end
  end.

(** [m.group(2)] of lines 328-330, [None] when there is no match *)
Definition match_font_src (src : string) : option string :=
  if Py.startswith src "url("
  then match_groups (String.length src) (Py.drop 4 src)
  else None.

(** a text that the first group matches: one [https:/www.notion.so]
    for each element of [slashes], with a slash before it where the
    element says so *)
Fixpoint notion_prefixes (slashes : list bool) : string :=
  match slashes with
  | [] => EmptyString
  | slash :: rest =>
      (if slash then "/" else "") +:+ "https:/www.notion.so"
      +:+ notion_prefixes rest
  end.


(** line 338 *)
Definition font_download_url (parent_css_path font_file : string) : string :=
  Py.join "/"
    (List.map (λ p, Py.strip p "/")
       (List.filter (λ p, Py.truthy (Py.strip p "/"))
          [notion; parent_css_path; font_file])).

(** lines 326-341 on one rule of the stylesheet of [href]: line 332
    raises [ValueError] when the pattern does not match, line 341 raises
    [xml.dom.SyntaxErr] when [cssutils] does not take the new value *)
Definition localize_font (fm : FileManager.t) (href : string)
    (rule : css_rule) (w : FileManager.world)
  : result (css_rule * FileManager.world) :=
  match rule with
  | FontFace src =>
      match match_font_src src with
      | None =>
          Raise (ValueError "Could not parse stylesheet source of font face rule")
      | Some group2 =>
          let font_file := Py.replace group2 "assets/" "" in
          let parent_css_path := Pathlib.os_dirname (path (urlparse href)) in
          let u := font_download_url parent_css_path font_file in
          let '(font_download_path, w) :=
            FileManager.download_asset fm w u
              (Pathlib.name (Pathlib.of_str font_file)) in
          let src := "url(" +:+ font_download_path +:+ ")" in
          if valid_value "src" src then Ok (FontFace src, w)
          else Raise (OtherError "SyntaxErr")
      end
  | OtherRule _ => Ok (rule, w)
  end.

(** the loop of lines 325-341 *)
Fixpoint localize_fonts (fm : FileManager.t) (href : string)
    (rules : list css_rule) (w : FileManager.world)
  : result (list css_rule * FileManager.world) :=
  match rules with
  | [] => Ok ([], w)
  | rule :: rest =>
      '(rule', w) ← localize_font fm href rule w;
      '(rest', w) ← localize_fonts fm href rest w;
      Ok (rule' :: rest', w)
  end.

(** line 321: the file [os.path.join(output_dir, download_path)] is
    opened for update, so it has to exist; gives its name in the
    assets directory and its content *)
Definition open_asset (fm : FileManager.t) (w : FileManager.world)
    (download_path : string) : result (string * string) :=
  let missing :=
    Raise (FileNotFoundError
             (Pathlib.os_join (FileManager.output_dir fm) download_path)) in
  if Py.startswith download_path "assets/" then
    let n := Py.drop 7 download_path in
    match FileManager.read_file n (FileManager.assets w) with
    | Some content => Ok (n, content)
    | None => missing
    end
  else missing.

(** line 314 and the [rel] filter of line 315 *)
Definition is_stylesheet (name : string) (attrs : gmap string string) : bool :=
  String.eqb name "link"
  && match attrs !! "rel" with
     | Some rel => List.existsb (String.eqb "stylesheet") (Py.split rel " ")
     | None => false
     end
  && match attrs !! "href" with
     | Some href => Py.startswith href "/" && negb (Py.contains "vendors~" href)
     | None => false
     end.

(** lines 318-346 on one tag *)
Definition localize_stylesheet (fm : FileManager.t) (name : string)
    (attrs : gmap string string) (class : option (list string))
    (w : FileManager.world) : result (gmap string string * FileManager.world) :=
  if is_stylesheet name attrs then
    let href := default "" (attrs !! "href") in
    let '(download_path, w) :=
      FileManager.download_asset fm w (notion +:+ href) "" in
    '(n, content) ← open_asset fm w download_path;
    '(rules, w) ← localize_fonts fm href (css_parse content) w;
    let w :=
      FileManager.mkWorld
        (FileManager.write_file n (css_text rules) (FileManager.assets w))
        (FileManager.cache w) (FileManager.requests w) in
    Ok (<["href" := download_path]> attrs, w)
  else Ok (attrs, w).

Definition _download_stylesheets (fm : FileManager.t) (soup : node)
    (w : FileManager.world) : result (node * FileManager.world) :=
  for_each_tag (localize_stylesheet fm) soup w.

(** *** [_clean_up] *)

(** [soup.findAll(n)] *)
Definition by_name (n : string) : selector :=
  λ name _ _, String.eqb name n.

(** [soup.findAll(n, {key: value})] for an attribute of one value *)
Definition by_attr (n key value : string) : selector :=
  λ name attrs _, String.eqb name n && bool_decide (attrs !! key = Some value).

(** [soup.findAll(n, {"class": c})] *)
Definition by_class (n c : string) : selector :=
  λ name _ class, String.eqb name n && has_class c class.

(** line 270 *)
Definition vendors_link : selector :=
  λ name attrs _,
    String.eqb name "link"
    && match attrs !! "href" with
       | Some text => Py.truthy text && Py.contains "vendors~" text
       | None => false
       end.

(** [for x in soup.findAll(p): x.decompose()]: every element below the
    root that [p] selects goes, with all it contains *)
Fixpoint decompose_all (p : selector) (n : node) : node :=
  match n with
  | Text x => Text x
  | Tag name attrs class contents =>
      Tag name attrs class
        ((fix go (l : list node) : list node :=
            match l with
            | [] => []
            | c :: l' =>
                if selects p c then go l' else decompose_all p c :: go l'
            end) contents)
  end.

(** [x = soup.find(p)] and, if there is one, [x.decompose()]: the first
    element in document order that [p] selects goes; the flag says
    whether there was one *)
Fixpoint decompose_first (p : selector) (n : node) : node * bool :=
  match n with
  | Text x => (Text x, false)
  | Tag name attrs class contents =>
      let '(contents', found) :=
        (fix go (l : list node) : list node * bool :=
           match l with
           | [] => ([], false)
           | c :: l' =>
               if selects p c then (l', true)
               else
                 let '(c', found) := decompose_first p c in
                 if found then (c' :: l', true)
                 else let '(l'', found) := go l' in (c' :: l'', found)
           end) contents in
      (Tag name attrs class contents', found)
  end.

(** the contents of a tag in [decompose_all] and [decompose_first] *)
Definition decompose_all_in (p : selector) (l : list node) : list node :=
  (fix go (l : list node) : list node :=
     match l with
     | [] => []
     | c :: l' => if selects p c then go l' else decompose_all p c :: go l'
     end) l.

Definition decompose_first_in (p : selector) (l : list node) : list node * bool :=
  (fix go (l : list node) : list node * bool :=
     match l with
     | [] => ([], false)
     | c :: l' =>
         if selects p c then (l', true)
         else
           let '(c', found) := decompose_first p c in
           if found then (c' :: l', true)
           else let '(l'', found) := go l' in (c' :: l'', found)
     end) l.

(** the selectors of the [findAll] loops of lines 260-273 *)
Definition unwanted : list selector :=
  [ by_name "script";
    by_attr "iframe" "src" "https://aif.notion.so/aif-production.soup";
    by_attr "iframe" "id" "intercom-frame";
    by_class "div" "intercom-lightweight-app";
    by_class "div" "notion-overlay-container";
    vendors_link;
    by_class "div" "notion-collection-view-select" ].

(** the selectors of the [find] loops of lines 274-281 *)
Definition unwanted_meta : list selector :=
  List.map (by_attr "meta" "name")
    [ "description"; "twitter:card"; "twitter:site"; "twitter:title";
      "twitter:description"; "twitter:image"; "twitter:url";
      "apple-itunes-app" ]
  ++ List.map (by_attr "meta" "property")
       [ "og:site_name"; "og:type"; "og:url"; "og:title"; "og:description";
         "og:image" ].

(** [_clean_up(soup)] *)
Definition _clean_up (soup : node) : node :=
  let soup := List.fold_left (λ soup p, decompose_all p soup) unwanted soup in
  List.fold_left (λ soup p, (decompose_first p soup).1) unwanted_meta soup.

(** *** [_link_to_table_view_subpages]

    BeautifulSoup knows an element by identity. The function adds
    anchors and nothing else, so a row keeps its rank among the rows of
    the document in document order, and a table its rank among the
    tables: these ranks stand for the elements. *)

Definition is_table : selector := by_class "div" "notion-table-view".
Definition is_row : selector := by_class "div" "notion-collection-item".

(** the ranks of the rows in [n] and below, when [r] rows come before
    [n]; and the number of rows that come before what follows [n] *)
Fixpoint row_ranks (n : node) (r : nat) : list nat * nat :=
  match n with
  | Text _ => ([], r)
  | Tag name attrs class contents =>
      let here := if is_row name attrs class then [r] else [] in
      let r := if is_row name attrs class then S r else r in
      let '(below, r) :=
        (fix go (l : list node) (r : nat) : list nat * nat :=
           match l with
           | [] => ([], r)
           | c :: l' =>
               let '(a, r) := row_ranks c r in
               let '(b, r) := go l' r in
               (a ++ b, r)
           end) contents r in
      (here ++ below, r)
  end.

Definition row_ranks_in (l : list node) (r : nat) : list nat * nat :=
  (fix go (l : list node) (r : nat) : list nat * nat :=
     match l with
     | [] => ([], r)
     | c :: l' =>
         let '(a, r) := row_ranks c r in
         let '(b, r) := go l' r in
         (a ++ b, r)
     end) l r.

(** [table.findAll("div", {"class": "notion-collection-item"})] for
    each table in [n] and below, in document order *)
Fixpoint table_rows (n : node) (r : nat) : list (list nat) * nat :=
  match n with
  | Text _ => ([], r)
  | Tag name attrs class contents =>
      let r := if is_row name attrs class then S r else r in
      let own :=
        if is_table name attrs class then [(row_ranks_in contents r).1] else [] in
      let '(below, r) :=
        (fix go (l : list node) (r : nat) : list (list nat) * nat :=
           match l with
           | [] => ([], r)
           | c :: l' =>
               let '(a, r) := table_rows c r in
               let '(b, r) := go l' r in
               (a ++ b, r)
           end) contents r in
      (own ++ below, r)
  end.

Definition table_rows_in (l : list node) (r : nat) : list (list nat) * nat :=
  (fix go (l : list node) (r : nat) : list (list nat) * nat :=
     match l with
     | [] => ([], r)
     | c :: l' =>
         let '(a, r) := table_rows c r in
         let '(b, r) := go l' r in
         (a ++ b, r)
     end) l r.

(** line 386 *)
Definition anchor_style : string :=
  "cursor: pointer; color: inherit; text-decoration: none; fill: inherit;".

(** what a search gave, changed by [f]: nothing found, an exception,
    or the document with the change made *)
Definition map_found {A B : Type} (f : A → B) (r : option (result A))
  : option (result B) :=
  match r with
  | Some (Ok a) => Some (Ok (f a))
  | Some (Raise e) => Some (Raise e)
  | None => None
  end.

(** lines 382-388 on the first [span] in [n] and below, if there is
    one: its style loses [pointer-events: none;] and an anchor to
    [href] is put around it *)
Fixpoint wrap_first_span (href : string) (n : node) : option (result node) :=
  match n with
  | Text _ => None
  | Tag name attrs class contents =>
      if String.eqb name "span" then
        Some
          match attrs !! "style" with
          | None => Raise (KeyError "style")
          | Some style =>
              let style := Py.replace style "pointer-events: none;" "" in
              Ok (Tag "a" {["href" := href; "style" := anchor_style]} None
                    [Tag name (<["style" := style]> attrs) class contents])
          end
      else
        map_found (Tag name attrs class)
          ((fix go (l : list node) : option (result (list node)) :=
              match l with
              | [] => None
              | c :: l' =>
                  match wrap_first_span href c with
                  | Some c' => map_found (λ c', c' :: l') (Some c')
                  | None => map_found (cons c) (go l')
                  end
              end) contents)
  end.

Definition wrap_first_span_in (href : string) (l : list node)
  : option (result (list node)) :=
  (fix go (l : list node) : option (result (list node)) :=
     match l with
     | [] => None
     | c :: l' =>
         match wrap_first_span href c with
         | Some c' => map_found (λ c', c' :: l') (Some c')
         | None => map_found (cons c) (go l')
         end
     end) l.

(** lines 381-388 on the row of rank [target], looked for in [n] and
    below when [r] rows come before [n]; a row without [span] makes
    line 383 raise [TypeError] *)
Fixpoint wrap_row (target : nat) (n : node) (r : nat) : result (node * nat) :=
  match n with
  | Text _ => Ok (n, r)
  | Tag name attrs class contents =>
      if is_row name attrs class && (r =? target)%nat then
        match attrs !! "data-block-id" with
        | None => Raise (KeyError "data-block-id")
        | Some id =>
            let subpage_path := "/" +:+ Py.replace id "-" "" in
            match wrap_first_span_in subpage_path contents with
            | None => Raise (OtherError "TypeError")
            | Some (Raise e) => Raise e
            | Some (Ok contents') => Ok (Tag name attrs class contents', S r)
            end
        end
      else
        let r := if is_row name attrs class then S r else r in
        '(contents', r) ←
          (fix go (l : list node) (r : nat) : result (list node * nat) :=
             match l with
             | [] => Ok ([], r)
             | c :: l' =>
                 '(c', r) ← wrap_row target c r;
                 '(l'', r) ← go l' r;
                 Ok (c' :: l'', r)
             end) contents r;
        Ok (Tag name attrs class contents', r)
  end.

Definition wrap_row_in (target : nat) (l : list node) (r : nat)
  : result (list node * nat) :=
  (fix go (l : list node) (r : nat) : result (list node * nat) :=
     match l with
     | [] => Ok ([], r)
     | c :: l' =>
         '(c', r) ← wrap_row target c r;
         '(l'', r) ← go l' r;
         Ok (c' :: l'', r)
     end) l r.

(** the loop of line 380 over the rows of one table *)
Fixpoint wrap_rows (rows : list nat) (l : list node) : result (list node) :=
  match rows with
  | [] => Ok l
  | target :: rest =>
      '(l, _) ← wrap_row_in target l 0;
      wrap_rows rest l
  end.

(** the loop of line 377 over the tables, each with the rows it has
    when its turn comes *)
Fixpoint wrap_tables (tables : list nat) (l : list node) : result (list node) :=
  match tables with
  | [] => Ok l
  | k :: rest =>
      l ← wrap_rows (List.nth k (table_rows_in l 0).1 []) l;
      wrap_tables rest l
  end.

(** [_link_to_table_view_subpages(soup)] *)
Definition _link_to_table_view_subpages (soup : node) : result node :=
  match soup with
  | Text _ => Ok soup
  | Tag name attrs class contents =>
      let tables := List.seq 0 (length (table_rows_in contents 0).1) in
      Tag name attrs class <$> wrap_tables tables contents
  end.

(** the attributes of the first [span] in [n] and below *)
Fixpoint first_span (n : node) : option (gmap string string) :=
  match n with
  | Text _ => None
  | Tag name attrs _ contents =>
      if String.eqb name "span" then Some attrs
      else (fix go (l : list node) : option (gmap string string) :=
              match l with
              | [] => None
              | c :: l' =>
                  match first_span c with
                  | Some a => Some a
                  | None => go l'
                  end
              end) contents
  end.

Definition first_span_in (l : list node) : option (gmap string string) :=
  (fix go (l : list node) : option (gmap string string) :=
     match l with
     | [] => None
     | c :: l' =>
         match first_span c with
         | Some a => Some a
         | None => go l'
         end
     end) l.

(** an element that is not a row, or a row that lines 381-383 can
    read: it has a block id, and the first [span] below it has a style *)
Definition readable_row (n : node) : bool :=
  match n with
  | Text _ => true
  | Tag name attrs class contents =>
      negb (is_row name attrs class)
      || (bool_decide (is_Some (attrs !! "data-block-id"))
          && match first_span_in contents with
             | Some a => bool_decide (is_Some (a !! "style"))
             | None => false
             end)
  end.

(** *** [_load_page] *)

(** what one call of [is_page_loaded] sees of the live document: the
    number of elements of each class it asks for, for each scroller the
    number of [div] below it, and the markup at line 197 and at line 202 *)
Record poll := mkPoll {
  root_block : nat;
  unknown_blocks : nat;
  loading_spinners : nat;
  scrollers : list nat;
  page_source : string;
  page_source_after : string;
}.

(** [is_page_loaded(d)] with [prev_page] as it finds it: its answer,
    and [prev_page] as it leaves it *)
Definition is_page_loaded (prev_page : string) (d : poll) : bool * string :=
  if (0 <? root_block d)%nat then
    let scrollers_with_children :=
      List.filter (λ n, (0 <? n)%nat) (scrollers d) in
    let page_changed := negb (String.eqb prev_page (page_source d)) in
    let all_scrollers_loaded :=
      (length scrollers_with_children =? length (scrollers d))%nat in
    if all_scrollers_loaded && (unknown_blocks d =? 0)%nat
       && (loading_spinners d =? 0)%nat && negb page_changed
    then (true, prev_page)
    else (false, page_source_after d)
  else (false, page_source_after d).

(** [WebDriverWait(...).until(is_page_loaded)] over the polls made
    before the deadline: the number of the poll that answered [True],
    [None] for the [TimeoutException] *)
Fixpoint until_loaded (prev_page : string) (k : nat) (polls : list poll)
  : option nat :=
  match polls with
  | [] => None
  | d :: rest =>
      let '(loaded, prev_page) := is_page_loaded prev_page d in
      if loaded then Some k else until_loaded prev_page (S k) rest
  end.

(** lines 187-211: [prev_page] starts empty *)
Definition wait_for_page (polls : list poll) : option nat :=
  until_loaded "" 0 polls.

(** *** The loop of [run] *)

(** line 165: [set.pop()] gives some element of the set; [pick] says
    which, by its place (modulo the size) in the listing of the set.
    [None] for the empty set, on which line 164 leaves the loop. *)
Definition pop (pick : state → nat) (st : state) : option string :=
  let l := elements (will_visit st) in
  l !! (pick st `mod` length l)%nat.

(** [run], with [site u] the outcome of lines 167-173 on [u], [save u]
    the exception that [save_page] is left by on [u], if any, and [pick]
    the choice of [pop]; [None] when [fuel] turns of the loop were not
    enough *)
Fixpoint run_from (s : t) (site : string → result node)
    (save : string → option exn) (pick : state → nat) (fuel : nat)
    (st : state) : option config :=
  match fuel with
  | O => None
  | S fuel' =>
      match pop pick st with
      | None => Some (Exited st)
      | Some u =>
          match site u with
          | Raise e => Some (Crashed (popped st u) e)
          | Ok soup =>
              match _link_to_table_view_subpages (_link_to_subpages s soup).1 with
              | Raise e => Some (Crashed (popped st u) e)
              | Ok _ =>
                  match save u with
                  | Some e => Some (Crashed (popped st u) e)
                  | None => run_from s site save pick fuel' (visit s st u soup)
                  end
              end
          end
      end
  end.

Definition run (s : t) (site : string → result node)
    (save : string → option exn) (pick : state → nat) (fuel : nat)
  : option config :=
  run_from s site save pick fuel (start s).

(** *** The pages of a site *)

(** the subpage URLs [run] gets from the page of [u] *)
Definition links (s : t) (site : string → result node) (u : string)
  : list string :=
  match site u with
  | Ok soup => (_link_to_subpages s soup).2
  | Raise _ => []
  end.

(** the pages that subpage links lead to from the root *)
Inductive reachable_page (s : t) (site : string → result node)
  : string → Prop :=
  | reachable_root : reachable_page s site (url s)
  | reachable_link u p :
      reachable_page s site u → p ∈ links s site u → reachable_page s site p.

End with_env.
End Scraper.

(** ** A reference environment

    Executable stand-ins for the collaborators, for running the model on
    concrete pages: SHA-1 as [hashlib] computes it, [urlparse] and
    [parse_qs] as [urllib] computes them on ASCII text, and the simplest
    behaviour for the rest. The theorems do not depend on them. *)
Module Sha1.

Definition mask (x : Z) : Z := Z.land x 0xFFFFFFFF.

Definition rotl (n x : Z) : Z :=
  mask (Z.lor (Z.shiftl x n) (Z.shiftr x (32 - n))).

Definition bytes_of (s : string) : list Z :=
  List.map (λ c, Z.of_nat (nat_of_ascii c)) (list_ascii_of_string s).

(** the message, the bit [1], zeros up to 56 modulo 64, and the length
    in bits on 8 bytes *)
Definition pad (bytes : list Z) : list Z :=
  let l := Z.of_nat (length bytes) in
  let zeros := Z.to_nat ((55 - l) mod 64) in
  let bits := 8 * l in
  bytes ++ [0x80] ++ List.repeat 0 zeros
    ++ List.map (λ i, Z.land (Z.shiftr bits (8 * i)) 0xFF) [7; 6; 5; 4; 3; 2; 1; 0].

Fixpoint words (bytes : list Z) : list Z :=
  match bytes with
  | a :: b :: c :: d :: rest =>
      (Z.shiftl a 24 + Z.shiftl b 16 + Z.shiftl c 8 + d) :: words rest
  | _ => []
  end.

(** the message schedule, most recent word first *)
Fixpoint extend (n : nat) (rev_w : list Z) : list Z :=
  match n with
  | O => rev_w
  | S n' =>
      let x := Z.lxor (Z.lxor (List.nth 2 rev_w 0) (List.nth 7 rev_w 0))
                      (Z.lxor (List.nth 13 rev_w 0) (List.nth 15 rev_w 0)) in
      extend n' (rotl 1 x :: rev_w)
  end.

Definition schedule (block : list Z) : list Z :=
  List.rev (extend 64 (List.rev block)).

Definition regs : Type := Z * Z * Z * Z * Z.

Definition round (i : nat) (r : regs) (w : Z) : regs :=
  let '(a, b, c, d, e) := r in
  let '(f, k) :=
    if (i <? 20)%nat then
      (Z.lor (Z.land b c) (Z.land (Z.lxor b 0xFFFFFFFF) d), 0x5A827999)
    else if (i <? 40)%nat then (Z.lxor (Z.lxor b c) d, 0x6ED9EBA1)
    else if (i <? 60)%nat then
      (Z.lor (Z.lor (Z.land b c) (Z.land b d)) (Z.land c d), 0x8F1BBCDC)
    else (Z.lxor (Z.lxor b c) d, 0xCA62C1D6) in
  (mask (rotl 5 a + f + e + k + w), a, rotl 30 b, c, d).

Fixpoint rounds (i : nat) (ws : list Z) (r : regs) : regs :=
  match ws with
  | [] => r
  | w :: ws' => rounds (S i) ws' (round i r w)
  end.

Definition compress (h : regs) (block : list Z) : regs :=
  let '(a, b, c, d, e) := rounds 0 (schedule block) h in
  let '(h0, h1, h2, h3, h4) := h in
  (mask (h0 + a), mask (h1 + b), mask (h2 + c), mask (h3 + d), mask (h4 + e)).

Fixpoint blocks (n : nat) (ws : list Z) (h : regs) : regs :=
  match n with
  | O => h
  | S n' =>
      match ws with
      | [] => h
      | _ => blocks n' (List.skipn 16 ws) (compress h (List.firstn 16 ws))
      end
  end.

Definition hex_word (x : Z) : string :=
  List.fold_right
    (λ i acc, String (Py.hex_digit (Z.to_nat (Z.land (Z.shiftr x (4 * i)) 0xF))) acc)
    EmptyString [7; 6; 5; 4; 3; 2; 1; 0].

Definition hexdigest (s : string) : string :=
  let ws := words (pad (bytes_of s)) in
  let '(h0, h1, h2, h3, h4) :=
    blocks (length ws) ws
      (0x67452301, 0xEFCDAB89, 0x98BADCFE, 0x10325476, 0xC3D2E1F0) in
  hex_word h0 +:+ hex_word h1 +:+ hex_word h2 +:+ hex_word h3 +:+ hex_word h4.

End Sha1.

Module Urllib.

Definition is_alpha (c : ascii) : bool :=
  let n := nat_of_ascii c in
  (((65 <=? n) && (n <=? 90)) || ((97 <=? n) && (n <=? 122)))%nat.

Definition is_scheme_char (c : ascii) : bool :=
  let n := nat_of_ascii c in
  (is_alpha c || ((48 <=? n) && (n <=? 57))
   || (n =? 43) || (n =? 45) || (n =? 46))%nat.

Definition all_chars (p : ascii → bool) (s : string) : bool :=
  List.forallb p (list_ascii_of_string s).

(** [s.split(sep, 1)] as a pair, the second part empty without [sep] *)
Definition cut (s sep : string) : string * string :=
  match Py.find_nat sep s with
  | Some i => (Py.take i s, Py.drop (i + String.length sep) s)
  | None => (s, EmptyString)
  end.

(** the scheme and what follows its colon *)
Definition split_scheme (u : string) : string * string :=
  match Py.find_nat ":" u, u with
  | Some (S i), String c _ =>
      if is_alpha c && all_chars is_scheme_char (Py.take (S i) u)
      then (Py.lower (Py.take (S i) u), Py.drop (S (S i)) u)
      else (EmptyString, u)
  | _, _ => (EmptyString, u)
  end.

(** the end of the network location: the first of [/], [?] and [#] *)
Fixpoint netloc_length (s : string) : nat :=
  match s with
  | EmptyString => 0
  | String c s' =>
      if Ascii.eqb c "/"%char || Ascii.eqb c "?"%char || Ascii.eqb c "#"%char
      then 0 else S (netloc_length s')
  end.

(** the parameters of the last path segment are not part of the path *)
Definition split_params (p : string) : string :=
  let tail :=
    match Py.rfind_nat "/" p with
    | Some i => i
    | None => 0%nat
    end in
  match Py.find_nat ";" (Py.drop tail p) with
  | Some j => Py.take (tail + j) p
  | None => p
  end.

Definition uses_params (scheme : string) : bool :=
  List.existsb (String.eqb scheme)
    [""; "ftp"; "hdl"; "prospero"; "http"; "imap"; "https"; "shttp"; "rtsp";
     "rtspu"; "sip"; "sips"; "mms"; "sftp"; "tel"].

Definition urlparse (u : string) : ParseResult :=
  let '(scheme, rest) := split_scheme u in
  let '(netloc, rest) :=
    if Py.startswith rest "//" then
      let r := Py.drop 2 rest in
      (Py.take (netloc_length r) r, Py.drop (netloc_length r) r)
    else (EmptyString, rest) in
  let '(rest, _) := cut rest "#" in
  let '(p, query) := cut rest "?" in
  mkParse netloc (if uses_params scheme then split_params p else p) query.

Definition hex_value (c : ascii) : option nat :=
  let n := nat_of_ascii c in
  if ((48 <=? n) && (n <=? 57))%nat then Some (n - 48)%nat
  else if ((65 <=? n) && (n <=? 70))%nat then Some (n - 55)%nat
  else if ((97 <=? n) && (n <=? 102))%nat then Some (n - 87)%nat
  else None.

(** [unquote]: a percent sign and two hexadecimal digits give a byte *)
Fixpoint unquote (s : string) : string :=
  match s with
  | EmptyString => EmptyString
  | String c s' =>
      let keep := String c (unquote s') in
      if Ascii.eqb c "%"%char then
        match s' with
        | String a (String b r) =>
            match hex_value a, hex_value b with
            | Some x, Some y => String (ascii_of_nat (16 * x + y)) (unquote r)
            | _, _ => keep
            end
        | _ => keep
        end
      else keep
  end.

Definition decode (s : string) : string := unquote (Py.replace s "+" " ").

(** [parse_qsl]: fields without an equals sign or with an empty value
    are dropped *)
Definition parse_qsl (q : string) : list (string * string) :=
  List.flat_map
    (λ name_value,
       match Py.find_nat "=" name_value with
       | Some i =>
           let value := Py.drop (S i) name_value in
           if Py.truthy value
           then [(decode (Py.take i name_value), decode value)]
           else []
       | None => []
       end)
    (Py.split q "&").

Definition parse_qs (q : string) : gmap string (list string) :=
  List.fold_left
    (λ (m : gmap string (list string)) nv,
       <[nv.1 := default [] (m !! nv.1) ++ [nv.2]]> m)
    (parse_qsl q) ∅.

End Urllib.

Module Sample.

Definition guess_extension (content_type : string) : option string :=
  if String.eqb content_type "image/png" then Some ".png"
  else if String.eqb content_type "image/jpeg" then Some ".jpg"
  else if String.eqb content_type "text/css" then Some ".css"
  else if String.eqb content_type "font/woff2" then Some ".woff2"
  else None.

(** a stylesheet of one rule per line, a font-face rule being a line
    that starts with [src:] *)
Definition css_parse (data : string) : list css_rule :=
  List.map
    (λ line, if Py.startswith line "src:" then FontFace (Py.drop 4 line)
             else OtherRule line)
    (Py.split data (Py.chr "010"%char)).

Definition css_text (rules : list css_rule) : string :=
  Py.join (Py.chr "010"%char)
    (List.map (λ r, match r with
                    | FontFace src => "src:" +:+ src
                    | OtherRule text => text
                    end) rules).

(** an inline style with one declaration, [property: value] *)
Definition style_get (style prop : string) : string :=
  if Py.startswith style (prop +:+ ": ")
  then Py.drop (String.length prop + 2) style else EmptyString.

Definition style_set (style prop value : string) : string :=
  prop +:+ ": " +:+ value.

(** a value is taken when it is a [url(...)] *)
Definition valid_value (prop value : string) : bool :=
  Py.startswith value "url(" && String.eqb (Py.slice_from value (-1)) ")".

(** the environment of a network [net] *)
Definition env (net : list string → string → fetch_result) : Env :=
  Build_Env Urllib.urlparse Urllib.parse_qs Sha1.hexdigest guess_extension
    "/home/user/.cache/notion-snapshot" net css_parse css_text
    style_get valid_value style_set.

(** a network on which nothing can be fetched *)
Definition offline : list string → string → fetch_result :=
  λ _ _, ConnectionError.

End Sample.

(** ** Concrete pages, for running the model *)
Module Example.

Definition offline : Env := Sample.env Sample.offline.

Definition root : string := "https://x.notion.site/Page-abc123".

Definition scraper : Scraper.t :=
  Scraper.mk root (@FileManager.init offline root true).

(** a page whose scroller holds one link to a subpage *)
Definition page_with_subpage : node :=
  Tag "div" ∅ (Some ["notion-scroller"])
    [Tag "a" {["href" := "/Sub-Page-def456"]} None [Text "sub"]].

(** a page without links *)
Definition plain_page : node := Tag "div" ∅ None [Text "hello"].

Definition two_pages (u : string) : result node :=
  if String.eqb u root then Ok page_with_subpage else Ok plain_page.

Definition one_page (u : string) : result node := Ok plain_page.

(** every page can be written *)
Definition writable (u : string) : option exn := None.

(** [pop] takes the first element of the listing *)
Definition first (st : Scraper.state) : nat := 0%nat.

(** [pop] takes the last element of the listing *)
Definition last (st : Scraper.state) : nat :=
  pred (length (elements (Scraper.will_visit st))).

Definition empty_world : FileManager.world := FileManager.mkWorld [] [] [].

Definition image_url : string := "https://www.notion.so/image/x.png".

(** a page with one image *)
Definition page_with_image : node :=
  Tag "div" ∅ None [Tag "img" {["src" := image_url]} None []].

(** a network on which every request is answered with a font *)
Definition online : Env :=
  Sample.env (λ _ _, Response 200 (Some "font/woff2") "wOF2").

Definition font_url : string := "https://www.notion.so/_assets/inter.woff2".



(** a logger of [logging], whose [warning] does not *)
Definition standard_logger : Logger :=
  Build_Logger (Some (OtherError "TypeError")).

(** a live document with two toggle blocks that expand when clicked *)
Definition willing_driver : Driver :=
  Build_Driver unit (λ _, [0%nat; 1%nat]) (λ _ _, false) (λ d _, d)
    (λ d _, (d, true)).

(** a table view of one row, whose name links nowhere yet *)
Definition page_with_table : node :=
  Tag "body" ∅ None
    [Tag "div" ∅ (Some ["notion-table-view"])
       [Tag "div" {["data-block-id" := "0a1b-2c3d"]}
          (Some ["notion-selectable"; "notion-collection-item"])
          [Tag "span" {["style" := "pointer-events: none;color: red"]} None
             [Text "Row"]]]].

Definition css_url : string := "https://www.notion.so/app.css".

(** a network that serves the stylesheet [/app.css], whose only rule is
    a font-face rule with source [src], and nothing else *)
Definition only_stylesheet (src : string) : Env :=
  Sample.env (λ _ u,
    if String.eqb u css_url then Response 200 (Some "text/css") ("src:" +:+ src)
    else ConnectionError).

(** a page that links the stylesheet *)
Definition page_with_stylesheet : node :=
  Tag "head" ∅ None
    [Tag "link" {["rel" := "stylesheet"; "href" := "/app.css"]} None []].

(** a styled anchor to another site, with a styled element in it *)
Definition external_anchor : node :=
  Tag "a" {["href" := "https://example.com/"; "style" := "cursor: pointer"]} None
    [Tag "b" {["style" := "cursor: pointer"]} None [Text "elsewhere"]].

(** the same anchor pointing into the workspace, outside of a scroller *)
Definition internal_attrs : gmap string string :=
  {["href" := "/Other-Page-0a1b2c"; "style" := "cursor: pointer"]}.

Definition internal_contents : list node :=
  [Tag "b" {["style" := "cursor: pointer"]} None [Text "other"]].

Definition external_fragment : string := "https://example.com/page#section-2".

(** the file manager of a run on [root], with caching on *)
Definition file_manager (E : Env) : FileManager.t :=
  @FileManager.init E root true.


(** the stylesheet has a font-face source that is not a URL *)
Definition font_unparsable : Env := only_stylesheet "local(Inter)".

(** lines 167-173 reduced to [_download_stylesheets], on a site whose
    pages all link the stylesheet *)
Definition stylesheet_site (E : Env) (u : string) : result node :=
  fst <$> @Scraper._download_stylesheets E (file_manager E)
            page_with_stylesheet empty_world.

End Example.

(** * Properties *)

(** ** The model on known values *)

Example sha1_abc :
  Sha1.hexdigest "abc" = "a9993e364706816aba3e25717850c26c9cd0d89d".
Proof. vm_compute. reflexivity. Qed.

Example sha1_two_blocks :
  Sha1.hexdigest "abcdbcdecdefdefgefghfghighijhijkijkljklmklmnlmnomnopnopq"
  = "84983e441c3bd26ebaae4aa1f95129e5e54670f1".
Proof. vm_compute. reflexivity. Qed.

Example urlparse_page :
  Urllib.urlparse "https://x.notion.site/Page-abc123?v=1&width=200#top"
  = mkParse "x.notion.site" "/Page-abc123" "v=1&width=200".
Proof. vm_compute. reflexivity. Qed.

Example parse_qs_width :
  Urllib.parse_qs "a=1&width=200&b=&c&width=300" !! "width" = Some ["200"; "300"].
Proof. vm_compute. reflexivity. Qed.

Example str_list_width : Py.str_list ["200"] = "['200']".
Proof. vm_compute. reflexivity. Qed.

Example split_keeps_empty_pieces : Py.split "a/b//c" "/" = ["a"; "b"; ""; "c"].
Proof. vm_compute. reflexivity. Qed.

Example path_collapses_slashes :
  Pathlib.str (Pathlib.of_str "https://www.notion.so/image/x.png")
  = "https:/www.notion.so/image/x.png".
Proof. vm_compute. reflexivity. Qed.

Example path_suffix : Pathlib.suffix (Pathlib.of_str "/image/x.tar.gz") = ".gz".
Proof. vm_compute. reflexivity. Qed.

Example font_src_repeated_prefix :
  Scraper.match_font_src
    "url(https:/www.notion.so/https:/www.notion.so/_assets/inter.woff2) format(x)"
  = Some "/_assets/inter.woff2".
Proof. vm_compute. reflexivity. Qed.

Example font_src_gives_back_prefix :
  Scraper.match_font_src "url(https:/www.notion.so)" = Some "https:/www.notion.so".
Proof. vm_compute. reflexivity. Qed.

Example font_src_without_url : Scraper.match_font_src "local(Inter)" = None.
Proof. vm_compute. reflexivity. Qed.

Example filename_of_page :
  @FileManager.get_filename_from_url Example.offline
    (Scraper.file_manager Example.scraper)
    "https://x.notion.site/Other-Page-0a1b2c"
  = "other-page.html".
Proof. vm_compute. reflexivity. Qed.

Example subpage_link_is_followed :
  @Scraper.run Example.offline Example.scraper Example.two_pages
    Example.writable Example.first 3
  = Some (Scraper.Exited
            (Scraper.mkState ∅
               {[Example.root; "https://x.notion.site/Sub-Page-def456"]}
               [(Example.root, "snapshots/page/index.html");
                ("https://x.notion.site/Sub-Page-def456",
                 "snapshots/page/sub-page.html")])).
Proof. vm_compute. reflexivity. Qed.

(** ** Strings *)

Lemma startswith_app (p r : string) : Py.startswith (p +:+ r) p = true.
Proof.
  induction p as [|c p IH]; simpl; [by destruct r|].
  by rewrite Ascii.eqb_refl.
Qed.

Lemma startswith_inv (s p : string) :
  Py.startswith s p = true → ∃ r, s = p +:+ r.
Proof.
  revert s. induction p as [|c p IH]; intros s H.
  - by exists s.
  - destruct s as [|d s]; simpl in H; [done|].
    destruct (Ascii.eqb c d) eqn:Hcd; [|done].
    apply Ascii.eqb_eq in Hcd as ->.
    destruct (IH _ H) as [r ->]. by exists r.
Qed.

Lemma find_nat_none_cons (sub : string) (c : ascii) (s : string) :
  Py.find_nat sub (String c s) = None →
  Py.startswith (String c s) sub = false ∧ Py.find_nat sub s = None.
Proof.
  cbn [Py.find_nat]. destruct (Py.startswith (String c s) sub); [done|].
  destruct (Py.find_nat sub s); [done|]. done.
Qed.

Lemma find_nat_none_empty (sub : string) :
  Py.find_nat sub EmptyString = None → Py.startswith EmptyString sub = false.
Proof. cbn [Py.find_nat]. by destruct (Py.startswith EmptyString sub). Qed.

(** a substring that [find] does not see, [rfind] does not see either *)
Lemma rfind_nat_none (sub s : string) :
  Py.find_nat sub s = None → Py.rfind_nat sub s = None.
Proof.
  induction s as [|c s IH]; intros H.
  - apply find_nat_none_empty in H. cbn [Py.rfind_nat]. by rewrite H.
  - apply find_nat_none_cons in H as [H1 H2].
    cbn [Py.rfind_nat]. by rewrite (IH H2), H1.
Qed.

Lemma find_nat_none_drop (sub : string) (n : nat) (s : string) :
  Py.find_nat sub s = None → Py.find_nat sub (Py.drop n s) = None.
Proof.
  revert s. induction n as [|n IH]; intros s H; [by destruct s|].
  destruct s as [|c s]; [done|].
  apply find_nat_none_cons in H as [_ H]. by apply IH.
Qed.

Lemma contains_false (sub s : string) :
  Py.contains sub s = false → Py.find_nat sub s = None.
Proof. unfold Py.contains. by destruct (Py.find_nat sub s). Qed.

Lemma find_nat_startswith (sep s : string) :
  Py.startswith s sep = true → Py.find_nat sep s = Some 0%nat.
Proof. intros H. destruct s; cbn [Py.find_nat]; by rewrite H. Qed.

Lemma take_remove_last (s : string) :
  Py.take (String.length s - 1) s = Py.remove_last s.
Proof.
  unfold Py.remove_last.
  induction s as [|c s IH]; [done|].
  destruct s as [|d s]; [done|].
  replace (String.length (String c (String d s)) - 1)%nat
    with (S (String.length (String d s) - 1)) by (cbn [String.length]; lia).
  cbn [Py.take]. rewrite IH. done.
Qed.

Lemma slice_to_minus_one (s : string) :
  Py.slice_to s (-1) = Py.remove_last s.
Proof.
  unfold Py.slice_to, Py.bound.
  change (-1 <? 0) with true. cbv iota.
  rewrite <- take_remove_last. f_equal. lia.
Qed.

Lemma slice_from_one (s : string) : Py.slice_from s 1 = Py.drop 1 s.
Proof. unfold Py.slice_from, Py.bound. by destruct s. Qed.

Lemma drop_length (n : nat) (s : string) :
  String.length (Py.drop n s) = (String.length s - n)%nat.
Proof.
  revert s. induction n as [|n IH]; intros [|c s]; simpl; done.
Qed.

Lemma append_cons (x : ascii) (a b : string) :
  String x a +:+ b = String x (a +:+ b).
Proof. reflexivity. Qed.

Lemma append_assoc (a b c : string) : (a +:+ b) +:+ c = a +:+ (b +:+ c).
Proof.
  induction a as [|x a IH]; [done|]. rewrite !append_cons. by rewrite IH.
Qed.

Lemma append_empty_r (a : string) : a +:+ "" = a.
Proof. induction a as [|x a IH]; [done|]. rewrite append_cons. by rewrite IH. Qed.

Lemma append_length (a b : string) :
  String.length (a +:+ b) = (String.length a + String.length b)%nat.
Proof.
  induction a as [|x a IH]; [done|]. rewrite append_cons. simpl. by rewrite IH.
Qed.

Lemma append_inv_head (a b c : string) : a +:+ b = a +:+ c → b = c.
Proof.
  induction a as [|x a IH]; [done|]. rewrite !append_cons.
  intros H. apply IH. by inversion H.
Qed.

Lemma append_inv_tail (a b t : string) : a +:+ t = b +:+ t → a = b.
Proof.
  revert b. induction a as [|x a IH]; intros [|y b] H.
  - done.
  - apply (f_equal String.length) in H.
    rewrite !append_length in H. simpl in H. lia.
  - apply (f_equal String.length) in H.
    rewrite !append_length in H. simpl in H. lia.
  - rewrite !append_cons in H. inversion H; subst. f_equal. by apply IH.
Qed.

Lemma find_nat_some (sep s : string) (i : nat) :
  Py.find_nat sep s = Some i →
  s = Py.take i s +:+ sep +:+ Py.drop (i + String.length sep) s.
Proof.
  revert i. induction s as [|c s IH]; intros i.
  - cbn [Py.find_nat]. destruct (Py.startswith "" sep) eqn:Hs; [|done].
    intros [= <-]. destruct sep; [done|]. done.
  - cbn [Py.find_nat]. destruct (Py.startswith (String c s) sep) eqn:Hs.
    + intros [= <-]. apply startswith_inv in Hs as [r Hr]. rewrite Hr.
      cbn [Py.take]. change ("" +:+ sep +:+ ?x) with (sep +:+ x). f_equal.
      clear. induction sep as [|d sep IHs]; [by destruct r|].
      rewrite append_cons. simpl. apply IHs.
    + destruct (Py.find_nat sep s) as [j|] eqn:Hj; [|done].
      intros [= <-]. cbn [Py.take Py.drop Nat.add].
      rewrite append_cons. f_equal. by apply IH.
Qed.

Lemma find_nat_le (sep s : string) (i : nat) :
  Py.find_nat sep s = Some i →
  (i + String.length sep ≤ String.length s)%nat.
Proof.
  revert i. induction s as [|c s IH]; intros i H.
  - cbn [Py.find_nat] in H. destruct (Py.startswith "" sep) eqn:E1; [|done].
    injection H as <-. destruct sep; [simpl; lia | done].
  - cbn [Py.find_nat] in H. destruct (Py.startswith (String c s) sep) eqn:E1.
    + injection H as <-. apply startswith_inv in E1 as [r Hr].
      apply (f_equal String.length) in Hr. rewrite append_length in Hr. lia.
    + destruct (Py.find_nat sep s) as [j|] eqn:Hj; [|done].
      injection H as <-. specialize (IH j eq_refl). simpl. lia.
Qed.

Lemma find_nat_app (sep p q : string) :
  Py.find_nat sep (p +:+ sep +:+ q) ≠ None.
Proof.
  induction p as [|x p IH].
  - change ("" +:+ sep +:+ q) with (sep +:+ q).
    by rewrite (find_nat_startswith _ _ (startswith_app sep q)).
  - rewrite append_cons. cbn [Py.find_nat].
    destruct (Py.startswith _ sep); [done|].
    by destruct (Py.find_nat sep (p +:+ sep +:+ q)).
Qed.

Lemma split_fuel_not_nil (fuel : nat) (sep s : string) :
  Py.split_fuel fuel sep s ≠ [].
Proof. destruct fuel; simpl; [done|]. by destruct (Py.find_nat sep s). Qed.

(** the last piece of [s.split(sep)] has no [sep] in it, and [s] ends
    with it: it comes right after the last [sep] when there is one *)
Lemma split_fuel_last (sep : string) (fuel : nat) (s : string) :
  sep ≠ "" →
  (String.length s < fuel)%nat →
  let piece := Py.last (Py.split_fuel fuel sep s) in
  Py.find_nat sep piece = None
  ∧ match Py.find_nat sep s with
    | Some _ => ∃ before, s = before +:+ sep +:+ piece
    | None => piece = s
    end.
Proof.
  intros Hsep. revert s. induction fuel as [|fuel IH]; intros s Hlen; [lia|].
  cbn [Py.split_fuel]. destruct (Py.find_nat sep s) as [i|] eqn:Hi.
  - pose proof (find_nat_some sep s i Hi) as Hs.
    pose proof (find_nat_le sep s i Hi) as Hle.
    set (rest := Py.drop (i + String.length sep) s) in *.
    assert (String.length rest < fuel)%nat as Hrest.
    { subst rest. rewrite drop_length.
      destruct sep; [done|]. simpl in *. lia. }
    destruct (IH rest Hrest) as [Hnone Hcase].
    assert (Py.last (Py.take i s :: Py.split_fuel fuel sep rest)
            = Py.last (Py.split_fuel fuel sep rest)) as ->.
    { destruct fuel; [lia|]. cbn [Py.split_fuel].
      by destruct (Py.find_nat sep rest). }
    split; [done|].
    destruct (Py.find_nat sep rest) as [j|].
    + destruct Hcase as [before Hb].
      exists (Py.take i s +:+ sep +:+ before).
      rewrite !append_assoc. rewrite <- Hb. done.
    + exists (Py.take i s). by rewrite Hcase.
  - simpl. done.
Qed.

Lemma split_last (s sep : string) :
  sep ≠ "" →
  Py.contains sep s = true →
  Py.contains sep (Py.last (Py.split s sep)) = false
  ∧ ∃ before, s = before +:+ sep +:+ Py.last (Py.split s sep).
Proof.
  intros Hsep Hin. unfold Py.split.
  destruct (split_fuel_last sep (S (String.length s)) s Hsep) as [Hnone Hcase];
    [lia|].
  unfold Py.contains in *. rewrite Hnone. split; [done|].
  by destruct (Py.find_nat sep s).
Qed.

(** what follows the last occurrence of a character is determined *)
Lemma after_last_unique (c : ascii) (a b f g : string) :
  a +:+ Py.chr c +:+ f = b +:+ Py.chr c +:+ g →
  Py.find_nat (Py.chr c) f = None →
  Py.find_nat (Py.chr c) g = None →
  f = g.
Proof.
  revert b. induction a as [|x a IH]; intros [|y b] H Hf Hg.
  - by inversion H.
  - exfalso. change (String c f = String y (b +:+ Py.chr c +:+ g)) in H.
    inversion H; subst. by apply (find_nat_app (Py.chr y) b g).
  - exfalso. change (String x (a +:+ Py.chr c +:+ f) = String c g) in H.
    inversion H; subst. by apply (find_nat_app (Py.chr c) a f).
  - rewrite !append_cons in H. inversion H; subst. by eapply IH.
Qed.

Lemma repr_body_plain (s : string) :
  Py.plain s = true → Py.repr_body "'"%char s = s.
Proof.
  unfold Py.plain. induction s as [|c s IH]; [done|].
  cbn [list_ascii_of_string List.forallb Py.repr_body].
  intros H. apply andb_prop in H as [Hc Hs]. rewrite (IH Hs).
  unfold Py.plain_char in Hc.
  apply andb_prop in Hc as [Hc H127]. apply andb_prop in Hc as [Hc H32].
  apply andb_prop in Hc as [Hq Hb].
  apply negb_true_iff in Hq, Hb, H127.
  apply Nat.leb_le in H32. apply Nat.eqb_neq in H127.
  unfold Py.repr_char. rewrite Hq, Hb. cbn [orb].
  destruct (Nat.eqb_spec (nat_of_ascii c) 9); [lia|].
  destruct (Nat.eqb_spec (nat_of_ascii c) 10); [lia|].
  destruct (Nat.eqb_spec (nat_of_ascii c) 13); [lia|].
  destruct (Nat.ltb_spec (nat_of_ascii c) 32); [lia|].
  destruct (Nat.eqb_spec (nat_of_ascii c) 127); [lia|]. done.
Qed.

Lemma plain_no_quote (s : string) :
  Py.plain s = true → Py.contains "'" s = false.
Proof.
  unfold Py.plain, Py.contains. induction s as [|c s IH]; [done|].
  cbn [list_ascii_of_string List.forallb].
  intros H. apply andb_prop in H as [Hc Hs].
  unfold Py.plain_char in Hc.
  apply andb_prop in Hc as [Hc _]. apply andb_prop in Hc as [Hc _].
  apply andb_prop in Hc as [Hq _]. apply negb_true_iff in Hq.
  rewrite Ascii.eqb_sym in Hq.
  cbn [Py.find_nat Py.startswith]. rewrite Hq.
  specialize (IH Hs). by destruct (Py.find_nat "'" s).
Qed.

Lemma repr_plain (s : string) :
  Py.plain s = true → Py.repr s = "'" +:+ s +:+ "'".
Proof.
  intros H. unfold Py.repr, Py.repr_quote.
  rewrite (plain_no_quote s H). simpl. by rewrite (repr_body_plain s H).
Qed.

Lemma str_list_plain_inj (a b : string) :
  Py.plain a = true → Py.plain b = true →
  Py.str_list [a] = Py.str_list [b] → a = b.
Proof.
  intros Ha Hb. unfold Py.str_list. simpl.
  rewrite (repr_plain a Ha), (repr_plain b Hb).
  intros H. apply append_inv_head in H.
  rewrite !append_assoc in H. apply append_inv_head in H.
  by apply append_inv_tail in H.
Qed.

(** ** Paths *)

Lemma last_filter (p : string → bool) (l : list string) (d : string) :
  l ≠ [] → p (List.last l d) = true →
  List.last (List.filter p l) d = List.last l d.
Proof.
  intros Hl Hp. destruct (exists_last Hl) as (l' & x & ->).
  rewrite last_last in Hp. rewrite List.filter_app. simpl. rewrite Hp.
  by rewrite !last_last.
Qed.

(** [Path(d + "/" + f).name] is [f] for a file name [f] *)
Lemma name_of_file_in_dir (d f : string) :
  Py.contains "/" f = false →
  Pathlib.is_part f = true →
  Pathlib.name (Pathlib.of_str (d +:+ "/" +:+ f)) = f.
Proof.
  intros Hf Hpart. unfold Pathlib.name, Pathlib.of_str. simpl.
  assert (Py.contains "/" (d +:+ "/" +:+ f) = true) as Hin.
  { unfold Py.contains. pose proof (find_nat_app "/" d f) as H.
    by destruct (Py.find_nat "/" (d +:+ "/" +:+ f)). }
  destruct (split_last (d +:+ "/" +:+ f) "/" ltac:(done) Hin)
    as [Hnone [before Hbefore]].
  assert (f = Py.last (Py.split (d +:+ "/" +:+ f) "/")) as Hlast.
  { eapply (after_last_unique "/"%char d before); [exact Hbefore | |].
    - by apply contains_false.
    - by apply contains_false. }
  unfold Py.last in Hlast. rewrite last_filter.
  - done.
  - apply split_fuel_not_nil.
  - by rewrite <- Hlast.
Qed.

Lemma join_cons (sep x : string) (l : list string) :
  l ≠ [] → Py.join sep (x :: l) = x +:+ sep +:+ Py.join sep l.
Proof. by destruct l. Qed.

(** joining the pieces of [s.split(sep)] with [sep] gives [s] back *)
Lemma join_split_fuel (sep : string) (fuel : nat) (s : string) :
  sep ≠ "" → (String.length s < fuel)%nat →
  Py.join sep (Py.split_fuel fuel sep s) = s.
Proof.
  intros Hsep. revert s. induction fuel as [|fuel IH]; intros s Hlen; [lia|].
  cbn [Py.split_fuel]. destruct (Py.find_nat sep s) as [i|] eqn:Hi; [|done].
  rewrite join_cons by apply split_fuel_not_nil.
  rewrite IH.
  - symmetry. by apply find_nat_some.
  - pose proof (find_nat_le sep s i Hi). rewrite drop_length.
    destruct sep; [done|]. simpl in *. lia.
Qed.

Lemma join_length (sep : ascii) (l : list string) :
  l ≠ [] → S (String.length (Py.join (Py.chr sep) l)) = Py.total_length l.
Proof.
  induction l as [|x l IH]; [done|]. intros _.
  destruct l as [|y l]; [simpl; lia|].
  assert (y :: l ≠ []) as Hne by done.
  specialize (IH Hne). revert IH Hne. generalize (y :: l). intros L IH Hne.
  rewrite join_cons by done. rewrite !append_length.
  cbn [Py.total_length]. rewrite <- IH. simpl. lia.
Qed.

Lemma split_length (sep : ascii) (s : string) :
  Py.total_length (Py.split s (Py.chr sep)) = S (String.length s).
Proof.
  rewrite <- (join_length sep) by apply split_fuel_not_nil.
  f_equal. f_equal. apply join_split_fuel; [done|lia].
Qed.

(** replacing a character by another keeps the length *)
Lemma replace_char_length (s : string) (old new : ascii) :
  String.length (Py.replace s (Py.chr old) (Py.chr new)) = String.length s.
Proof.
  unfold Py.replace. cbn [Py.chr].
  apply Nat.succ_inj. change (String new "") with (Py.chr new).
  rewrite join_length by apply split_fuel_not_nil.
  apply (split_length old).
Qed.

Lemma filter_total_length (p : string → bool) (l : list string) :
  (Py.total_length (List.filter p l) ≤ Py.total_length l)%nat.
Proof.
  induction l as [|x l IH]; [done|].
  cbn [List.filter]. destruct (p x); cbn [Py.total_length]; lia.
Qed.

Lemma filter_total_length_lt (p : string → bool) (l : list string) (x : string) :
  In x l → p x = false →
  (Py.total_length (List.filter p l) < Py.total_length l)%nat.
Proof.
  induction l as [|y l IH]; [done|].
  intros [-> | Hin] Hp; cbn [List.filter].
  - rewrite Hp. pose proof (filter_total_length p l) as H.
    cbn [Py.total_length]. lia.
  - specialize (IH Hin Hp). destruct (p y); cbn [Py.total_length]; lia.
Qed.

(** a relative path with an empty component, as every URL with [//]
    after its scheme is, gets shorter when [pathlib] prints it *)
Lemma path_str_shorter (u : string) :
  Pathlib.root_of u = "" →
  In "" (Py.split u "/") →
  (2 ≤ String.length u)%nat →
  (String.length (Pathlib.str (Pathlib.of_str u)) < String.length u)%nat.
Proof.
  intros Hroot Hempty Hlen. unfold Pathlib.str, Pathlib.of_str.
  cbn [Pathlib.root Pathlib.parts]. rewrite Hroot.
  pose proof (filter_total_length_lt Pathlib.is_part (Py.split u "/") ""
                Hempty eq_refl) as Hlt.
  rewrite (split_length "/"%char) in Hlt.
  destruct (List.filter Pathlib.is_part (Py.split u "/")) as [|x l] eqn:Hparts.
  - simpl. lia.
  - change ("" +:+ Py.join "/" (x :: l)) with (Py.join "/" (x :: l)).
    pose proof (join_length "/"%char (x :: l) ltac:(done)) as Hj.
    change (Py.chr "/"%char) with "/" in Hj. lia.
Qed.

Lemma fallback_differs (u : string) :
  Pathlib.root_of u = "" →
  In "" (Py.split u "/") →
  (2 ≤ String.length u)%nat →
  Py.replace (Pathlib.str (Pathlib.of_str u)) "\" "/" ≠ u.
Proof.
  intros Hroot Hempty Hlen Heq. apply (f_equal String.length) in Heq.
  rewrite (replace_char_length _ "\"%char "/"%char) in Heq.
  pose proof (path_str_shorter u Hroot Hempty Hlen). lia.
Qed.

Lemma take_app_length (a r : string) : Py.take (String.length a) (a +:+ r) = a.
Proof.
  induction a as [|x a IH]; [by destruct r|].
  rewrite append_cons. simpl. by rewrite IH.
Qed.

Lemma drop_app_length (a r : string) : Py.drop (String.length a) (a +:+ r) = r.
Proof.
  induction a as [|x a IH]; [by destruct r|].
  rewrite append_cons. simpl. by rewrite IH.
Qed.

Lemma startswith_empty (s : string) : Py.startswith s "" = true.
Proof. by destruct s. Qed.

(** the first occurrence of a character that [a] does not have *)
Lemma find_nat_after (c : ascii) (a r : string) :
  Py.find_nat (Py.chr c) a = None →
  Py.find_nat (Py.chr c) (a +:+ Py.chr c +:+ r) = Some (String.length a).
Proof.
  induction a as [|x a IH]; intros Ha.
  - apply find_nat_startswith. apply (startswith_app (Py.chr c) r).
  - apply find_nat_none_cons in Ha as [Hx Ha].
    rewrite append_cons. cbn [Py.find_nat].
    cbn [Py.startswith Py.chr] in Hx |- *.
    destruct (Ascii.eqb c x).
    + by rewrite startswith_empty in Hx.
    + rewrite (IH Ha). done.
Qed.

(** two separators in a row leave an empty piece between them *)
Lemma split_double (c : ascii) (a r : string) :
  Py.find_nat (Py.chr c) a = None →
  In "" (Py.split (a +:+ Py.chr c +:+ Py.chr c +:+ r) (Py.chr c)).
Proof.
  intros Ha. unfold Py.split. cbn [Py.split_fuel].
  rewrite (find_nat_after c a _ Ha), take_app_length.
  replace (String.length a + String.length (Py.chr c))%nat
    with (String.length (a +:+ Py.chr c)) by apply append_length.
  rewrite <- append_assoc, drop_app_length.
  right. rewrite !append_length. rewrite Nat.add_comm.
  cbn [String.length Py.chr Nat.add Py.split_fuel].
  rewrite (find_nat_startswith _ _ (startswith_app (Py.chr c) r)).
  by left.
Qed.

(** what [download_asset] returns for a URL that could not be fetched
    is never that URL, when the URL has [//] after its scheme *)
Lemma fallback_is_not_the_url (scheme rest : string) :
  scheme ≠ "" →
  Py.contains "/" scheme = false →
  Py.replace (Pathlib.str (Pathlib.of_str (scheme +:+ "//" +:+ rest))) "\" "/"
  ≠ scheme +:+ "//" +:+ rest.
Proof.
  intros Hne Hscheme. apply contains_false in Hscheme.
  apply fallback_differs.
  - destruct scheme as [|x scheme]; [done|].
    apply find_nat_none_cons in Hscheme as [Hx _].
    cbn [Py.startswith] in Hx. rewrite append_cons.
    unfold Pathlib.root_of. cbn [Py.startswith].
    destruct (Ascii.eqb "/" x); [|done].
    by rewrite startswith_empty in Hx.
  - by apply (split_double "/"%char scheme rest).
  - rewrite !append_length. simpl. lia.
Qed.

Example fallback_of_https (rest : string) :
  Py.replace (Pathlib.str (Pathlib.of_str ("https://" +:+ rest))) "\" "/"
  ≠ "https://" +:+ rest.
Proof. by apply (fallback_is_not_the_url "https:" rest). Qed.

(** ** File names of pages *)

Section filenames.
Context `{E : Env}.

Lemma page_name_no_hyphen (u : string) :
  Py.contains "-" (path (urlparse u)) = false →
  FileManager.page_name u
  = Py.lower (Py.remove_last (Py.drop 1 (path (urlparse u)))).
Proof.
  intros H. unfold FileManager.page_name.
  rewrite slice_from_one. unfold Py.rfind.
  rewrite (rfind_nat_none _ _ (find_nat_none_drop _ 1 _ (contains_false _ _ H))).
  by rewrite slice_to_minus_one.
Qed.

(** C10: for a URL other than the root whose path has no hyphen,
    [get_filename_from_url] gives the path without its leading slash
    and without its last character, in lower case, followed by
    [.html]: [rfind] answers [-1] and the slice [id[:-1]] drops one
    character. *)
Theorem filename_without_hyphen_drops_last_char (fm : FileManager.t) (u : string) :
  u ≠ FileManager.url fm →
  Py.contains "-" (path (urlparse u)) = false →
  FileManager.get_filename_from_url fm u
  = Py.lower (Py.remove_last (Py.drop 1 (path (urlparse u)))) +:+ ".html".
Proof.
  intros Hne Hno. unfold FileManager.get_filename_from_url.
  apply String.eqb_neq in Hne. rewrite Hne.
  by rewrite page_name_no_hyphen.
Qed.

Lemma root_filename (fm : FileManager.t) :
  FileManager.get_filename_from_url fm (FileManager.url fm) = "index.html".
Proof.
  unfold FileManager.get_filename_from_url. by rewrite String.eqb_refl.
Qed.

End filenames.

Lemma filename_without_hyphen_witness :
  @FileManager.get_filename_from_url Example.offline
    (Scraper.file_manager Example.scraper) "https://x.notion.site/Other"
  = "othe.html".
Proof.
  exact (@filename_without_hyphen_drops_last_char Example.offline
           (Scraper.file_manager Example.scraper) "https://x.notion.site/Other"
           ltac:(discriminate) ltac:(vm_compute; reflexivity)).
Defined.

(** ** Asset names *)

Section asset_names.
Context `{E : Env}.
Import FileManager.

(** the name that is generated for a URL: what is hashed, and when two
    URLs of one location and path get the same name *)
Lemma generated_names_by_width (u1 u2 : string) :
  netloc (urlparse u1) = netloc (urlparse u2) →
  path (urlparse u1) = path (urlparse u2) →
  let width := λ u, parse_qs (query (urlparse u)) !! "width" in
  let differ :=
    hash_input u1 ≠ hash_input u2
    ∧ (generated_name u1 = generated_name u2 →
       ∃ x y, x ≠ y ∧ sha1_hexdigest x = sha1_hexdigest y) in
  generated_name u1
  = sha1_hexdigest
      (netloc (urlparse u1) +:+ path (urlparse u1) +:+
       match width u1 with
       | Some values => "?width=" +:+ Py.str_list values
       | None => ""
       end)
  ∧ (width u1 = width u2 → generated_name u1 = generated_name u2)
  ∧ (∀ a b, width u1 = Some [a] → width u2 = Some [b] →
       Py.plain a = true → Py.plain b = true → a ≠ b → differ)
  ∧ (∀ values, width u1 = None → width u2 = Some values → differ).
Proof.
  intros Hnet Hpath width differ.
  assert (hash_input u1 ≠ hash_input u2 → differ) as Hcollide.
  { intros Hne. split; [done|]. intros Hname.
    by exists (hash_input u1), (hash_input u2). }
  subst width. cbv beta in *. split_and!.
  - unfold generated_name, hash_input.
    destruct (parse_qs (query (urlparse u1)) !! "width").
    + f_equal. apply append_assoc.
    + f_equal. by rewrite append_empty_r.
  - intros Hw. unfold generated_name, hash_input. by rewrite Hw, Hnet, Hpath.
  - intros a b Ha Hb Hpa Hpb Hne. apply Hcollide. unfold hash_input.
    rewrite Ha, Hb, Hnet, Hpath.
    intros Heq. apply append_inv_head, append_inv_head in Heq.
    by apply Hne, str_list_plain_inj.
  - intros values Ha Hb. apply Hcollide. unfold hash_input.
    rewrite Ha, Hb, Hnet, Hpath.
    intros Heq. apply (f_equal String.length) in Heq.
    rewrite !append_length in Heq. simpl in Heq. lia.
Qed.

End asset_names.

(** the names of one image at two widths, and with one more parameter *)
Lemma asset_names_of_two_widths :
  @FileManager.generated_name Example.offline
    "https://www.notion.so/image/x.png?width=200"
  = "c18f552e8a948311fedfe64c13cd2997b1ae6c84"
  ∧ @FileManager.generated_name Example.offline
      "https://www.notion.so/image/x.png?width=400"
    = "b8890a1cc4c761696268af15899e1a7d751f7fc6"
  ∧ @FileManager.generated_name Example.offline
      "https://www.notion.so/image/x.png?width=200&cache=v2"
    = "c18f552e8a948311fedfe64c13cd2997b1ae6c84".
Proof. split_and!; vm_compute; reflexivity. Qed.

(** ** The asset store *)

Section asset_store.
Context `{E : Env}.
Import FileManager.

Lemma try_fetch_connection_error (fm : t) (w : world) (u filename : string) :
  session_get (requests w) u = ConnectionError →
  try_fetch fm w u filename = None.
Proof. intros H. unfold try_fetch. by rewrite H. Qed.

Lemma try_fetch_error_status (fm : t) (w : world) (u filename : string)
    (status : Z) (content_type : option string) (content : string) :
  session_get (requests w) u = Response status content_type content →
  raises_for_status status = true →
  try_fetch fm w u filename = None.
Proof. intros H Hs. unfold try_fetch. by rewrite H, Hs. Qed.

(** when the asset is neither in the output directory nor in the cache
    and the [try] of line 79 fails, [download_asset] returns the URL as
    [pathlib] prints it, and nothing is raised *)
Lemma download_asset_failed_fetch (fm : t) (w : world) (u filename : string) :
  let name := if Py.truthy filename then filename else generated_name u in
  glob_stem (assets w) name = [] →
  (if cache_assets fm then _load_from_cache fm w name else (None, w)) = (None, w) →
  try_fetch fm w u name = None →
  download_asset fm w u filename
  = (Py.replace (Pathlib.str (Pathlib.of_str u)) "\" "/",
     mkWorld (assets w) (cache w) (requests w ++ [u])).
Proof.
  intros name Hglob Hcache Hfetch. unfold download_asset. fold name.
  by rewrite Hglob, Hcache, Hfetch.
Qed.

(** and what it returns is then not the URL it was given, for a URL
    with [//] after its scheme *)
Lemma failed_fetch_changes_url (fm : t) (w : world) (scheme rest filename : string) :
  let u := scheme +:+ "//" +:+ rest in
  let name := if Py.truthy filename then filename else generated_name u in
  scheme ≠ "" →
  Py.contains "/" scheme = false →
  glob_stem (assets w) name = [] →
  (if cache_assets fm then _load_from_cache fm w name else (None, w)) = (None, w) →
  try_fetch fm w u name = None →
  (download_asset fm w u filename).1 ≠ u.
Proof.
  intros u name Hne Hscheme Hglob Hcache Hfetch.
  rewrite (download_asset_failed_fetch fm w u filename Hglob Hcache Hfetch).
  by apply fallback_is_not_the_url.
Qed.

End asset_store.

(** C3: for an image whose request fails,
    [download_asset] returns the URL as [pathlib] prints it, with the
    two slashes after the scheme collapsed into one, and this is what
    [_download_images] writes into [src]: the run goes on and the
    image is still there, but its reference is no longer the original
    absolute URL. *)
Theorem failed_fetch_collapses_url :
  @FileManager.download_asset Example.offline
    (Scraper.file_manager Example.scraper) Example.empty_world
    "https://www.notion.so/image/x.png" ""
  = ("https:/www.notion.so/image/x.png",
     FileManager.mkWorld [] [] ["https://www.notion.so/image/x.png"])
  ∧ @Scraper._download_images Example.offline
      (Scraper.file_manager Example.scraper)
      Example.page_with_image Example.empty_world
    = Ok (Tag "div" ∅ None
            [Tag "img" {["src" := "https:/www.notion.so/image/x.png"]} None []],
          FileManager.mkWorld [] [] ["https://www.notion.so/image/x.png"]).
Proof. split; vm_compute; reflexivity. Qed.

(** C7: for a font asked for twice under its file name
    [inter.woff2], with an empty cache, both calls return the
    same path, but the second call fetches again: the pattern
    [inter.woff2.*] of line 71 does not match the file [inter.woff2]
    that the first call wrote. *)
Theorem hinted_asset_is_fetched_twice :
  @FileManager.download_asset Example.online
    (Example.file_manager Example.online) Example.empty_world
    Example.font_url "inter.woff2"
  = ("assets/inter.woff2",
     FileManager.mkWorld [("inter.woff2", "wOF2")] [] [Example.font_url])
  ∧ @FileManager.download_asset Example.online
      (Example.file_manager Example.online)
      (FileManager.mkWorld [("inter.woff2", "wOF2")] [] [Example.font_url])
      Example.font_url "inter.woff2"
    = ("assets/inter.woff2",
       FileManager.mkWorld [("inter.woff2", "wOF2")] []
         [Example.font_url; Example.font_url]).
Proof. split; vm_compute; reflexivity. Qed.

(** an asset without a file name hint is fetched once: the second call
    finds the file that the first one wrote *)
Lemma unhinted_asset_is_fetched_once :
  @FileManager.download_asset Example.online
    (Example.file_manager Example.online) Example.empty_world
    Example.image_url ""
  = ("assets/ca5cf91c185450f3e8c43eaa834718a229e2d579.png",
     FileManager.mkWorld
       [("ca5cf91c185450f3e8c43eaa834718a229e2d579.png", "wOF2")] []
       [Example.image_url])
  ∧ @FileManager.download_asset Example.online
      (Example.file_manager Example.online)
      (FileManager.mkWorld
         [("ca5cf91c185450f3e8c43eaa834718a229e2d579.png", "wOF2")] []
         [Example.image_url])
      Example.image_url ""
    = ("assets/ca5cf91c185450f3e8c43eaa834718a229e2d579.png",
       FileManager.mkWorld
         [("ca5cf91c185450f3e8c43eaa834718a229e2d579.png", "wOF2")] []
         [Example.image_url]).
Proof. split; vm_compute; reflexivity. Qed.

(** ** Stylesheets and fonts *)

Section stylesheets.
Context `{E : Env}.
Import Scraper.








(** rules other than font-face rules are left as they are *)
Lemma localize_fonts_other_rules (fm : FileManager.t) (href : string)
    (rules : list css_rule) (w : FileManager.world) :
  Forall (λ rule, ∃ text, rule = OtherRule text) rules →
  localize_fonts fm href rules w = Ok (rules, w).
Proof.
  induction 1 as [|rule rules [text ->] _ IH]; [done|].
  cbn [localize_fonts localize_font mbind result_bind]. by rewrite IH.
Qed.


(** an exception of [localize_stylesheet] leaves [_download_stylesheets] *)
Lemma stylesheet_error_propagates (fm : FileManager.t) (attrs : gmap string string)
    (class : option (list string)) (contents : list node)
    (w : FileManager.world) (e : exn) :
  localize_stylesheet fm "link" attrs class w = Raise e →
  _download_stylesheets fm (Tag "link" attrs class contents) w = Raise e.
Proof.
  intros H. unfold _download_stylesheets. cbn [for_each_tag].
  by rewrite H.
Qed.

End stylesheets.



(** a font-face source without [url(...)] ends the run *)
Lemma unparsable_font_src_ends_run :
  @Scraper.run Example.font_unparsable Example.scraper
    (Example.stylesheet_site Example.font_unparsable)
    Example.writable Example.first 1
  = Some (Scraper.Crashed (Scraper.mkState ∅ ∅ [])
            (ValueError "Could not parse stylesheet source of font face rule")).
Proof. vm_compute. reflexivity. Qed.

(** a stylesheet that cannot be fetched ends the run as well: the URL
    that [download_asset] gives back is not a file that line 321 can
    open *)
Lemma stylesheet_fetch_failure_is_fatal :
  @Scraper._download_stylesheets Example.offline
    (Example.file_manager Example.offline) Example.page_with_stylesheet
    Example.empty_world
  = Raise (FileNotFoundError "snapshots/page/https:/www.notion.so/app.css").
Proof. vm_compute. reflexivity. Qed.

(** ** The disclosure expander *)

Section expander_facts.
Context `{D : Driver} `{L : Logger}.
Import Scraper.

Lemma expand_blocks_nil (x : expansion) : expand_blocks [] x = (x, None).
Proof. reflexivity. Qed.


(** when no wait runs into its deadline, a pass records all the blocks
    it was given, and no exception leaves it *)
Lemma expand_blocks_records :
  (∀ d b, (wait_until_expanded d b).2 = true) →
  ∀ l x, (expand_blocks l x).2 = None
         ∧ e_expanded (expand_blocks l x).1 = e_expanded x ++ l.
Proof.
  intros Hwait. induction l as [|b l IH]; intros x; cbn [expand_blocks].
  - by rewrite app_nil_r.
  - destruct (is_expanded (e_dom x) b).
    + destruct (IH (mkExpansion (e_dom x) (e_expanded x ++ [b]) (e_clicks x)))
        as [Hnone Hrec].
      split; [done|]. rewrite Hrec. cbn [e_expanded]. by rewrite <- app_assoc.
    + pose proof (Hwait (click (e_dom x) b) b) as Hb.
      destruct (wait_until_expanded (click (e_dom x) b) b) as [d in_time].
      simpl in Hb. subst in_time.
      destruct (IH (mkExpansion d (e_expanded x ++ [b]) (e_clicks x ++ [b])))
        as [Hnone Hrec].
      split; [done|]. rewrite Hrec. cbn [e_expanded]. by rewrite <- app_assoc.
Qed.

(** a pass clicks only blocks it was given, only adds to the
    accumulator, and adds a block only when it has found it expanded or
    its wait has returned in time *)
Lemma expand_blocks_clicks (l : list nat) :
  ∀ x, ∃ clicked recorded,
    e_clicks (expand_blocks l x).1 = e_clicks x ++ clicked
    ∧ e_expanded (expand_blocks l x).1 = e_expanded x ++ recorded
    ∧ (∀ b, b ∈ clicked → b ∈ l)
    ∧ (∀ b, b ∈ recorded →
         ∃ d, is_expanded d b = true ∨ (wait_until_expanded d b).2 = true)
    ∧ ∀ e, (expand_blocks l x).2 = Some e → warning_to_file = Some e.
Proof.
  induction l as [|b l IH]; intros x; cbn [expand_blocks].
  - exists [], []. rewrite !app_nil_r. split_and!; [done..| | |done].
    + intros b Hb. by apply elem_of_nil in Hb.
    + intros b Hb. by apply elem_of_nil in Hb.
  - destruct (is_expanded (e_dom x) b) eqn:Hexp.
    + destruct (IH (mkExpansion (e_dom x) (e_expanded x ++ [b]) (e_clicks x)))
        as (clicked & recorded & Hc & Hr & Hin & Hwhy & Hexn).
      exists clicked, (b :: recorded). cbn [e_clicks e_expanded] in *.
      rewrite Hc, Hr, <- app_assoc. split_and!; [done..| | |done].
      * intros b' Hb'. apply elem_of_cons. right. by apply Hin.
      * intros b' Hb'. apply elem_of_cons in Hb' as [->|Hb']; [|by apply Hwhy].
        exists (e_dom x). by left.
    + destruct (wait_until_expanded (click (e_dom x) b) b) as [d [|]] eqn:Hwait.
      * destruct (IH (mkExpansion d (e_expanded x ++ [b]) (e_clicks x ++ [b])))
          as (clicked & recorded & Hc & Hr & Hin & Hwhy & Hexn).
        exists (b :: clicked), (b :: recorded). cbn [e_clicks e_expanded] in *.
        rewrite Hc, Hr, <- !app_assoc. split_and!; [done..| | |done].
        -- intros b' Hb'. apply elem_of_cons in Hb' as [->|Hb']; [by left|].
           apply elem_of_cons. right. by apply Hin.
        -- intros b' Hb'. apply elem_of_cons in Hb' as [->|Hb']; [|by apply Hwhy].
           exists (click (e_dom x) b). right. by rewrite Hwait.
      * destruct warning_to_file as [e|] eqn:Hlog.
        -- exists [b], []. cbn [fst snd e_clicks e_expanded].
           rewrite app_nil_r. split_and!; [done..| | |].
           ++ intros b' Hb'. apply list_elem_of_singleton in Hb' as ->. by left.
           ++ intros b' Hb'. by apply elem_of_nil in Hb'.
           ++ by intros e' [= <-].
        -- destruct (IH (mkExpansion d (e_expanded x) (e_clicks x ++ [b])))
             as (clicked & recorded & Hc & Hr & Hin & Hwhy & Hexn).
           exists (b :: clicked), recorded. cbn [e_clicks e_expanded] in *.
           rewrite Hc, Hr, <- !app_assoc. split_and!; [done..| |done|done].
           intros b' Hb'. apply elem_of_cons in Hb' as [->|Hb']; [by left|].
           apply elem_of_cons. right. by apply Hin.
Qed.

Lemma unexpanded_spec (x : expansion) (b : nat) :
  b ∈ unexpanded x ↔ b ∈ get_toggle_blocks (e_dom x) ∧ b ∉ e_expanded x.
Proof.
  unfold unexpanded.
  rewrite list_elem_of_In, filter_In, <- list_elem_of_In, negb_true_iff.
  by rewrite bool_decide_eq_false.
Qed.

(** across the passes of a call: what is clicked was not in the
    accumulator at the start, and what is added was found expanded or
    expanded in time *)
Lemma expander_clicks (depth : nat) (x : expansion) :
  ∃ clicked recorded,
    e_clicks (reached (_expand_toggle_blocks depth x)) = e_clicks x ++ clicked
    ∧ e_expanded (reached (_expand_toggle_blocks depth x))
      = e_expanded x ++ recorded
    ∧ (∀ b, b ∈ clicked → b ∉ e_expanded x)
    ∧ (∀ b, b ∈ recorded →
         ∃ d, is_expanded d b = true ∨ (wait_until_expanded d b).2 = true).
Proof.
  revert x. induction depth as [|depth IH]; intros x; cbn [_expand_toggle_blocks].
  - exists [], []. cbn [reached]. rewrite !app_nil_r. split_and!; [done..| |].
    + intros b Hb. by apply elem_of_nil in Hb.
    + intros b Hb. by apply elem_of_nil in Hb.
  - destruct (expand_blocks_clicks (unexpanded x) x)
      as (clicked & recorded & Hc & Hr & Hin & Hwhy & _).
    assert (∀ b, b ∈ clicked → b ∉ e_expanded x) as Hfresh.
    { intros b Hb. apply Hin, unexpanded_spec in Hb. tauto. }
    destruct (expand_blocks (unexpanded x) x) as [x1 [e|]]; cbn [fst snd] in *.
    { exists clicked, recorded. cbn [reached]. by split_and!. }
    destruct (unexpanded x1) as [|b' l'].
    + exists clicked, recorded. cbn [reached]. by split_and!.
    + destruct (IH x1) as (clicked' & recorded' & Hc' & Hr' & Hin' & Hwhy').
      exists (clicked ++ clicked'), (recorded ++ recorded').
      rewrite Hc', Hr', Hc, Hr, <- !app_assoc. split_and!; [done..| |].
      * intros b Hb. apply elem_of_app in Hb as [Hb|Hb]; [by apply Hfresh|].
        intros Hx. apply (Hin' b Hb). rewrite Hr. apply elem_of_app. by left.
      * intros b Hb. apply elem_of_app in Hb as [Hb|Hb]; [by apply Hwhy|].
        by apply Hwhy'.
Qed.


(** with no wait running into its deadline, the blocks left to record
    get fewer with every pass *)
Lemma expander_returns (blocks : gset nat) :
  (∀ d b, (wait_until_expanded d b).2 = true) →
  (∀ d b, b ∈ get_toggle_blocks d → b ∈ blocks) →
  ∀ depth x,
    (size (blocks ∖ list_to_set (e_expanded x)) < depth)%nat →
    ∃ x', _expand_toggle_blocks depth x = Returned x' ∧ unexpanded x' = [].
Proof.
  intros Hwait Hblocks.
  induction depth as [|depth IH]; intros x Hsize; [lia|].
  cbn [_expand_toggle_blocks].
  destruct (expand_blocks_records Hwait (unexpanded x) x) as [Hnone Hrec].
  destruct (expand_blocks (unexpanded x) x) as [x1 o] eqn:Hpass.
  cbn [fst snd] in *. subst o.
  destruct (unexpanded x1) as [|b' l'] eqn:Hnext.
  { by eexists. }
  destruct (unexpanded x) as [|b l] eqn:Hnow.
  { rewrite expand_blocks_nil in Hpass. injection Hpass as <-.
    rewrite Hnow in Hnext. done. }
  rewrite <- Hnow in *. apply IH.
  assert (b ∈ unexpanded x) as Hb by (rewrite Hnow; by left).
  apply unexpanded_spec in Hb as [Hb Hfresh].
  assert (blocks ∖ list_to_set (e_expanded x1)
          ⊂ blocks ∖ list_to_set (e_expanded x)) as Hlt.
  { rewrite Hrec. split.
    - intros y Hy. apply elem_of_difference in Hy as [Hy Hn].
      apply elem_of_difference. split; [done|]. intros Hin. apply Hn.
      apply elem_of_list_to_set, elem_of_app. left.
      by apply elem_of_list_to_set in Hin.
    - intros Hsup. assert (b ∈ blocks ∖ list_to_set (e_expanded x)) as Hin.
      { apply elem_of_difference. split; [by eapply Hblocks|].
        intros Hin. by apply elem_of_list_to_set in Hin. }
      apply Hsup, elem_of_difference in Hin as [_ Hn]. apply Hn.
      apply elem_of_list_to_set, elem_of_app. right. rewrite Hnow. by left. }
  apply subset_size in Hlt. lia.
Qed.


End expander_facts.




(** ** The link rewriter *)

(** induction on documents, with the hypothesis for every element of
    the contents of a tag *)
Lemma node_induction (P : node → Prop) :
  (∀ x, P (Text x)) →
  (∀ name attrs class contents,
     Forall P contents → P (Tag name attrs class contents)) →
  ∀ n, P n.
Proof.
  intros HText HTag. fix IH 1. intros [x | name attrs class contents].
  - apply HText.
  - apply HTag. induction contents as [|c contents IHc].
    + constructor.
    + constructor; [apply IH | apply IHc].
Qed.

Section link_rewriter.
Context `{E : Env}.
Import Scraper.

Lemma link_node_tag (s : t) (is_scroller : bool) (forced : nat) (name : string)
    (attrs : gmap string string) (class : option (list string))
    (contents : list node) :
  link_node s is_scroller forced (Tag name attrs class contents)
  = let attrs := Nat.iter forced force_cursor attrs in
    let r :=
      match (if String.eqb name "a" then attrs !! "href" else None) with
      | Some href => rewrite_anchor s is_scroller name attrs class href
      | None => mkRewritten name attrs class false []
      end in
    let below :=
      link_contents s
        (is_scroller || (String.eqb name "div" && has_class "notion-scroller" class))
        (if r_deactivated r then S forced else forced) contents in
    (Tag (r_name r) (r_attrs r) (r_class r) below.1, r_urls r ++ below.2).
Proof. reflexivity. Qed.

Lemma link_contents_cons (s : t) (is_scroller : bool) (forced : nat)
    (c : node) (l : list node) :
  link_contents s is_scroller forced (c :: l)
  = ((link_node s is_scroller forced c).1 :: (link_contents s is_scroller forced l).1,
     (link_node s is_scroller forced c).2 ++ (link_contents s is_scroller forced l).2).
Proof.
  unfold link_contents at 1. fold (link_contents s is_scroller forced l).
  destruct (link_node s is_scroller forced c) as [c' us].
  by destruct (link_contents s is_scroller forced l) as [l' us'].
Qed.

Lemma every_tag_tag (P : gmap string string → Prop) (name : string)
    (attrs : gmap string string) (class : option (list string))
    (contents : list node) :
  every_tag P (Tag name attrs class contents)
  ↔ P attrs ∧ Forall (every_tag P) contents.
Proof.
  cbn [every_tag]. apply and_iff_compat_l.
  induction contents as [|c l IH].
  - split; [constructor | done].
  - rewrite Forall_cons. by rewrite IH.
Qed.

Lemma cursor_forced_force (attrs : gmap string string) :
  cursor_forced (force_cursor attrs).
Proof.
  unfold cursor_forced, force_cursor. intros style.
  destruct (attrs !! "style") as [old|] eqn:Hs.
  - rewrite lookup_insert_eq. intros [= <-]. by exists old.
  - by rewrite Hs.
Qed.

Lemma cursor_forced_href (attrs : gmap string string) (href : string) :
  cursor_forced attrs → cursor_forced (<["href" := href]> attrs).
Proof.
  unfold cursor_forced. intros H style.
  rewrite lookup_insert_ne by done. apply H.
Qed.

Lemma rewrite_anchor_forced (s : t) (is_scroller : bool) (name : string)
    (attrs : gmap string string) (class : option (list string)) (href : string) :
  cursor_forced attrs →
  cursor_forced (r_attrs (rewrite_anchor s is_scroller name attrs class href)).
Proof.
  intros H. unfold rewrite_anchor.
  destruct (Py.startswith _ _); simpl; [|done].
  destruct (Py.contains _ _); simpl; [by apply cursor_forced_href|].
  destruct is_scroller; simpl; [by apply cursor_forced_href|].
  apply cursor_forced_force.
Qed.

(** below a deactivated anchor, every inline style has its cursor forced *)
Lemma link_node_forced (s : t) (n : node) :
  ∀ is_scroller forced,
    every_tag cursor_forced (link_node s is_scroller (S forced) n).1.
Proof.
  induction n as [x | name attrs class contents IH] using node_induction;
    intros is_scroller forced; [done|].
  rewrite link_node_tag. cbv zeta. cbn [fst].
  apply every_tag_tag. split.
  - assert (cursor_forced (Nat.iter (S forced) force_cursor attrs)) as Hf
      by apply cursor_forced_force.
    destruct (if String.eqb name "a"
              then Nat.iter (S forced) force_cursor attrs !! "href" else None);
      [by apply rewrite_anchor_forced | done].
  - match goal with
    | |- Forall _ (link_contents s ?b (if ?d then _ else _) _).1 =>
        generalize b; generalize d
    end.
    intros d b.
    assert (∃ f, (if d then S (S forced) else S forced) = S f) as [f ->]
      by (destruct d; eauto).
    induction IH as [|c l Hc Hl IHl]; [constructor|].
    rewrite link_contents_cons. constructor; [apply Hc | apply IHl].
Qed.

(** C6, as the code has it: an anchor whose URL starts with the domain
    of the workspace and contains [#] becomes a link inside the page,
    whether or not it sits in a scroller: its [href] is [#] followed by
    what comes after the last [#] of the URL, which has no [#] in it,
    it gets the class [notionsnapshot-anchor-link], keeps its name, and
    adds no URL to [subpage_urls]. *)
Theorem internal_fragment_link_becomes_anchor (s : t) (is_scroller : bool)
    (name : string) (attrs : gmap string string)
    (class : option (list string)) (href : string) :
  Py.startswith (resolve (domain s) href) (domain s) = true →
  Py.contains "#" (resolve (domain s) href) = true →
  let fragment := Py.last (Py.split (resolve (domain s) href) "#") in
  rewrite_anchor s is_scroller name attrs class href
  = mkRewritten name (<["href" := "#" +:+ fragment]> attrs)
      (Some (default [] class ++ ["notionsnapshot-anchor-link"])) false []
  ∧ Py.contains "#" fragment = false
  ∧ ∃ before, resolve (domain s) href = before +:+ "#" +:+ fragment.
Proof.
  intros Hint Hfrag fragment. split.
  - unfold rewrite_anchor. by rewrite Hint, Hfrag.
  - by apply split_last.
Qed.

Lemma force_cursor_href (attrs : gmap string string) (forced : nat) :
  Nat.iter forced force_cursor attrs !! "href" = attrs !! "href".
Proof.
  induction forced as [|forced IH]; [done|].
  change (Nat.iter (S forced) force_cursor attrs)
    with (force_cursor (Nat.iter forced force_cursor attrs)).
  unfold force_cursor at 1.
  destruct (Nat.iter forced force_cursor attrs !! "style"); [|exact IH].
  rewrite lookup_insert_ne by done. exact IH.
Qed.

(** C2, as the code has it: of an anchor with an [href], wherever it
    is in the document, exactly one of four things is made. If its URL
    does not start with the domain of the workspace it is left as it
    is. Otherwise, if the URL contains [#] it becomes a link inside the
    page; else, inside a scroller, its [href] becomes the file name of
    the subpage and the URL is collected; else it is deactivated: the
    [href] is removed, the tag becomes a [span], and its own inline
    style and every inline style below it has the cursor forced. *)
Theorem link_classification (s : t) (is_scroller : bool) (forced : nat)
    (attrs : gmap string string) (class : option (list string))
    (contents : list node) (href : string) :
  attrs !! "href" = Some href →
  ∃ k, link_outcome s is_scroller forced attrs class contents href k
       ∧ ∀ k', link_outcome s is_scroller forced attrs class contents href k' →
               k' = k.
Proof.
  intros Hhref. unfold link_outcome. rewrite link_node_tag. cbv zeta.
  change (String.eqb "a" "a") with true. change (String.eqb "a" "div") with false.
  cbv iota. rewrite force_cursor_href, Hhref. cbn [andb]. rewrite orb_false_r.
  unfold rewrite_anchor.
  destruct (Py.startswith (resolve (domain s) href) (domain s)) eqn:Hint;
    cbn [negb]; cbv iota.
  - destruct (Py.contains "#" (resolve (domain s) href)) eqn:Hfrag; cbv iota.
    + exists InPage. split; [done|].
      intros [] H; [by destruct H | done | | ];
        destruct H as (_ & ? & _); done.
    + destruct is_scroller.
      * exists Subpage. split; [done|].
        intros [] H; [by destruct H | | done | ];
          [destruct H as (_ & ? & _) | destruct H as (_ & _ & ? & _)]; done.
      * exists Deactivated. split.
        -- split_and!; [done..|]. cbn [r_name r_attrs r_class r_urls r_deactivated].
           eexists _, _, _. split_and!; [reflexivity | reflexivity | | | ].
           ++ unfold force_cursor at 1.
              destruct (delete "href" _ !! "style").
              ** rewrite lookup_insert_ne by done. apply lookup_delete_eq.
              ** apply lookup_delete_eq.
           ++ apply cursor_forced_force.
           ++ generalize false. intros b. induction contents as [|c l IH].
              ** constructor.
              ** rewrite link_contents_cons. constructor; [|apply IH].
                 apply link_node_forced.
        -- intros [] H; [by destruct H | | | done];
             [destruct H as (_ & ? & _) | destruct H as (_ & _ & ? & _)]; done.
  - exists Kept. split; [done|].
    intros [] H; [done | | | ]; destruct H as (? & _); done.
Qed.

End link_rewriter.

Lemma link_classification_witness :
  ∃ k, @Scraper.link_outcome Example.offline Example.scraper false 0
         Example.internal_attrs None Example.internal_contents
         "/Other-Page-0a1b2c" k
       ∧ ∀ k', @Scraper.link_outcome Example.offline Example.scraper false 0
                 Example.internal_attrs None Example.internal_contents
                 "/Other-Page-0a1b2c" k' → k' = k.
Proof.
  apply (@link_classification Example.offline Example.scraper false 0
           Example.internal_attrs None Example.internal_contents
           "/Other-Page-0a1b2c").
  vm_compute. reflexivity.
Defined.

(** the deactivated anchor of the example, with the cursor forced on
    it and on the element in it *)
Lemma internal_anchor_is_deactivated :
  @Scraper._link_to_subpages Example.offline Example.scraper
    (Tag "a" Example.internal_attrs None Example.internal_contents)
  = (Tag "span" {["style" := "cursor: default"]} None
       [Tag "b" {["style" := "cursor: default"]} None [Text "other"]],
     []).
Proof. vm_compute. reflexivity. Qed.

(** C2, where the specification differs from the code: an anchor to
    another site is not deactivated. Its URL does not start with the domain of the
    workspace, and [_link_to_subpages] leaves the document as it was:
    the anchor keeps its name and its [href], and no cursor is forced. *)
Lemma external_anchor_is_left_active :
  Py.startswith
    (Scraper.resolve (Scraper.domain Example.scraper) "https://example.com/")
    (Scraper.domain Example.scraper) = false
  ∧ @Scraper._link_to_subpages Example.offline Example.scraper
      Example.external_anchor
    = (Example.external_anchor, []).
Proof. split; vm_compute; reflexivity. Qed.

Lemma internal_fragment_link_witness :
  @Scraper.rewrite_anchor Example.offline Example.scraper true "a"
    {["href" := "/Page-abc123#intro"]} None "/Page-abc123#intro"
  = Scraper.mkRewritten "a" {["href" := "#intro"]}
      (Some ["notionsnapshot-anchor-link"]) false [].
Proof.
  exact (proj1
    (@internal_fragment_link_becomes_anchor Example.offline Example.scraper true
       "a" {["href" := "/Page-abc123#intro"]} None "/Page-abc123#intro"
       eq_refl eq_refl)).
Defined.

(** C6, where the specification differs from the code: the fragment
    rule does not come before the test for other sites. The URL contains [#] and is on
    another site, and the anchor is left as it is, in a scroller and
    outside of one: its [href] is still the whole URL and it has no new class. *)
Lemma external_fragment_link_is_kept :
  Py.contains "#" Example.external_fragment = true
  ∧ @Scraper.rewrite_anchor Example.offline Example.scraper true "a"
      {["href" := Example.external_fragment]} None Example.external_fragment
    = Scraper.mkRewritten "a" {["href" := Example.external_fragment]} None
        false []
  ∧ @Scraper.rewrite_anchor Example.offline Example.scraper false "a"
      {["href" := Example.external_fragment]} None Example.external_fragment
    = Scraper.mkRewritten "a" {["href" := Example.external_fragment]} None
        false [].
Proof. split_and!; vm_compute; reflexivity. Qed.

(** ** The traversal *)

Section traversal.
Context `{E : Env}.
Import Scraper.

Lemma frontier_ok_start (s : t) : frontier_ok s (Running (start s)).
Proof.
  unfold frontier_ok. simpl. split_and!.
  - set_solver.
  - constructor.
  - set_solver.
  - intros u p H. by apply elem_of_nil in H.
  - done.
Qed.

Lemma frontier_ok_step (s : t) (c c' : config) :
  frontier_ok s c → step s c c' → frontier_ok s c'.
Proof.
  intros (Hdisj & Hnodup & Hsaved & Hpath & _) Hstep.
  destruct Hstep as [st Hempty | st u soup Hu | st u e Hu];
    unfold frontier_ok; simpl in *.
  - done.
  - assert (u ∉ visited st) as Hnew by (intros Hv; by apply (Hdisj u)).
    assert (u ∉ (saved st).*1) as Hfresh
      by (intros Hin; by apply Hnew, (proj2 (Hsaved u))).
    split_and!; [| | | |done].
    + intros x Hx Hv. apply elem_of_union in Hx as [Hx | Hx].
      * apply elem_of_difference in Hx as [Hx Hne].
        apply elem_of_union in Hv as [Hv | Hv]; [by apply (Hdisj x)|done].
      * apply elem_of_list_to_set, list_elem_of_filter in Hx as [Hx _]. done.
    + rewrite fmap_app. apply NoDup_app.
      split_and!; [done | | apply NoDup_singleton].
      intros x Hx Hx'. apply list_elem_of_singleton in Hx' as ->. done.
    + intros x. rewrite fmap_app, elem_of_app, elem_of_union, elem_of_singleton.
      simpl. rewrite list_elem_of_singleton. by rewrite (Hsaved x).
    + intros x p Hx. apply elem_of_app in Hx as [Hx | Hx]; [by apply Hpath|].
      apply list_elem_of_singleton in Hx. by inversion Hx.
  - split_and!; [|done..].
    intros x Hx Hv. apply elem_of_difference in Hx as [Hx _].
    by apply (Hdisj x).
Qed.

Lemma frontier_ok_reachable (s : t) (c : config) :
  rtc (step s) (Running (start s)) c → frontier_ok s c.
Proof.
  revert c. apply rtc_ind_r.
  - apply frontier_ok_start.
  - intros c c' _ Hstep Hc. by eapply frontier_ok_step.
Qed.

(** C1: along every run from the root URL, whatever [pop] returns and
    whatever the pages contain, no URL is saved twice, no URL is at
    once pending and visited (at the head of the loop, and inside a
    turn between lines 178 and 179), a URL is visited exactly when its
    page was saved, and the loop is left exactly from a state whose
    pending set is empty. *)
Theorem run_visits_each_url_once (s : t) (c : config) :
  rtc (step s) (Running (start s)) c →
  let st := state_of c in
  will_visit st ## visited st
  ∧ NoDup (saved st).*1
  ∧ (∀ u, u ∈ visited st ↔ u ∈ (saved st).*1)
  ∧ (∀ u, u ∈ will_visit st → (will_visit st ∖ {[u]}) ## (visited st ∪ {[u]}))
  ∧ (∀ st', step s c (Exited st') ↔ c = Running st' ∧ will_visit st' = ∅)
  ∧ (∀ st', c = Exited st' → will_visit st' = ∅).
Proof.
  intros H st. subst st.
  destruct (frontier_ok_reachable s c H) as (H1 & H2 & H3 & _ & H5).
  split_and!; [done..| | |].
  - intros u Hu x Hx Hv. apply elem_of_difference in Hx as [Hx Hne].
    apply elem_of_union in Hv as [Hv | Hv]; [by apply (H1 x)|done].
  - intros st'. split.
    + intros Hs. by inversion Hs; subst.
    + intros [-> Hw]. by constructor.
  - intros st' ->. done.
Qed.

(** [pop] gives an element of the pending set, and nothing only when
    the set is empty *)
Lemma pop_spec (pick : state → nat) (st : state) :
  match pop pick st with
  | Some u => u ∈ will_visit st
  | None => will_visit st = ∅
  end.
Proof.
  unfold pop. destruct (elements (will_visit st)) as [|u l] eqn:Hel.
  - rewrite lookup_nil. apply leibniz_equiv. by apply elements_empty_iff.
  - assert (pick st `mod` length (u :: l) < length (u :: l))%nat as Hlt
      by (apply Nat.mod_upper_bound; simpl; lia).
    apply lookup_lt_is_Some_2 in Hlt as [v Hv]. rewrite Hv.
    apply elem_of_elements. rewrite Hel. by eapply list_elem_of_lookup_2.
Qed.

(** the executable [run] makes the steps of the relation *)
Lemma run_from_steps (s : t) (site : string → result node)
    (save : string → option exn) (pick : state → nat) (fuel : nat)
    (st : state) (c : config) :
  run_from s site save pick fuel st = Some c → rtc (step s) (Running st) c.
Proof.
  revert st. induction fuel as [|fuel IH]; intros st H; [done|].
  cbn [run_from] in H. pose proof (pop_spec pick st) as Hu.
  destruct (pop pick st) as [u|].
  - destruct (site u) as [soup | e].
    + destruct (_link_to_table_view_subpages (_link_to_subpages s soup).1)
        as [soup' | e].
      * destruct (save u) as [e|].
        -- inversion H; subst. apply rtc_once. by constructor.
        -- eapply rtc_l; [by apply (step_visit s st u soup)|]. by apply IH.
      * inversion H; subst. apply rtc_once. by constructor.
    + inversion H; subst. apply rtc_once. by constructor.
  - inversion H; subst. apply rtc_once. by constructor.
Qed.

(** whatever [pop] chooses, the first URL it gives is the root *)
Lemma pop_start (s : t) (pick : state → nat) : pop pick (start s) = Some (url s).
Proof.
  unfold pop, start. cbn [will_visit]. rewrite elements_singleton.
  cbn [length]. by rewrite Nat.mod_1_r.
Qed.

Lemma visit_root_without_links (s : t) (soup : node) :
  FileManager.url (file_manager s) = url s →
  (_link_to_subpages s soup).2 = [] →
  visit s (start s) (url s) soup = mkState ∅ {[url s]} [(url s, index_path s)].
Proof.
  intros Hroot Hlinks. unfold visit, start, popped, index_path. simpl.
  rewrite Hlinks. unfold FileManager.get_path_from_url.
  pose proof (root_filename (file_manager s)) as Hf.
  rewrite Hroot in Hf. rewrite Hf.
  f_equal.
  - rewrite difference_diag_L. apply (left_id_L ∅ (∪)).
  - apply (left_id_L ∅ (∪)).
Qed.

(** C9: the root URL is saved as [index.html] whatever name its path
    derives to: [get_filename_from_url] answers [index.html] for it,
    the last component of its path is [index.html], every run saves it
    under that path, and when its page has no subpage link and goes
    through lines 167-177 the run ends after this one document with
    nothing added to the pending set. When an exception leaves lines
    167-177 on the root page, it leaves [run], and nothing is saved. *)
Theorem root_is_saved_as_index (s : t) :
  FileManager.url (file_manager s) = url s →
  FileManager.get_filename_from_url (file_manager s) (url s) = "index.html"
  ∧ Pathlib.name (FileManager.get_path_from_url (file_manager s) (url s))
    = "index.html"
  ∧ (∀ c p, rtc (step s) (Running (start s)) c →
       (url s, p) ∈ saved (state_of c) → p = index_path s)
  ∧ (∀ site save pick soup fuel,
       site (url s) = Ok soup →
       (_link_to_subpages s soup).2 = [] →
       is_ok (_link_to_table_view_subpages (_link_to_subpages s soup).1) = true →
       save (url s) = None →
       run s site save pick (S (S fuel))
       = Some (Exited (mkState ∅ {[url s]} [(url s, index_path s)])))
  ∧ (∀ site save pick e fuel,
       match site (url s) with
       | Ok soup =>
           match _link_to_table_view_subpages (_link_to_subpages s soup).1 with
           | Ok _ => save (url s) = Some e
           | Raise e' => e' = e
           end
       | Raise e' => e' = e
       end →
       run s site save pick (S fuel) = Some (Crashed (mkState ∅ ∅ []) e)).
Proof.
  intros Hroot.
  pose proof (root_filename (file_manager s)) as Hf. rewrite Hroot in Hf.
  split_and!.
  - done.
  - unfold FileManager.get_path_from_url. rewrite Hf.
    by apply name_of_file_in_dir.
  - intros c p Hc Hin.
    destruct (frontier_ok_reachable s c Hc) as (_ & _ & _ & Hpath & _).
    rewrite (Hpath _ _ Hin). unfold index_path, FileManager.get_path_from_url.
    by rewrite Hf.
  - intros site save pick soup fuel Hsite Hlinks Htable Hsave. unfold run.
    cbn [run_from]. rewrite pop_start, Hsite, Hsave.
    destruct (_link_to_table_view_subpages (_link_to_subpages s soup).1);
      [|done].
    rewrite (visit_root_without_links s soup Hroot Hlinks).
    cbn [run_from]. unfold pop. cbn [will_visit]. by rewrite elements_empty.
  - intros site save pick e fuel He. unfold run.
    cbn [run_from]. rewrite pop_start.
    assert (popped (start s) (url s) = mkState ∅ ∅ []) as ->.
    { unfold popped, start. cbn [will_visit visited saved].
      by rewrite difference_diag_L. }
    destruct (site (url s)) as [soup | e']; [|by subst].
    destruct (_link_to_table_view_subpages (_link_to_subpages s soup).1)
      as [soup' | e']; [|by subst].
    by rewrite He.
Qed.

Lemma run_from_terminates (s : t) (site : string → result node)
    (save : string → option exn) (pick : state → nat)
    (pages : gset string) (fuel : nat) (st : state) :
  (∀ u soup, site u = Ok soup →
     ∀ p, p ∈ (_link_to_subpages s soup).2 → p ∈ pages) →
  will_visit st ⊆ pages →
  will_visit st ## visited st →
  (size (pages ∖ visited st) < fuel)%nat →
  ∃ c, run_from s site save pick fuel st = Some c.
Proof.
  intros Hsite. revert st.
  induction fuel as [|fuel IH]; intros st Hsub Hdisj Hsize; [lia|].
  cbn [run_from]. pose proof (pop_spec pick st) as Hu.
  destruct (pop pick st) as [u|]; [|by eexists].
  destruct (site u) as [soup | e] eqn:Hsoup; [|by eexists].
  destruct (_link_to_table_view_subpages (_link_to_subpages s soup).1)
    as [soup' | e]; [|by eexists].
  destruct (save u) as [e|]; [by eexists|].
  - apply IH; unfold visit, popped; simpl.
    + intros x Hx. apply elem_of_union in Hx as [Hx | Hx].
      * apply Hsub. by apply elem_of_difference in Hx as [Hx _].
      * apply elem_of_list_to_set, list_elem_of_filter in Hx as [_ Hx].
        by eapply Hsite.
    + intros x Hx Hv. apply elem_of_union in Hx as [Hx | Hx].
      * apply elem_of_difference in Hx as [Hx Hne].
        apply elem_of_union in Hv as [Hv | Hv]; [by apply (Hdisj x)|done].
      * apply elem_of_list_to_set, list_elem_of_filter in Hx as [Hx _]. done.
    + assert (pages ∖ (visited st ∪ {[u]}) ⊂ pages ∖ visited st) as Hlt.
      { split.
        - intros x Hx. apply elem_of_difference in Hx as [Hx Hn].
          apply elem_of_difference. split; [done|].
          intros Hv. apply Hn, elem_of_union. by left.
        - intros Hsup. assert (u ∈ pages ∖ (visited st ∪ {[u]})) as Hin.
          { apply Hsup, elem_of_difference. split; [by apply Hsub|].
            intros Hv. by apply (Hdisj u). }
          apply elem_of_difference in Hin as [_ Hn].
          apply Hn, elem_of_union. right. by apply elem_of_singleton. }
      apply subset_size in Hlt. lia.
Qed.

(** X25: when all the subpage links of the site stay within a
    finite set of pages, [run] returns or is left by an exception after
    at most one turn of the loop per page, one more than the number of
    pages being enough, whichever element [pop] takes. *)
Lemma run_terminates (s : t) (site : string → result node)
    (save : string → option exn) (pick : state → nat) (pages : gset string) :
  url s ∈ pages →
  (∀ u soup, site u = Ok soup →
     ∀ p, p ∈ (_link_to_subpages s soup).2 → p ∈ pages) →
  ∃ c, run s site save pick (S (size pages)) = Some c.
Proof.
  intros Hroot Hsite.
  apply (run_from_terminates s site save pick pages); [done| | |].
  - intros x Hx. simpl in Hx. apply elem_of_singleton in Hx as ->. done.
  - intros x _ Hx. simpl in Hx. by apply not_elem_of_empty in Hx.
  - simpl. rewrite difference_empty_L. lia.
Qed.

End traversal.

Lemma run_visits_each_url_once_witness :
  let c := default (Scraper.Running (Scraper.start Example.scraper))
             (@Scraper.run Example.offline Example.scraper Example.two_pages
    Example.writable Example.first 3) in
  NoDup (Scraper.saved (Scraper.state_of c)).*1
  ∧ length (Scraper.saved (Scraper.state_of c)) = 2%nat.
Proof.
  intros c. split; [|reflexivity].
  refine (proj1 (proj2
    (@run_visits_each_url_once Example.offline Example.scraper c _))).
  apply (@run_from_steps Example.offline Example.scraper Example.two_pages
    Example.writable Example.first 3).
  vm_compute. reflexivity.
Defined.

Lemma root_is_saved_as_index_witness :
  @Scraper.run Example.offline Example.scraper Example.one_page
    Example.writable Example.first 2
  = Some (Scraper.Exited
            (Scraper.mkState ∅ {[Example.root]}
               [(Example.root, "snapshots/page/index.html")])).
Proof.
  exact (proj1 (proj2 (proj2 (proj2
    (@root_is_saved_as_index Example.offline Example.scraper eq_refl))))
    Example.one_page Example.writable Example.first Example.plain_page 0%nat
    eq_refl eq_refl eq_refl eq_refl).
Defined.

(** a table row without [data-block-id] ends the run at line 175,
    before the page is saved *)
Lemma unreadable_table_ends_run :
  @Scraper.run Example.offline Example.scraper
    (λ _, Ok (Tag "body" ∅ None
                [Tag "div" ∅ (Some ["notion-table-view"])
                   [Tag "div" ∅
                      (Some ["notion-selectable"; "notion-collection-item"])
                      [Tag "span" ∅ None [Text "Row"]]]]))
    Example.writable Example.first 1
  = Some (Scraper.Crashed (Scraper.mkState ∅ ∅ []) (KeyError "data-block-id")).
Proof. vm_compute. reflexivity. Qed.

(** a page that cannot be written ends the run at line 177 *)
Lemma unwritable_page_ends_run :
  @Scraper.run Example.offline Example.scraper Example.one_page
    (λ _, Some (OtherError "PermissionError")) Example.first 1
  = Some (Scraper.Crashed (Scraper.mkState ∅ ∅ [])
            (OtherError "PermissionError")).
Proof. vm_compute. reflexivity. Qed.

(** the pages of the example are saved in the other order when [pop]
    takes the last element of the listing of two *)
Lemma pop_order_does_not_change_pages :
  Scraper.state_of
    <$> @Scraper.run Example.offline Example.scraper Example.two_pages
          Example.writable Example.last 3
  = Scraper.state_of
    <$> @Scraper.run Example.offline Example.scraper Example.two_pages
          Example.writable Example.first 3.
Proof. vm_compute. reflexivity. Qed.

(** ** The last occurrence of a character *)

Lemma rfind_nat_none_find (sub s : string) :
  Py.rfind_nat sub s = None → Py.find_nat sub s = None.
Proof.
  induction s as [|x s IH]; simpl.
  - done.
  - destruct (Py.rfind_nat sub s); [done|].
    destruct sub as [|c sub]; [done|].
    destruct (Ascii.eqb c x && Py.startswith s sub)%bool eqn:Hs.
    + destruct (Ascii.eqb c x); [|done]. simpl in Hs. by rewrite Hs.
    + destruct (Ascii.eqb c x); simpl in Hs.
      * rewrite Hs. intros _. by rewrite IH.
      * intros _. by rewrite IH.
Qed.

Lemma rfind_nat_drop (c : ascii) (s : string) (j : nat) :
  Py.rfind_nat (Py.chr c) s = Some j →
  Py.drop j s = String c (Py.drop (S j) s)
  ∧ Py.find_nat (Py.chr c) (Py.drop (S j) s) = None.
Proof.
  revert j. induction s as [|x s IH]; intros j H; [done|].
  simpl in H. destruct (Py.rfind_nat (Py.chr c) s) as [j'|] eqn:Hr.
  - inversion H; subst. simpl. by apply IH.
  - destruct (Ascii.eqb c x) eqn:Hc; [|done].
    apply Ascii.eqb_eq in Hc as ->. rewrite startswith_empty in H.
    inversion H; subst. simpl.
    split; [done|]. by apply rfind_nat_none_find.
Qed.

Lemma take_drop (n : nat) (s : string) : Py.take n s +:+ Py.drop n s = s.
Proof.
  revert s. induction n as [|n IH]; intros [|x s]; try done.
  simpl. rewrite append_cons. by rewrite IH.
Qed.

Lemma rfind_nat_some (c : ascii) (s : string) (j : nat) :
  Py.rfind_nat (Py.chr c) s = Some j →
  s = Py.take j s +:+ Py.chr c +:+ Py.drop (S j) s
  ∧ Py.find_nat (Py.chr c) (Py.drop (S j) s) = None.
Proof.
  intros H. destruct (rfind_nat_drop c s j H) as [Hd Hn]. split; [|done].
  rewrite <- (take_drop j s) at 1. by rewrite Hd.
Qed.

Lemma rfind_nat_app (c : ascii) (a b : string) :
  Py.find_nat (Py.chr c) b = None →
  Py.rfind_nat (Py.chr c) (a +:+ Py.chr c +:+ b) = Some (String.length a).
Proof.
  intros Hb. induction a as [|x a IH].
  - change ("" +:+ Py.chr c +:+ b) with (String c b). simpl.
    rewrite (rfind_nat_none _ _ Hb), Ascii.eqb_refl.
    by rewrite startswith_empty.
  - rewrite append_cons. simpl. by rewrite IH.
Qed.

Lemma take_length_le (n : nat) (s : string) :
  (n ≤ String.length s)%nat → String.length (Py.take n s) = n.
Proof.
  revert s. induction n as [|n IH]; intros [|x s] H; simpl in *; try done; try lia.
  rewrite IH; lia.
Qed.

(** ** File names of pages with a hyphen *)

Section titles.
Context `{E : Env}.

Lemma page_name_hyphen (u name ident : string) :
  Py.drop 1 (path (urlparse u)) = name +:+ "-" +:+ ident →
  Py.contains "-" ident = false →
  FileManager.page_name u = Py.lower name.
Proof.
  intros Hid Hident. unfold FileManager.page_name.
  rewrite slice_from_one, Hid. unfold Py.rfind.
  pose proof (rfind_nat_app "-"%char name ident (contains_false _ _ Hident)) as Hr.
  change (Py.chr "-"%char) with "-" in Hr. rewrite Hr.
  unfold Py.slice_to, Py.bound.
  destruct (Z.of_nat (String.length name) <? 0) eqn:Hneg;
    [apply Z.ltb_lt in Hneg; lia|].
  rewrite Nat2Z.id, append_length, Nat.min_l by lia.
  by rewrite take_app_length.
Qed.

(** X1: the file name of a page other than the root whose path has a
    hyphen after its first character is the text before the last of
    these hyphens, in lower case, with [.html]: the identifier after
    the last hyphen, and that hyphen, are left out. *)
Theorem filename_is_title_before_last_hyphen (fm : FileManager.t) (u : string) :
  u ≠ FileManager.url fm →
  Py.contains "-" (Py.drop 1 (path (urlparse u))) = true →
  ∃ title ident,
    Py.drop 1 (path (urlparse u)) = title +:+ "-" +:+ ident
    ∧ Py.contains "-" ident = false
    ∧ FileManager.get_filename_from_url fm u = Py.lower title +:+ ".html".
Proof.
  intros Hu Hc. set (id := Py.drop 1 (path (urlparse u))) in *.
  destruct (Py.rfind_nat "-" id) as [j|] eqn:Hr.
  - destruct (rfind_nat_some "-"%char id j Hr) as [Hid Hn].
    change (Py.chr "-"%char) with "-" in Hid, Hn.
    exists (Py.take j id), (Py.drop (S j) id). split_and!.
    + exact Hid.
    + unfold Py.contains. by rewrite Hn.
    + unfold FileManager.get_filename_from_url.
      destruct (String.eqb u (FileManager.url fm)) eqn:Heq.
      { by apply String.eqb_eq in Heq. }
      rewrite (page_name_hyphen u (Py.take j id) (Py.drop (S j) id)); [done|exact Hid|].
      unfold Py.contains. by rewrite Hn.
  - apply rfind_nat_none_find in Hr. unfold Py.contains in Hc. by rewrite Hr in Hc.
Qed.

(** X2: two pages other than the root whose paths differ only in the
    identifier after the last hyphen, or in the case of the letters of
    the title before it, are given the same path: the later
    [save_page] writes over the earlier one. *)
Theorem pages_of_one_title_share_a_file (fm : FileManager.t)
    (u1 u2 title1 title2 ident1 ident2 : string) :
  u1 ≠ FileManager.url fm →
  u2 ≠ FileManager.url fm →
  Py.drop 1 (path (urlparse u1)) = title1 +:+ "-" +:+ ident1 →
  Py.drop 1 (path (urlparse u2)) = title2 +:+ "-" +:+ ident2 →
  Py.contains "-" ident1 = false →
  Py.contains "-" ident2 = false →
  Py.lower title1 = Py.lower title2 →
  FileManager.get_path_from_url fm u1 = FileManager.get_path_from_url fm u2.
Proof.
  intros Hu1 Hu2 H1 H2 Hi1 Hi2 Hl.
  unfold FileManager.get_path_from_url, FileManager.get_filename_from_url.
  apply String.eqb_neq in Hu1, Hu2. rewrite Hu1, Hu2.
  rewrite (page_name_hyphen u1 title1 ident1 H1 Hi1).
  rewrite (page_name_hyphen u2 title2 ident2 H2 Hi2).
  by rewrite Hl.
Qed.

End titles.

Lemma filename_is_title_before_last_hyphen_witness :
  ∃ title ident,
    Py.drop 1 (path (@urlparse Example.offline "https://x.notion.site/My-Sub-Page-def456"))
    = title +:+ "-" +:+ ident
    ∧ Py.contains "-" ident = false
    ∧ @FileManager.get_filename_from_url Example.offline
        (Scraper.file_manager Example.scraper)
        "https://x.notion.site/My-Sub-Page-def456"
      = Py.lower title +:+ ".html".
Proof.
  apply (@filename_is_title_before_last_hyphen Example.offline
           (Scraper.file_manager Example.scraper)
           "https://x.notion.site/My-Sub-Page-def456").
  - intros H. vm_compute in H. discriminate.
  - vm_compute. reflexivity.
Defined.

Lemma pages_of_one_title_share_a_file_witness :
  @FileManager.get_path_from_url Example.offline
    (Scraper.file_manager Example.scraper) "https://x.notion.site/Notes-0a1b2c"
  = @FileManager.get_path_from_url Example.offline
      (Scraper.file_manager Example.scraper) "https://x.notion.site/notes-ffffff".
Proof.
  apply (@pages_of_one_title_share_a_file Example.offline
           (Scraper.file_manager Example.scraper)
           "https://x.notion.site/Notes-0a1b2c" "https://x.notion.site/notes-ffffff"
           "Notes" "notes" "0a1b2c" "ffffff").
  - intros H. vm_compute in H. discriminate.
  - intros H. vm_compute in H. discriminate.
  - vm_compute. reflexivity.
  - vm_compute. reflexivity.
  - vm_compute. reflexivity.
  - vm_compute. reflexivity.
  - vm_compute. reflexivity.
Defined.

(** ** The files of a directory *)

Section directories.
Import FileManager.

Lemma read_write_same (n c : string) (d : dir) :
  read_file n (write_file n c d) = Some c.
Proof.
  induction d as [|[m x] d IH]; simpl.
  - by rewrite String.eqb_refl.
  - destruct (String.eqb m n) eqn:Hm; simpl.
    + by rewrite String.eqb_refl.
    + by rewrite Hm.
Qed.

Lemma read_write_other (n m c : string) (d : dir) :
  m ≠ n → read_file m (write_file n c d) = read_file m d.
Proof.
  intros Hne. assert (String.eqb n m = false) as Hnm.
  { apply String.eqb_neq. congruence. }
  induction d as [|[k x] d IH]; simpl.
  - by rewrite Hnm.
  - destruct (String.eqb k n) eqn:Hk; simpl.
    + apply String.eqb_eq in Hk as ->. by rewrite Hnm.
    + destruct (String.eqb k m); [done|apply IH].
Qed.

Lemma write_file_names (x n c : string) (d : dir) :
  x ∈ (write_file n c d).*1 ↔ x = n ∨ x ∈ d.*1.
Proof.
  induction d as [|[k y] d IH]; simpl.
  - rewrite list_elem_of_singleton. split; [by left|].
    intros [H|H]; [done|]. by apply elem_of_nil in H.
  - destruct (String.eqb k n) eqn:Hk; simpl.
    + apply String.eqb_eq in Hk as ->. rewrite !elem_of_cons. tauto.
    + rewrite !elem_of_cons, IH. tauto.
Qed.

Lemma read_file_names (n : string) (d : dir) :
  is_Some (read_file n d) ↔ n ∈ d.*1.
Proof.
  induction d as [|[k y] d IH]; simpl.
  - split; [by intros [? ?]|]. intros H. by apply elem_of_nil in H.
  - rewrite elem_of_cons. destruct (String.eqb k n) eqn:Hk.
    + apply String.eqb_eq in Hk as ->. split; [by left|by eexists].
    + apply String.eqb_neq in Hk. rewrite IH. split; [by right|].
      intros [H|H]; [congruence|done].
Qed.

Lemma read_file_absent (n : string) (d : dir) :
  n ∉ d.*1 → read_file n d = None.
Proof.
  intros H. destruct (read_file n d) eqn:Hr; [|done].
  exfalso. apply H, read_file_names. by eexists.
Qed.

Lemma write_file_fresh (n c : string) (d : dir) :
  n ∉ d.*1 → write_file n c d = d ++ [(n, c)].
Proof.
  induction d as [|[k y] d IH]; simpl; intros H; [done|].
  apply not_elem_of_cons in H as [Hne H].
  destruct (String.eqb k n) eqn:Hk.
  - apply String.eqb_eq in Hk. congruence.
  - by rewrite IH.
Qed.

(** [shutil.copytree(src, dst, dirs_exist_ok=True)] on the files of
    two directories: a file of [src] wins over the file of [dst] of
    the same name *)
Lemma read_copytree (n : string) (src dst : dir) :
  NoDup src.*1 →
  read_file n (List.fold_left (λ d f, write_file f.1 f.2 d) src dst)
  = match read_file n src with
    | Some c => Some c
    | None => read_file n dst
    end.
Proof.
  revert dst. induction src as [|[k y] src IH]; intros dst Hnd; [done|].
  simpl in *. apply NoDup_cons in Hnd as [Hk Hnd]. rewrite (IH _ Hnd).
  destruct (String.eqb k n) eqn:Hkn.
  - apply String.eqb_eq in Hkn as ->.
    rewrite (read_file_absent _ _ Hk). apply read_write_same.
  - apply String.eqb_neq in Hkn.
    destruct (read_file n src); [done|]. apply read_write_other. congruence.
Qed.

End directories.

(** ** [_setup] and the cache *)

Section setup.
Import FileManager.

(** X3: [_setup] leaves an empty assets directory and makes no
    request. With caching on, every asset of the previous snapshot is
    then in the cache with the content it had, also when the cache had
    a file of that name, and the other files of the cache are as they
    were; with caching off the cache is not touched. *)
Theorem setup_moves_assets_to_cache (fm : t) (w : world) :
  NoDup (assets w).*1 →
  let w' := _setup fm w in
  assets w' = []
  ∧ requests w' = requests w
  ∧ ∀ n, read_file n (cache w')
         = if cache_assets fm then
             match read_file n (assets w) with
             | Some content => Some content
             | None => read_file n (cache w)
             end
           else read_file n (cache w).
Proof.
  intros Hnd w'. subst w'. unfold _setup. simpl. split_and!; [done..|].
  intros n. destruct (cache_assets fm); [|done]. by apply read_copytree.
Qed.

End setup.

Lemma setup_moves_assets_to_cache_witness :
  FileManager.read_file "a.png"
    (FileManager.cache
       (FileManager._setup (Example.file_manager Example.offline)
          (FileManager.mkWorld [("a.png", "new")]
             [("a.png", "old"); ("b.png", "kept")] [])))
  = Some "new".
Proof.
  pose proof (setup_moves_assets_to_cache
                (Example.file_manager Example.offline)
                (FileManager.mkWorld [("a.png", "new")]
                   [("a.png", "old"); ("b.png", "kept")] [])) as H.
  simpl in H. refine (proj2 (proj2 (H _)) "a.png").
  apply NoDup_singleton.
Defined.

(** ** Assets that are already there *)

Lemma map_fst_fmap {A B : Type} (l : list (A * B)) : List.map fst l = l.*1.
Proof. induction l as [|x l IH]; simpl; [done|]. by rewrite IH. Qed.

Lemma take_all (s : string) : Py.take (String.length s) s = s.
Proof. induction s as [|x s IH]; simpl; [done|]. by rewrite IH. Qed.

Lemma strip_parts_app (pre l : list string) :
  Pathlib.strip_parts pre (pre ++ l) = Some l.
Proof.
  induction pre as [|a pre IH]; simpl; [by destruct l|].
  by rewrite String.eqb_refl.
Qed.

Lemma of_str_simple (n : string) :
  FileManager.simple_name n = true → Pathlib.of_str n = Pathlib.mkPath "" [n].
Proof.
  unfold FileManager.simple_name. intros H. apply andb_true_iff in H as [Hs Hp].
  apply negb_true_iff, contains_false in Hs.
  destruct n as [|x n]; [done|].
  destruct (find_nat_none_cons _ _ _ Hs) as [Hx _].
  cbn [Py.startswith] in Hx. rewrite startswith_empty in Hx.
  assert (Ascii.eqb "/"%char x = false) as Hx' by (by destruct (Ascii.eqb "/"%char x)).
  unfold Pathlib.of_str, Pathlib.root_of, Py.split. cbn [Py.startswith].
  rewrite Hx'. cbn [String.length Py.split_fuel]. rewrite Hs. simpl List.filter.
  by rewrite Hp.
Qed.

Lemma suffix_of_name_dot (n s : string) :
  Pathlib.suffix_of_name n = s → s ≠ "" → ∃ ext, s = String "."%char ext.
Proof.
  unfold Pathlib.suffix_of_name.
  destruct (Py.rfind_nat "." n) as [i|] eqn:Hr; [|congruence].
  destruct ((0 <? i) && (i <? String.length n - 1))%nat; [|congruence].
  intros <- _. destruct (rfind_nat_drop "."%char n i Hr) as [Hd _]. by eexists.
Qed.

Lemma before_question_mark_dot (ext : string) :
  FileManager.before_question_mark (String "."%char ext) ≠ "".
Proof.
  unfold FileManager.before_question_mark. simpl.
  by destruct (Py.find_nat "%3f" (Py.lower ext)).
Qed.

Lemma with_suffix_parts (r : string) (P : list string) (n suf : string)
    (d : Pathlib.Path) :
  Pathlib.suffix_of_name n = "" →
  suf ≠ "" →
  Pathlib.with_suffix (Pathlib.mkPath r (P ++ [n])) suf = Some d →
  ∃ ext, d = Pathlib.mkPath r (P ++ [n +:+ String "."%char ext]).
Proof.
  intros Hn Hsuf. unfold Pathlib.with_suffix, Pathlib.name. simpl.
  rewrite List.last_last, List.removelast_last, Hn.
  destruct (negb (Py.truthy n) || negb (Pathlib.valid_suffix suf)) eqn:Hc; [done|].
  apply orb_false_iff in Hc as [_ Hv]. apply negb_false_iff in Hv.
  destruct suf as [|c suf]; [done|].
  cbn [Pathlib.valid_suffix Py.startswith] in Hv.
  destruct (Ascii.eqb "."%char c) eqn:Hdot; [|done].
  apply Ascii.eqb_eq in Hdot as <-.
  simpl String.length. rewrite Nat.sub_0_r, take_all.
  intros H. inversion H. by eexists.
Qed.

Section asset_reuse.
Context `{E : Env}.
Import FileManager.

Lemma with_extension_parts (r : string) (P : list string) (n u : string)
    (content_type : option string) (d : Pathlib.Path) :
  Pathlib.suffix_of_name n = "" →
  (∀ ct, guess_extension ct ≠ Some "") →
  with_extension (Pathlib.mkPath r (P ++ [n])) u content_type = Some d →
  ∃ ext, d = Pathlib.mkPath r (P ++ [n +:+ String "."%char ext]).
Proof.
  intros Hn Hguess. unfold with_extension.
  unfold Pathlib.suffix at 1, Pathlib.name. simpl Pathlib.parts.
  rewrite List.last_last, Hn. simpl negb. cbv iota.
  set (s := Pathlib.suffix (Pathlib.of_str (path (urlparse u)))).
  destruct (Py.truthy s) eqn:Hs.
  - destruct (suffix_of_name_dot _ s eq_refl) as [ext Hext].
    { by destruct s. }
    apply with_suffix_parts; [done|].
    destruct (Py.contains "%3f" (Py.lower s)); [|by rewrite Hext].
    rewrite Hext. apply before_question_mark_dot.
  - destruct content_type as [ct|]; simpl; [|done].
    destruct (guess_extension ct) as [m|] eqn:Hm; simpl; [|done].
    apply with_suffix_parts; [done|]. intros ->. by apply (Hguess ct).
Qed.

(** a fetch that succeeds for a name without extension writes the file
    of that name with an extension, and returns its path *)
Lemma try_fetch_writes (fm : t) (w : world) (u n p : string) (w' : world) :
  simple_name n = true →
  Pathlib.suffix_of_name n = "" →
  (∀ ct, guess_extension ct ≠ Some "") →
  try_fetch fm w u n = Some (p, w') →
  ∃ ext content,
    let m := n +:+ String "."%char ext in
    p = Py.replace ("assets/" +:+ m) "\" "/"
    ∧ w' = mkWorld (write_file m content (assets w)) (cache w) (requests w ++ [u]).
Proof.
  intros Hsimple Hn Hguess. unfold try_fetch, Pathlib.joinpath.
  rewrite (of_str_simple "assets") by reflexivity. rewrite (of_str_simple n) by done.
  generalize (Pathlib.of_str (output_dir fm)). intros [r P].
  cbn [Pathlib.root Pathlib.parts].
  destruct (session_get (requests w) u) as [|status ct content]; [done|].
  destruct (raises_for_status status); [done|].
  destruct (with_extension _ u ct) as [d|] eqn:Hext; [|done].
  apply with_extension_parts in Hext as [ext ->]; [|done..].
  unfold Pathlib.relative_to. cbn [Pathlib.root Pathlib.parts mbind option_bind].
  rewrite String.eqb_refl, <- app_assoc, strip_parts_app.
  cbn [fmap option_fmap option_map Pathlib.parts app].
  cbn [mbind option_bind Pathlib.parts].
  change (String.eqb "assets" "assets") with true. cbn [andb].
  destruct (negb (String.eqb (n +:+ String "."%char ext) "..")); [|done].
  intros H. inversion H. by exists ext, content.
Qed.

Lemma glob_after_write (d : dir) (n m content : string) :
  glob_stem d n = [] →
  Py.startswith m (n +:+ ".") = true →
  glob_stem (write_file m content d) n = [m].
Proof.
  intros Hglob Hm. unfold glob_stem in *.
  assert (m ∉ d.*1) as Hfresh.
  { intros Hin. assert (In m []) as []. rewrite <- Hglob.
    apply filter_In. split; [|done]. rewrite map_fst_fmap.
    by apply list_elem_of_In. }
  rewrite (write_file_fresh _ _ _ Hfresh), List.map_app, List.filter_app, Hglob.
  simpl. by rewrite Hm.
Qed.

(** X4: an asset that was fetched under a name without extension is
    found in the output directory by the next call for it: the call
    gives the same path, makes no request and changes no file. The
    names are those that [download_asset] makes itself by hashing, and
    the hinted names without a dot; the name and the directories have
    no character that [glob] reads as a pattern. *)
Theorem fetched_asset_is_found_again (fm : t) (w : world) (u filename p : string)
    (w' : world) :
  let name := if Py.truthy filename then filename else generated_name u in
  simple_name name = true →
  literal fm name = true →
  Pathlib.suffix_of_name name = "" →
  (∀ ct, guess_extension ct ≠ Some "") →
  glob_stem (assets w) name = [] →
  (if cache_assets fm then _load_from_cache fm w name else (None, w)) = (None, w) →
  try_fetch fm w u name = Some (p, w') →
  download_asset fm w u filename = (p, w')
  ∧ download_asset fm w' u filename = (p, w').
Proof.
  intros name Hsimple _ Hn Hguess Hglob Hcache Hfetch. split.
  - unfold download_asset. fold name. by rewrite Hglob, Hcache, Hfetch.
  - destruct (try_fetch_writes fm w u name p w' Hsimple Hn Hguess Hfetch)
      as (ext & content & -> & ->).
    unfold download_asset. fold name. simpl assets.
    rewrite (glob_after_write (assets w) name _ content Hglob); [done|].
    replace (name +:+ String "."%char ext) with ((name +:+ ".") +:+ ext)
      by (by rewrite append_assoc).
    apply startswith_app.
Qed.

(** X5: with caching on, an asset that is not in the output directory
    but in the cache is copied from there: the call makes no request,
    leaves the cache as it is, and the copy in the assets directory has
    the content of the cached file. The name is one component of a
    path, and the name and the directories have no character that
    [glob] reads as a pattern. *)
Theorem cached_asset_is_copied_not_fetched (fm : t) (w : world)
    (u filename c : string) :
  let name := if Py.truthy filename then filename else generated_name u in
  simple_name name = true →
  literal fm name = true →
  cache_assets fm = true →
  glob_stem (assets w) name = [] →
  head (if Py.truthy (Pathlib.suffix (Pathlib.of_str name))
        then glob_name (cache w) name else glob_stem (cache w) name) = Some c →
  let r := download_asset fm w u filename in
  r.1 = Pathlib.os_join "assets" (Pathlib.os_basename c)
  ∧ requests r.2 = requests w
  ∧ cache r.2 = cache w
  ∧ is_Some (read_file c (cache w))
  ∧ read_file c (assets r.2) = read_file c (cache w).
Proof.
  intros name _ _ Hon Hglob Hc r. subst r. unfold download_asset. fold name.
  rewrite Hglob, Hon. unfold _load_from_cache.
  set (cached := if Py.truthy (Pathlib.suffix (Pathlib.of_str name))
                 then glob_name (cache w) name else glob_stem (cache w) name) in *.
  assert (c ∈ (cache w).*1) as Hin.
  { destruct cached as [|c' l] eqn:Heq; [done|]. inversion Hc; subst c'.
    assert (In c cached) as Hc' by (rewrite Heq; by left).
    subst cached. rewrite <- map_fst_fmap. apply list_elem_of_In.
    unfold glob_name, glob_stem in Hc'.
    destruct (Py.truthy (Pathlib.suffix (Pathlib.of_str name)));
      apply filter_In in Hc'; tauto. }
  apply read_file_names in Hin as [content Hcontent].
  destruct cached as [|c' l]; [done|]. inversion Hc; subst c'. simpl.
  rewrite Hcontent. simpl. split_and!; [done..|by eexists|apply read_write_same].
Qed.

End asset_reuse.

Lemma fetched_asset_is_found_again_witness :
  @FileManager.download_asset Example.online
    (Example.file_manager Example.online)
    (FileManager.mkWorld
       [("ca5cf91c185450f3e8c43eaa834718a229e2d579.png", "wOF2")] []
       [Example.image_url])
    Example.image_url ""
  = ("assets/ca5cf91c185450f3e8c43eaa834718a229e2d579.png",
     FileManager.mkWorld
       [("ca5cf91c185450f3e8c43eaa834718a229e2d579.png", "wOF2")] []
       [Example.image_url]).
Proof.
  refine (proj2 (@fetched_asset_is_found_again Example.online
                   (Example.file_manager Example.online) Example.empty_world
                   Example.image_url "" _ _ _ _ _ _ _ _ _)).
  - vm_compute. reflexivity.
  - vm_compute. reflexivity.
  - vm_compute. reflexivity.
  - intros ct. unfold guess_extension. simpl. unfold Sample.guess_extension.
    repeat (destruct (String.eqb ct _); [discriminate|]). discriminate.
  - vm_compute. reflexivity.
  - vm_compute. reflexivity.
  - vm_compute. reflexivity.
Defined.

Lemma cached_asset_is_copied_not_fetched_witness :
  let r := @FileManager.download_asset Example.offline
             (Example.file_manager Example.offline)
             (FileManager.mkWorld [] [("inter.woff2", "wOF2")] [])
             Example.font_url "inter.woff2" in
  r.1 = "assets/inter.woff2"
  ∧ FileManager.requests r.2 = []
  ∧ FileManager.cache r.2 = [("inter.woff2", "wOF2")]
  ∧ is_Some (FileManager.read_file "inter.woff2" [("inter.woff2", "wOF2")])
  ∧ FileManager.read_file "inter.woff2" (FileManager.assets r.2) = Some "wOF2".
Proof.
  apply (@cached_asset_is_copied_not_fetched Example.offline
           (Example.file_manager Example.offline)
           (FileManager.mkWorld [] [("inter.woff2", "wOF2")] [])
           Example.font_url "inter.woff2" "inter.woff2").
  - vm_compute. reflexivity.
  - vm_compute. reflexivity.
  - vm_compute. reflexivity.
  - vm_compute. reflexivity.
  - vm_compute. reflexivity.
Defined.

(** ** The names assets are stored under *)

Lemma hex_has_no_other_char (c : ascii) (n : string) :
  FileManager.is_hex n = true →
  FileManager.is_hex_digit c = false →
  Py.find_nat (Py.chr c) n = None.
Proof.
  intros Hn Hc. induction n as [|x n IH]; [done|].
  assert (FileManager.is_hex_digit x = true
          ∧ (n = "" ∨ FileManager.is_hex n = true)) as [Hx Hrest].
  { cbn [FileManager.is_hex] in Hn. destruct n as [|y n]; [by auto|].
    apply andb_true_iff in Hn as [Hx Hn]. by auto. }
  assert (Ascii.eqb c x = false) as Hcx.
  { apply Ascii.eqb_neq. intros ->. congruence. }
  cbn [Py.find_nat Py.startswith Py.chr]. rewrite Hcx.
  destruct Hrest as [->|Hrest]; [done|]. by rewrite (IH Hrest).
Qed.

Lemma hex_is_simple (n : string) :
  FileManager.is_hex n = true →
  FileManager.simple_name n = true
  ∧ Pathlib.suffix_of_name n = ""
  ∧ FileManager.has_magic n = false
  ∧ Py.find_nat "." n = None.
Proof.
  intros Hn.
  assert (∀ c, FileManager.is_hex_digit c = false →
               Py.contains (Py.chr c) n = false) as Hno.
  { intros c Hc. unfold Py.contains.
    by rewrite (hex_has_no_other_char c n Hn Hc). }
  pose proof (hex_has_no_other_char "."%char n Hn eq_refl) as Hdot.
  split_and!.
  - unfold FileManager.simple_name.
    rewrite (Hno "/"%char eq_refl : Py.contains "/" n = false).
    destruct n as [|x [|y n]]; [done| |].
    + destruct (Ascii.eqb_spec x "."%char) as [->|Hne]; [done|].
      unfold Pathlib.is_part. cbn [String.eqb]. apply Ascii.eqb_neq in Hne.
      by rewrite Hne.
    + unfold Pathlib.is_part. cbn [String.eqb negb andb orb].
      by destruct (Ascii.eqb x "."%char).
  - unfold Pathlib.suffix_of_name.
    by rewrite (rfind_nat_none "." n Hdot).
  - unfold FileManager.has_magic.
    rewrite (Hno "*"%char eq_refl : Py.contains "*" n = false).
    rewrite (Hno "?"%char eq_refl : Py.contains "?" n = false).
    by rewrite (Hno "["%char eq_refl : Py.contains "[" n = false).
  - done.
Qed.

(** a name that starts with another name and a dot, neither name
    having a dot, is that name *)
Lemma startswith_stem_inj (a b ext : string) :
  Py.find_nat "." a = None →
  Py.find_nat "." b = None →
  Py.startswith (a +:+ String "."%char ext) (b +:+ ".") = true →
  a = b.
Proof.
  revert b. induction a as [|x a IH]; intros [|y b] Ha Hb H.
  - done.
  - exfalso. apply find_nat_none_cons in Hb as [Hy _].
    change ("" +:+ String "."%char ext) with (String "."%char ext) in H.
    rewrite append_cons in H. cbn [Py.startswith] in H, Hy.
    destruct (Ascii.eqb y "."%char) eqn:Hdot; [|done].
    apply Ascii.eqb_eq in Hdot as ->. by rewrite startswith_empty in Hy.
  - exfalso. apply find_nat_none_cons in Ha as [Hx _].
    change ("" +:+ ".") with (String "."%char "") in H.
    rewrite append_cons in H. cbn [Py.startswith] in H, Hx.
    destruct (Ascii.eqb "."%char x) eqn:Hdot; [|done].
    by rewrite startswith_empty in Hx.
  - apply find_nat_none_cons in Ha as [_ Ha].
    apply find_nat_none_cons in Hb as [_ Hb].
    rewrite !append_cons in H. cbn [Py.startswith] in H.
    destruct (Ascii.eqb y x) eqn:Hyx; [|done].
    apply Ascii.eqb_eq in Hyx as ->. f_equal. by apply IH.
Qed.

Section stored_names.
Context `{E : Env}.
Import FileManager.

(** a file written for another stem is not found for this one *)
Lemma glob_other_stem (d : dir) (a b ext content : string) :
  Py.find_nat "." a = None →
  Py.find_nat "." b = None →
  a ≠ b →
  glob_stem d b = [] →
  glob_stem (write_file (a +:+ String "."%char ext) content d) b = [].
Proof.
  intros Ha Hb Hne Hglob. unfold glob_stem in *.
  apply (List.incl_l_nil (A:=string)). intros m Hm.
  apply filter_In in Hm as [Hin Hstart].
  rewrite map_fst_fmap in Hin. apply list_elem_of_In, write_file_names in Hin.
  destruct Hin as [->|Hin].
  - exfalso. apply Hne. by eapply startswith_stem_inj.
  - rewrite <- Hglob. apply filter_In. split; [|done].
    rewrite map_fst_fmap. by apply list_elem_of_In.
Qed.

(** C8: without a file name hint the asset name is the SHA-1 of the
    network location and path of the URL, followed by [?width=] and the
    list of width values when the query has any; so two URLs with the
    same location and path get the same name when their width values
    agree, whatever else their queries hold, and when their widths
    differ (or only one has a width) the hashed texts differ, so the
    names are equal only by a collision of SHA-1. The asset is stored
    under that name: a fetch that succeeds writes the file of the
    generated name and an extension; a call for the second URL then
    gives that file without a request when the names agree, and when
    they differ it does not find that file, and a fetch for it writes
    another file beside it. *)
Theorem asset_name_hashes_url_and_width (fm : t) (w : world) (u1 u2 : string) :
  netloc (urlparse u1) = netloc (urlparse u2) →
  path (urlparse u1) = path (urlparse u2) →
  let width := λ u, parse_qs (query (urlparse u)) !! "width" in
  let differ :=
    hash_input u1 ≠ hash_input u2
    ∧ (generated_name u1 = generated_name u2 →
       ∃ x y, x ≠ y ∧ sha1_hexdigest x = sha1_hexdigest y) in
  let missing := λ w u,
    glob_stem (assets w) (generated_name u) = []
    ∧ (if cache_assets fm then _load_from_cache fm w (generated_name u)
       else (None, w)) = (None, w) in
  generated_name u1
  = sha1_hexdigest
      (netloc (urlparse u1) +:+ path (urlparse u1) +:+
       match width u1 with
       | Some values => "?width=" +:+ Py.str_list values
       | None => ""
       end)
  ∧ (width u1 = width u2 → generated_name u1 = generated_name u2)
  ∧ (∀ a b, width u1 = Some [a] → width u2 = Some [b] →
       Py.plain a = true → Py.plain b = true → a ≠ b → differ)
  ∧ (∀ values, width u1 = None → width u2 = Some values → differ)
  ∧ (is_hex (generated_name u1) = true →
     is_hex (generated_name u2) = true →
     literal fm (generated_name u1) = true →
     (∀ ct, guess_extension ct ≠ Some "") →
     missing w u1 →
     ∀ p w', try_fetch fm w u1 (generated_name u1) = Some (p, w') →
       ∃ ext content,
         let file := generated_name u1 +:+ String "."%char ext in
         download_asset fm w u1 "" = (p, w')
         ∧ p = Py.replace ("assets/" +:+ file) "\" "/"
         ∧ w' = mkWorld (write_file file content (assets w)) (cache w)
                  (requests w ++ [u1])
         ∧ (generated_name u1 = generated_name u2 →
            download_asset fm w' u2 "" = (p, w'))
         ∧ (generated_name u1 ≠ generated_name u2 →
            glob_stem (assets w) (generated_name u2) = [] →
            glob_stem (assets w') (generated_name u2) = []
            ∧ ∀ p2 w2,
                (if cache_assets fm
                 then _load_from_cache fm w' (generated_name u2)
                 else (None, w')) = (None, w') →
                try_fetch fm w' u2 (generated_name u2) = Some (p2, w2) →
                ∃ ext2 content2,
                  let file2 := generated_name u2 +:+ String "."%char ext2 in
                  download_asset fm w' u2 "" = (p2, w2)
                  ∧ p2 = Py.replace ("assets/" +:+ file2) "\" "/"
                  ∧ file2 ≠ file
                  ∧ assets w2
                    = assets w ++ [(file, content); (file2, content2)])).
Proof.
  intros Hnet Hpath width differ missing.
  destruct (generated_names_by_width u1 u2 Hnet Hpath) as (H1 & H2 & H3 & H4).
  split_and!; [exact H1|exact H2|exact H3|exact H4|].
  intros Hhex1 Hhex2 _ Hguess [Hglob Hcache] p w' Hfetch.
  destruct (hex_is_simple _ Hhex1) as (Hsimple1 & Hsuffix1 & _ & Hdot1).
  destruct (hex_is_simple _ Hhex2) as (Hsimple2 & Hsuffix2 & _ & Hdot2).
  destruct (try_fetch_writes fm w u1 _ p w' Hsimple1 Hsuffix1 Hguess Hfetch)
    as (ext & content & Hp & Hw).
  cbn zeta in Hp, Hw. exists ext, content. cbn zeta.
  set (file := generated_name u1 +:+ String "."%char ext) in *.
  assert (Py.startswith file (generated_name u1 +:+ ".") = true) as Hstart.
  { subst file.
    replace (generated_name u1 +:+ String "."%char ext)
      with ((generated_name u1 +:+ ".") +:+ ext) by (by rewrite append_assoc).
    apply startswith_app. }
  assert (file ∉ (assets w).*1) as Hfresh.
  { intros Hin. assert (In file []) as []. rewrite <- Hglob.
    apply filter_In. split; [|done]. rewrite map_fst_fmap.
    by apply list_elem_of_In. }
  split_and!; [|exact Hp|exact Hw| |].
  - unfold download_asset. cbn [Py.truthy]. by rewrite Hglob, Hcache, Hfetch.
  - intros Hsame. unfold download_asset. cbn [Py.truthy]. rewrite <- Hsame.
    rewrite Hw. cbn [assets].
    rewrite (glob_after_write (assets w) _ file content Hglob Hstart).
    by rewrite Hp.
  - intros Hne Hglob2.
    assert (glob_stem (assets w') (generated_name u2) = []) as Hglob2'.
    { rewrite Hw. cbn [assets]. by apply glob_other_stem. }
    split; [exact Hglob2'|].
    intros p2 w2 Hcache2 Hfetch2.
    destruct (try_fetch_writes fm w' u2 _ p2 w2 Hsimple2 Hsuffix2 Hguess Hfetch2)
      as (ext2 & content2 & Hp2 & Hw2).
    cbn zeta in Hp2, Hw2. exists ext2, content2. cbn zeta.
    set (file2 := generated_name u2 +:+ String "."%char ext2) in *.
    assert (file2 ≠ file) as Hfiles.
    { intros Heq. apply Hne. symmetry.
      apply (startswith_stem_inj _ _ ext2 Hdot2 Hdot1).
      fold file2. by rewrite Heq. }
    split_and!; [|exact Hp2|exact Hfiles|].
    + unfold download_asset. cbn [Py.truthy].
      by rewrite Hglob2', Hcache2, Hfetch2.
    + rewrite Hw2, Hw. cbn [assets].
      rewrite (write_file_fresh file content (assets w) Hfresh).
      rewrite write_file_fresh.
      * by rewrite <- app_assoc.
      * rewrite fmap_app. intros Hin. apply elem_of_app in Hin as [Hin|Hin].
        -- assert (In file2 []) as []. rewrite <- Hglob2.
           apply filter_In. split.
           ++ rewrite map_fst_fmap. by apply list_elem_of_In.
           ++ subst file2.
              replace (generated_name u2 +:+ String "."%char ext2)
                with ((generated_name u2 +:+ ".") +:+ ext2)
                by (by rewrite append_assoc).
              apply startswith_app.
        -- apply list_elem_of_singleton in Hin. done.
Qed.

End stored_names.

Lemma asset_name_hashes_url_and_width_witness :
  let u := "https://www.notion.so/image/x.png?width=200" in
  let p := "assets/c18f552e8a948311fedfe64c13cd2997b1ae6c84.png" in
  let w' :=
    FileManager.mkWorld
      [("c18f552e8a948311fedfe64c13cd2997b1ae6c84.png", "wOF2")] [] [u] in
  ∃ ext content,
    @FileManager.download_asset Example.online
      (Example.file_manager Example.online) Example.empty_world u "" = (p, w')
    ∧ p = Py.replace
            ("assets/" +:+ @FileManager.generated_name Example.online u
             +:+ String "."%char ext) "\" "/"
    ∧ w' = FileManager.mkWorld
             (FileManager.write_file
                (@FileManager.generated_name Example.online u
                 +:+ String "."%char ext)
                content (FileManager.assets Example.empty_world))
             (FileManager.cache Example.empty_world)
             (FileManager.requests Example.empty_world ++ [u]).
Proof.
  intros u p w'.
  pose proof (@asset_name_hashes_url_and_width Example.online
                (Example.file_manager Example.online) Example.empty_world
                u "https://www.notion.so/image/x.png?width=400"
                eq_refl eq_refl) as H.
  cbv zeta in H. destruct H as (_ & _ & _ & _ & H).
  destruct (H ltac:(vm_compute; reflexivity) ltac:(vm_compute; reflexivity)
              ltac:(vm_compute; reflexivity)) with (p := p) (w' := w')
    as (ext & content & Hd & Hp & Hw & _).
  - intros ct. unfold guess_extension. simpl. unfold Sample.guess_extension.
    repeat (destruct (String.eqb ct _); [discriminate|]). discriminate.
  - split; vm_compute; reflexivity.
  - vm_compute. reflexivity.
  - exists ext, content. by split_and!.
Defined.

(** ** Passes over a document *)

Lemma for_each_tag_tag {S : Type}
    (f : string → gmap string string → option (list string) → S →
         result (gmap string string * S))
    (name : string) (attrs : gmap string string) (class : option (list string))
    (contents : list node) (s : S) :
  for_each_tag f (Tag name attrs class contents) s
  = ('(attrs', s) ← f name attrs class s;
     '(contents', s) ← for_each_content f contents s;
     Ok (Tag name attrs' class contents', s)).
Proof. reflexivity. Qed.

Lemma for_each_content_cons {S : Type}
    (f : string → gmap string string → option (list string) → S →
         result (gmap string string * S))
    (c : node) (l : list node) (s : S) :
  for_each_content f (c :: l) s
  = ('(c', s) ← for_each_tag f c s;
     '(l', s) ← for_each_content f l s;
     Ok (c' :: l', s)).
Proof. reflexivity. Qed.

Section passes.
Context {S : Type}.
Variable f : string → gmap string string → option (list string) → S →
             result (gmap string string * S).

(** a pass changes attributes only, and what every step does to the
    state, the pass does *)
Lemma for_each_tag_preserves (R : S → S → Prop) :
  (∀ s, R s s) →
  (∀ a b c, R a b → R b c → R a c) →
  (∀ name attrs class s a s', f name attrs class s = Ok (a, s') → R s s') →
  ∀ n s n' s',
    for_each_tag f n s = Ok (n', s') →
    R s s' ∧ strip_attrs n' = strip_attrs n.
Proof.
  intros Hrefl Htrans Hf. induction n as [x|name attrs class contents IH]
    using node_induction; intros s n' s' H.
  - inversion H; subst. by split.
  - rewrite for_each_tag_tag in H.
    destruct (f name attrs class s) as [[a s1]|e] eqn:Hfs; [|done].
    cbn [mbind result_bind] in H. apply Hf in Hfs.
    assert (∀ s l' s', for_each_content f contents s = Ok (l', s') →
              R s s' ∧ List.map strip_attrs l' = List.map strip_attrs contents)
      as Hcontents.
    { clear H Hfs. induction IH as [|c l Hc _ IHl]; intros s0 l' s0' H.
      - inversion H; subst. by split.
      - rewrite for_each_content_cons in H.
        destruct (for_each_tag f c s0) as [[c' s2]|e] eqn:Hcs; [|done].
        cbn [mbind result_bind] in H.
        destruct (for_each_content f l s2) as [[l'' s3]|e] eqn:Hls; [|done].
        cbn [mbind result_bind] in H. inversion H; subst.
        destruct (Hc _ _ _ Hcs) as [HR1 Hs1].
        destruct (IHl _ _ _ Hls) as [HR2 Hs2].
        split; [by eapply Htrans|]. simpl. by rewrite Hs1, Hs2. }
    destruct (for_each_content f contents s1) as [[l' s2]|e] eqn:Hl; [|done].
    cbn [mbind result_bind] in H. inversion H; subst.
    destruct (Hcontents _ _ _ Hl) as [HR Hs].
    split; [by eapply Htrans|]. simpl. by rewrite Hs.
Qed.





End passes.

(** ** What the asset passes leave as it is *)

Section frame.
Context `{E : Env}.
Import FileManager.

Lemma extends_refl (w : world) : extends w w.
Proof. split_and!; [done| |done]. exists []. by rewrite app_nil_r. Qed.

Lemma extends_trans (a b c : world) : extends a b → extends b c → extends a c.
Proof.
  intros (Hc1 & [n1 Hr1] & Ha1) (Hc2 & [n2 Hr2] & Ha2). split_and!.
  - congruence.
  - exists (n1 ++ n2). by rewrite Hr2, Hr1, app_assoc.
  - intros n Hn. by apply Ha2, Ha1.
Qed.

Lemma extends_write (w : world) (n content : string) (new : list string) :
  extends w (mkWorld (write_file n content (assets w)) (cache w) (requests w ++ new)).
Proof.
  split_and!; simpl; [done|by eexists|].
  intros m Hm. apply write_file_names. by right.
Qed.

Lemma extends_request (w : world) (new : list string) :
  extends w (mkWorld (assets w) (cache w) (requests w ++ new)).
Proof. split_and!; simpl; [done|by eexists|done]. Qed.

Lemma try_fetch_extends (fm : t) (w : world) (u n p : string) (w' : world) :
  try_fetch fm w u n = Some (p, w') → extends w w'.
Proof.
  unfold try_fetch. intros H.
  destruct (session_get (requests w) u) as [|status ct content]; [done|].
  destruct (raises_for_status status); [done|].
  destruct (with_extension _ u ct) as [d|]; [|done].
  cbn [mbind option_bind] in H.
  destruct (Pathlib.relative_to d _) as [rel|]; [|done].
  cbn [mbind option_bind] in H.
  destruct (Pathlib.parts rel) as [|a [|m [|]]]; try done.
  destruct (String.eqb a "assets" && negb (String.eqb m "..")); [|done].
  inversion H; subst. apply extends_write.
Qed.

Lemma download_asset_extends (fm : t) (w : world) (u filename : string) :
  extends w (download_asset fm w u filename).2.
Proof.
  unfold download_asset.
  generalize (if Py.truthy filename then filename else generated_name u).
  intros name.
  destruct (glob_stem (assets w) name); [|apply extends_refl].
  assert (∀ w1, extends w w1 →
            extends w
              (match try_fetch fm w1 u name with
               | Some r => r
               | None =>
                   (Py.replace (Pathlib.str (Pathlib.of_str u)) "\" "/",
                    mkWorld (assets w1) (cache w1) (requests w1 ++ [u]))
               end).2) as Hfetch.
  { intros w1 Hw1. destruct (try_fetch fm w1 u name) as [[p w2]|] eqn:Hf.
    - eapply extends_trans; [done|]. by eapply try_fetch_extends.
    - eapply extends_trans; [done|]. apply extends_request. }
  destruct (cache_assets fm); [|by apply Hfetch, extends_refl].
  unfold _load_from_cache.
  destruct (if Py.truthy _ then _ else _) as [|c l].
  - by apply Hfetch, extends_refl.
  - simpl. rewrite <- (app_nil_r (requests w)). apply extends_write.
Qed.

End frame.

Section asset_passes.
Context `{E : Env}.
Import Scraper.

Lemma localize_image_extends (fm : FileManager.t) (name : string)
    (attrs : gmap string string) (class : option (list string))
    (w : FileManager.world) (a : gmap string string) (w' : FileManager.world) :
  localize_image fm name attrs class w = Ok (a, w') → FileManager.extends w w'.
Proof.
  unfold localize_image.
  destruct (if String.eqb name "img" && negb (is_emoji name class)
            then attrs !! "src" else None) as [src|].
  - destruct (negb (Py.contains "data:image" src)).
    + pose proof (download_asset_extends fm w
                    (if Py.startswith src "/" then notion +:+ src else src) "") as H.
      destruct (FileManager.download_asset fm w _ "") as [p w1].
      intros Heq. inversion Heq; subst. exact H.
    + destruct (Py.startswith src "/"); intros Heq; inversion Heq; subst;
        apply extends_refl.
  - intros Heq. inversion Heq; subst. apply extends_refl.
Qed.

Lemma localize_emoji_extends (fm : FileManager.t) (name : string)
    (attrs : gmap string string) (class : option (list string))
    (w : FileManager.world) (a : gmap string string) (w' : FileManager.world) :
  localize_emoji fm name attrs class w = Ok (a, w') → FileManager.extends w w'.
Proof.
  unfold localize_emoji. destruct (is_emoji name class).
  - destruct (attrs !! "style") as [style|]; [|done].
    match goal with
    | |- context [FileManager.download_asset fm w ?u ""] =>
        pose proof (download_asset_extends fm w u "") as H;
        destruct (FileManager.download_asset fm w u "") as [p w1]
    end.
    destruct (valid_value "background" _); [|done].
    intros Heq. inversion Heq; subst. exact H.
  - intros Heq. inversion Heq; subst. apply extends_refl.
Qed.

Lemma localize_fonts_extends (fm : FileManager.t) (href : string)
    (rules : list css_rule) :
  ∀ w rules' w',
    localize_fonts fm href rules w = Ok (rules', w') → FileManager.extends w w'.
Proof.
  induction rules as [|rule rules IH]; intros w rules' w' H.
  - inversion H; subst. apply extends_refl.
  - cbn [localize_fonts] in H.
    destruct (localize_font fm href rule w) as [[rule1 w1]|e] eqn:Hrule; [|done].
    cbn [mbind result_bind] in H.
    destruct (localize_fonts fm href rules w1) as [[rules1 w2]|e] eqn:Hrules;
      [|done].
    cbn [mbind result_bind] in H. inversion H; subst.
    eapply extends_trans; [|by eapply IH].
    unfold localize_font in Hrule. destruct rule as [src|text].
    + destruct (match_font_src src) as [group2|]; [|done].
      match type of Hrule with
      | context [FileManager.download_asset fm w ?u ?n] =>
          pose proof (download_asset_extends fm w u n) as Hd;
          destruct (FileManager.download_asset fm w u n) as [p w3]
      end.
      cbn zeta in Hrule. destruct (valid_value "src" _); [|done].
      inversion Hrule; subst. exact Hd.
    + inversion Hrule; subst. apply extends_refl.
Qed.

Lemma localize_stylesheet_extends (fm : FileManager.t) (name : string)
    (attrs : gmap string string) (class : option (list string))
    (w : FileManager.world) (a : gmap string string) (w' : FileManager.world) :
  localize_stylesheet fm name attrs class w = Ok (a, w') → FileManager.extends w w'.
Proof.
  unfold localize_stylesheet. destruct (is_stylesheet name attrs).
  - match goal with
    | |- context [FileManager.download_asset fm w ?u ""] =>
        pose proof (download_asset_extends fm w u "") as Hd;
        destruct (FileManager.download_asset fm w u "") as [p w1]
    end.
    destruct (open_asset fm w1 p) as [[n content]|e]; [|done].
    cbn [mbind result_bind].
    destruct (localize_fonts fm _ (css_parse content) w1) as [[rules w2]|e]
      eqn:Hfonts; [|done].
    cbn [mbind result_bind]. intros Heq. inversion Heq; subst.
    eapply extends_trans; [exact Hd|].
    eapply extends_trans; [by eapply localize_fonts_extends|].
    rewrite <- (app_nil_r (FileManager.requests w2)). apply extends_write.
  - intros Heq. inversion Heq; subst. apply extends_refl.
Qed.

(** X6: the asset store only grows while a page is processed. A call
    of [download_asset], and every pass of [_download_images] and of
    [_download_stylesheets] that returns, leaves the cache directory
    as it was, keeps the requests made before it at the head of the
    log, and removes no file from the assets directory; and the two
    passes change attributes only: the document keeps its elements,
    its classes, its texts and its nesting. *)
Theorem asset_passes_only_add (fm : FileManager.t) (w : FileManager.world)
    (u filename : string) (soup : node) :
  FileManager.extends w (FileManager.download_asset fm w u filename).2
  ∧ match _download_images fm soup w with
    | Ok (soup', w') =>
        FileManager.extends w w' ∧ strip_attrs soup' = strip_attrs soup
    | Raise _ => True
    end
  ∧ match _download_stylesheets fm soup w with
    | Ok (soup', w') =>
        FileManager.extends w w' ∧ strip_attrs soup' = strip_attrs soup
    | Raise _ => True
    end.
Proof.
  split_and!.
  - apply download_asset_extends.
  - unfold _download_images.
    destruct (for_each_tag (localize_image fm) soup w) as [[soup1 w1]|e] eqn:H1;
      [|done].
    cbn [mbind result_bind].
    destruct (for_each_tag (localize_emoji fm) soup1 w1) as [[soup2 w2]|e] eqn:H2;
      [|done].
    destruct (for_each_tag_preserves (localize_image fm) FileManager.extends
                extends_refl extends_trans (localize_image_extends fm)
                soup w soup1 w1 H1) as [He1 Hs1].
    destruct (for_each_tag_preserves (localize_emoji fm) FileManager.extends
                extends_refl extends_trans (localize_emoji_extends fm)
                soup1 w1 soup2 w2 H2) as [He2 Hs2].
    split; [by eapply extends_trans|congruence].
  - unfold _download_stylesheets.
    destruct (for_each_tag (localize_stylesheet fm) soup w) as [[soup1 w1]|e] eqn:H1;
      [|done].
    apply (for_each_tag_preserves (localize_stylesheet fm) FileManager.extends
             extends_refl extends_trans (localize_stylesheet_extends fm)
             soup w soup1 w1 H1).
Qed.






End asset_passes.

(** an emoji whose style has no sprite: what line 305 assigns is not a
    value, and the pass is left *)
Lemma emoji_without_sprite_raises :
  @Scraper._download_images Example.offline
    (Example.file_manager Example.offline)
    (Tag "div" ∅ None
       [Tag "img" {["style" := "background: red"]} (Some ["notion-emoji"]) []])
    Example.empty_world
  = Raise (OtherError "SyntaxErr").
Proof. vm_compute. reflexivity. Qed.

(** an emoji with its sprite is localized *)
Lemma emoji_with_sprite_is_localized :
  @Scraper._download_images Example.online
    (Example.file_manager Example.online)
    (Tag "div" ∅ None
       [Tag "img" {["style" := "background: url(/images/emoji.png)"]}
          (Some ["notion-emoji"]) []])
    Example.empty_world
  = Ok (Tag "div" ∅ None
          [Tag "img"
             {["style" :=
                 "background: url(assets/7d00e0fac9debf3ebbff2fc63f20f1dbf9b85c65.png)"]}
             (Some ["notion-emoji"]) []],
        FileManager.mkWorld
          [("7d00e0fac9debf3ebbff2fc63f20f1dbf9b85c65.png", "wOF2")] []
          ["https://www.notion.so/images/emoji.png"]).
Proof. vm_compute. reflexivity. Qed.

(** ** A stylesheet that cannot be fetched *)



Section stylesheet_failure.
Context `{E : Env}.
Import Scraper.


End stylesheet_failure.


(** ** Where the subpage links lead *)

Section link_targets.
Context `{E : Env}.
Import Scraper.

(** X9: a link that starts with a slash is resolved against the
    workspace domain by the last segment of its path alone, whatever
    comes before it, and so is never taken for an external link; in a
    scroller and without fragment it is queued under that URL. *)
Theorem relative_link_resolves_to_last_segment (s : t) (href : string) :
  Py.startswith href "/" = true →
  let segment := Py.last (Py.split href "/") in
  resolve (domain s) href = domain s +:+ "/" +:+ segment
  ∧ Py.contains "/" segment = false
  ∧ (∃ before, href = before +:+ "/" +:+ segment)
  ∧ Py.startswith (resolve (domain s) href) (domain s) = true
  ∧ ∀ name attrs class,
      Py.contains "#" (resolve (domain s) href) = false →
      r_urls (rewrite_anchor s true name attrs class href)
      = [domain s +:+ "/" +:+ segment].
Proof.
  intros Hrel segment.
  assert (resolve (domain s) href = domain s +:+ "/" +:+ segment) as Hres.
  { unfold resolve. by rewrite Hrel. }
  assert (Py.contains "/" href = true) as Hc.
  { unfold Py.contains. by rewrite (find_nat_startswith _ _ Hrel). }
  destruct (split_last href "/") as [Hseg Hbefore]; [done|done|].
  assert (Py.startswith (resolve (domain s) href) (domain s) = true) as Hint.
  { rewrite Hres. apply startswith_app. }
  split_and!; [done..|].
  intros name attrs class Hfrag. unfold rewrite_anchor.
  by rewrite Hint, Hfrag, Hres.
Qed.

Lemma rewrite_anchor_urls (s : t) (is_scroller : bool) (name : string)
    (attrs : gmap string string) (class : option (list string))
    (href u : string) :
  u ∈ r_urls (rewrite_anchor s is_scroller name attrs class href) →
  Py.startswith u (domain s) = true ∧ Py.contains "#" u = false.
Proof.
  unfold rewrite_anchor.
  destruct (Py.startswith (resolve (domain s) href) (domain s)) eqn:Hint; simpl;
    [|by intros H; apply elem_of_nil in H].
  destruct (Py.contains "#" (resolve (domain s) href)) eqn:Hfrag; simpl;
    [by intros H; apply elem_of_nil in H|].
  destruct is_scroller; simpl; [|by intros H; apply elem_of_nil in H].
  intros H. apply list_elem_of_singleton in H as ->. done.
Qed.

Lemma link_node_urls (s : t) (n : node) :
  ∀ is_scroller forced u,
    u ∈ (link_node s is_scroller forced n).2 →
    Py.startswith u (domain s) = true ∧ Py.contains "#" u = false.
Proof.
  induction n as [x|name attrs class contents IH] using node_induction;
    intros is_scroller forced u.
  - simpl. intros H. by apply elem_of_nil in H.
  - rewrite link_node_tag. cbv zeta. cbn [snd].
    intros H. apply elem_of_app in H as [H|H].
    + destruct (if String.eqb name "a"
                then Nat.iter forced force_cursor attrs !! "href" else None)
        as [href|]; [by eapply rewrite_anchor_urls|].
      by apply elem_of_nil in H.
    + revert H. generalize (is_scroller
                            || String.eqb name "div" && has_class "notion-scroller" class).
      match goal with
      | |- context [link_contents s _ ?k contents] => generalize k
      end.
      clear -IH. induction IH as [|c l Hc _ IHl]; intros k b H.
      * by apply elem_of_nil in H.
      * rewrite link_contents_cons in H. cbn [snd] in H.
        apply elem_of_app in H as [H|H]; [by eapply Hc|by eapply IHl].
Qed.

Lemma root_starts_with_domain (s : t) :
  Py.contains "notion.site" (url s) = true →
  Py.startswith (url s) (domain s) = true.
Proof.
  unfold Py.contains, domain, Py.split. cbn [Py.split_fuel].
  destruct (Py.find_nat "notion.site" (url s)) as [i|] eqn:Hi; [|done].
  intros _. cbn [Py.first List.hd].
  rewrite (find_nat_some _ _ _ Hi) at 1.
  rewrite <- append_assoc. apply startswith_app.
Qed.

(** X10: a run never leaves the workspace. On a root URL that has
    [notion.site] in it, every URL that is pending or visited at any
    point of any run starts with the domain of the root (the text up
    to the first [notion.site]), and every one but the root is without
    fragment. *)
Theorem crawl_stays_in_domain (s : t) (c : config) (u : string) :
  Py.contains "notion.site" (url s) = true →
  rtc (step s) (Running (start s)) c →
  u ∈ will_visit (state_of c) ∪ visited (state_of c) →
  Py.startswith u (domain s) = true
  ∧ (u = url s ∨ Py.contains "#" u = false).
Proof.
  intros Hroot Hrun. revert u.
  assert (∀ u, u = url s ∨ (Py.startswith u (domain s) = true
                            ∧ Py.contains "#" u = false) →
            Py.startswith u (domain s) = true
            ∧ (u = url s ∨ Py.contains "#" u = false)) as Hweak.
  { intros u [->|[H1 H2]]; [|by auto]. split; [|by left].
    by apply root_starts_with_domain. }
  intros u Hu. apply Hweak. revert u Hu.
  revert c Hrun. apply (rtc_ind_r (λ c, ∀ u,
    u ∈ will_visit (state_of c) ∪ visited (state_of c) →
    u = url s ∨ (Py.startswith u (domain s) = true ∧ Py.contains "#" u = false))).
  - simpl. intros u Hu. apply elem_of_union in Hu as [Hu|Hu].
    + left. by apply elem_of_singleton in Hu.
    + by apply not_elem_of_empty in Hu.
  - intros c c' _ Hstep IHc u Hu.
    destruct Hstep as [st Hempty | st u0 soup Hu0 | st u0 e Hu0]; simpl in *.
    + by apply IHc.
    + apply elem_of_union in Hu as [Hu|Hu].
      * apply elem_of_union in Hu as [Hu|Hu].
        -- apply elem_of_difference in Hu as [Hu _]. apply IHc.
           apply elem_of_union. by left.
        -- apply elem_of_list_to_set, list_elem_of_filter in Hu as [_ Hu].
           right. by eapply link_node_urls.
      * apply elem_of_union in Hu as [Hu|Hu].
        -- apply IHc, elem_of_union. by right.
        -- apply elem_of_singleton in Hu as ->. apply IHc, elem_of_union. by left.
    + apply elem_of_union in Hu as [Hu|Hu].
      * apply elem_of_difference in Hu as [Hu _]. apply IHc.
        apply elem_of_union. by left.
      * apply IHc, elem_of_union. by right.
Qed.

(** X11: [_link_to_subpages] rewrites elements where they are: the
    document it leaves has the texts of the document it was given, in
    order, and as many nodes; it adds none and removes none. *)
Theorem link_rewriter_keeps_texts (s : t) (soup : node) :
  texts (_link_to_subpages s soup).1 = texts soup
  ∧ length (subtree (_link_to_subpages s soup).1) = length (subtree soup).
Proof.
  unfold _link_to_subpages. generalize false, 0%nat.
  induction soup as [x|name attrs class contents IH] using node_induction;
    intros is_scroller forced.
  - done.
  - rewrite link_node_tag. cbv zeta. cbn [fst texts subtree length].
    match goal with
    | |- context [link_contents s ?b ?k contents] =>
        generalize b; generalize k
    end.
    intros k b.
    assert (List.flat_map texts (link_contents s b k contents).1
            = List.flat_map texts contents
            ∧ length (List.flat_map subtree (link_contents s b k contents).1)
              = length (List.flat_map subtree contents)) as [H1 H2].
    { clear -IH. induction IH as [|c l Hc _ IHl]; [done|].
      rewrite link_contents_cons. cbn [fst List.flat_map].
      destruct (Hc b k) as [Hc1 Hc2]. destruct IHl as [Hl1 Hl2].
      rewrite !length_app. by rewrite Hc1, Hc2, Hl1, Hl2. }
    by rewrite H1, H2.
Qed.

(** X12: [_link_to_subpages] leaves no link into the workspace. An
    anchor of the document it returns that has an [href] has a
    fragment of the page there, or the file name of a page that is in
    the list the function returns, or a URL that the test of line 404
    takes for external. *)
Theorem link_rewriter_leaves_no_internal_link (s : t) (soup : node) :
  Forall (λ d, ∀ attrs class contents h,
            d = Tag "a" attrs class contents →
            attrs !! "href" = Some h →
            Py.startswith h "#" = true
            ∨ (∃ u, u ∈ (_link_to_subpages s soup).2
                    ∧ h = FileManager.get_filename_from_url (file_manager s) u)
            ∨ Py.startswith (resolve (domain s) h) (domain s) = false)
         (subtree (_link_to_subpages s soup).1).
Proof.
  unfold _link_to_subpages.
  set (P := λ (urls : list string) (d : node),
         ∀ attrs class contents h,
           d = Tag "a" attrs class contents →
           attrs !! "href" = Some h →
           Py.startswith h "#" = true
           ∨ (∃ u, u ∈ urls
                   ∧ h = FileManager.get_filename_from_url (file_manager s) u)
           ∨ Py.startswith (resolve (domain s) h) (domain s) = false).
  assert (∀ us us' d, (∀ u, u ∈ us → u ∈ us') → P us d → P us' d) as Hmono.
  { intros us us' d Hsub Hd attrs class contents h Heq Hh.
    destruct (Hd attrs class contents h Heq Hh) as [H|[(u & Hu & H)|H]];
      [by left| |by right; right].
    right. left. exists u. split; [by apply Hsub|done]. }
  change (Forall (P (link_node s false 0 soup).2)
            (subtree (link_node s false 0 soup).1)).
  generalize 0%nat. generalize false.
  induction soup as [x|name attrs class contents IH] using node_induction;
    intros is_scroller forced.
  - apply Forall_cons. split; [|by apply Forall_nil]. by intros ? ? ? ? ?.
  - rewrite link_node_tag. cbv zeta. cbn [fst snd subtree].
    apply Forall_cons. split.
    + intros attrs' class' contents' h Heq. injection Heq as Hname Hattrs _ _.
      subst attrs'. revert Hname.
      destruct (String.eqb name "a") eqn:Ha.
      * destruct (Nat.iter forced force_cursor attrs !! "href") as [href|] eqn:Hhref.
        -- unfold rewrite_anchor. cbv zeta.
           destruct (Py.startswith (resolve (domain s) href) (domain s)) eqn:Hint;
             cbn [negb].
           ++ destruct (Py.contains "#" (resolve (domain s) href));
                [|destruct is_scroller]; cbn [r_name r_attrs r_urls];
                intros Hname Hh.
              ** left. rewrite lookup_insert_eq in Hh. inversion Hh.
                 apply startswith_app.
              ** right. left. rewrite lookup_insert_eq in Hh. inversion Hh.
                 eexists. split; [|done]. apply elem_of_app. left. by left.
              ** done.
           ++ cbn [r_name r_attrs r_urls]. intros Hname Hh. right. right.
              rewrite Hhref in Hh. by inversion Hh; subst.
        -- cbn [r_name r_attrs r_urls]. intros Hname Hh.
           rewrite Hhref in Hh. done.
      * cbn [r_name r_attrs r_urls]. intros Hname.
        apply String.eqb_neq in Ha. done.
    + match goal with
      | |- context [link_contents s ?b ?k contents] => generalize b, k
      end.
      intros b k. generalize (r_urls
        match (if String.eqb name "a"
               then Nat.iter forced force_cursor attrs !! "href" else None) with
        | Some href =>
            rewrite_anchor s is_scroller name (Nat.iter forced force_cursor attrs)
              class href
        | None => mkRewritten name (Nat.iter forced force_cursor attrs) class false []
        end).
      intros us. clear -IH Hmono.
      assert (Forall (P (link_contents s b k contents).2)
                (List.flat_map subtree (link_contents s b k contents).1)) as H.
      { induction IH as [|c l Hc _ IHl]; [by apply Forall_nil|].
        rewrite link_contents_cons. cbn [fst snd List.flat_map].
        apply Forall_app. split.
        - eapply Forall_impl; [apply Hc|]. intros d. apply Hmono.
          intros u Hu. apply elem_of_app. by left.
        - eapply Forall_impl; [apply IHl|]. intros d. apply Hmono.
          intros u Hu. apply elem_of_app. by right. }
      eapply Forall_impl; [exact H|]. intros d. apply Hmono.
      intros u Hu. apply elem_of_app. by right.
Qed.

End link_targets.

Lemma relative_link_resolves_witness :
  @Scraper.resolve (@Scraper.domain Example.scraper) "/a/b/Sub-Page-def456"
  = "https://x.notion.site/Sub-Page-def456".
Proof.
  etransitivity.
  - apply (proj1 (@relative_link_resolves_to_last_segment Example.offline
                    Example.scraper "/a/b/Sub-Page-def456" eq_refl)).
  - vm_compute. reflexivity.
Defined.

Lemma crawl_stays_in_domain_witness :
  Py.startswith "https://x.notion.site/Sub-Page-def456"
    (Scraper.domain Example.scraper) = true
  ∧ ("https://x.notion.site/Sub-Page-def456" = Scraper.url Example.scraper
     ∨ Py.contains "#" "https://x.notion.site/Sub-Page-def456" = false).
Proof.
  apply (@crawl_stays_in_domain Example.offline Example.scraper
           (Scraper.Exited
              (Scraper.mkState ∅
                 {[Example.root; "https://x.notion.site/Sub-Page-def456"]}
                 [(Example.root, "snapshots/page/index.html");
                  ("https://x.notion.site/Sub-Page-def456",
                   "snapshots/page/sub-page.html")]))
           "https://x.notion.site/Sub-Page-def456").
  - vm_compute. reflexivity.
  - apply (@run_from_steps Example.offline Example.scraper Example.two_pages
    Example.writable Example.first 3).
    exact subpage_link_is_followed.
  - cbn [Scraper.state_of Scraper.will_visit Scraper.visited].
    apply elem_of_union. right. apply elem_of_union. right.
    by apply elem_of_singleton.
Defined.

(** ** The pages a run covers *)

Section coverage.
Context `{E : Env}.
Import Scraper.

Lemma run_from_closed (s : t) (site : string → result node)
    (save : string → option exn) (pick : state → nat) (fuel : nat) :
  ∀ st st',
    run_from s site save pick fuel st = Some (Exited st') →
    (∀ u, u ∈ will_visit st ∪ visited st → reachable_page s site u) →
    url s ∈ will_visit st ∪ visited st →
    (∀ u p, u ∈ visited st → p ∈ links s site u →
       p ∈ will_visit st ∪ visited st) →
    (∀ u, u ∈ visited st' → reachable_page s site u)
    ∧ url s ∈ visited st'
    ∧ (∀ u p, u ∈ visited st' → p ∈ links s site u → p ∈ visited st').
Proof.
  induction fuel as [|fuel IH]; intros st st' Hrun Hreach Hroot Hclosed; [done|].
  cbn [run_from] in Hrun. pose proof (pop_spec pick st) as Hu.
  destruct (pop pick st) as [u|]; cycle 1.
  - inversion Hrun; subst st'. rename Hu into Hempty.
    rewrite Hempty in *. split_and!.
    + intros u Hu. apply Hreach, elem_of_union. by right.
    + apply elem_of_union in Hroot as [Hroot|Hroot]; [|done].
      by apply not_elem_of_empty in Hroot.
    + intros u p Hu Hp. pose proof (Hclosed u p Hu Hp) as H.
      apply elem_of_union in H as [H|H]; [|done].
      by apply not_elem_of_empty in H.
  - destruct (site u) as [soup|e] eqn:Hsite; [|done].
    destruct (_link_to_table_view_subpages (_link_to_subpages s soup).1)
      as [soup'|e]; [|done].
    destruct (save u) as [e|]; [done|].
    assert (links s site u = (_link_to_subpages s soup).2) as Hlinks.
    { unfold links. by rewrite Hsite. }
    apply (IH _ _ Hrun); unfold visit, popped; simpl.
    + intros x Hx. apply elem_of_union in Hx as [Hx|Hx].
      * apply elem_of_union in Hx as [Hx|Hx].
        -- apply elem_of_difference in Hx as [Hx _].
           apply Hreach, elem_of_union. by left.
        -- apply elem_of_list_to_set, list_elem_of_filter in Hx as [_ Hx].
           apply (reachable_link s site u).
           ++ apply Hreach, elem_of_union. by left.
           ++ by rewrite Hlinks.
      * apply elem_of_union in Hx as [Hx|Hx].
        -- apply Hreach, elem_of_union. by right.
        -- apply elem_of_singleton in Hx as ->.
           apply Hreach, elem_of_union. by left.
    + destruct (decide (url s = u)) as [->|Hne].
      * apply elem_of_union. right. apply elem_of_union. right.
        by apply elem_of_singleton.
      * apply elem_of_union in Hroot as [Hroot|Hroot].
        -- apply elem_of_union. left. apply elem_of_union. left.
           apply elem_of_difference. split; [done|].
           intros Hin. by apply elem_of_singleton in Hin.
        -- apply elem_of_union. right. apply elem_of_union. by left.
    + intros x p Hx Hp.
      destruct (decide (p ∈ visited st ∪ {[u]})) as [Hv|Hv].
      { apply elem_of_union. by right. }
      apply elem_of_union. left.
      apply elem_of_union in Hx as [Hx|Hx].
      * apply elem_of_union. left. apply elem_of_difference.
        pose proof (Hclosed x p Hx Hp) as H.
        apply elem_of_union in H as [H|H].
        -- split; [done|]. intros Hin. apply Hv, elem_of_union. by right.
        -- exfalso. apply Hv, elem_of_union. by left.
      * apply elem_of_singleton in Hx as ->. apply elem_of_union. right.
        apply elem_of_list_to_set, list_elem_of_filter. split; [done|].
        by rewrite <- Hlinks.
Qed.

(** X13: when [run] leaves its loop, the pages it has written are those
    that can be reached from the root URL through the subpage links of
    the pages themselves: all of them, and no other, whichever elements
    [pop] has taken. *)
Theorem run_saves_the_reachable_pages (s : t) (site : string → result node)
    (save : string → option exn) (pick : state → nat)
    (fuel : nat) (st : state) (u : string) :
  run s site save pick fuel = Some (Exited st) →
  u ∈ (saved st).*1 ↔ reachable_page s site u.
Proof.
  intros Hrun.
  destruct (frontier_ok_reachable s _
              (run_from_steps s site save pick fuel _ _ Hrun))
    as (_ & _ & Hsaved & _). simpl in Hsaved. rewrite <- Hsaved.
  destruct (run_from_closed s site save pick fuel (start s) st Hrun)
    as (Hreach & Hroot & Hclosed).
  - intros x Hx. simpl in Hx. apply elem_of_union in Hx as [Hx|Hx].
    + apply elem_of_singleton in Hx as ->. constructor.
    + by apply not_elem_of_empty in Hx.
  - simpl. apply elem_of_union. left. by apply elem_of_singleton.
  - intros x p Hx. simpl in Hx. by apply not_elem_of_empty in Hx.
  - split; [apply Hreach|].
    induction 1 as [|x p _ IHx Hp]; [done|]. by eapply Hclosed.
Qed.

End coverage.

Lemma run_saves_the_reachable_pages_witness :
  @Scraper.reachable_page Example.offline Example.scraper Example.two_pages
    "https://x.notion.site/Sub-Page-def456".
Proof.
  refine (proj1 (@run_saves_the_reachable_pages Example.offline Example.scraper
                   Example.two_pages
    Example.writable Example.first 3 _ "https://x.notion.site/Sub-Page-def456"
                   subpage_link_is_followed) _).
  change ("https://x.notion.site/Sub-Page-def456"
          ∈ [Example.root; "https://x.notion.site/Sub-Page-def456"]).
  apply elem_of_cons. right. by apply list_elem_of_singleton.
Defined.

Lemma run_terminates_witness :
  ∃ c, @Scraper.run Example.offline Example.scraper Example.two_pages
         Example.writable Example.last
         (S (size ({[Example.root; "https://x.notion.site/Sub-Page-def456"]}
                     : gset string)))
       = Some c.
Proof.
  apply (@run_terminates Example.offline Example.scraper Example.two_pages
           Example.writable Example.last
           {[Example.root; "https://x.notion.site/Sub-Page-def456"]}).
  - apply elem_of_union. left. by apply elem_of_singleton.
  - intros u soup Hsite p Hp. unfold Example.two_pages in Hsite.
    destruct (String.eqb u Example.root); inversion Hsite; subst soup.
    + assert ((@Scraper._link_to_subpages Example.offline Example.scraper
                 Example.page_with_subpage).2
              = ["https://x.notion.site/Sub-Page-def456"]) as Heq
        by (vm_compute; reflexivity).
      rewrite Heq in Hp. apply list_elem_of_singleton in Hp as ->.
      apply elem_of_union. right. by apply elem_of_singleton.
    + assert ((@Scraper._link_to_subpages Example.offline Example.scraper
                 Example.plain_page).2 = []) as Heq
        by (vm_compute; reflexivity).
      rewrite Heq in Hp. by apply elem_of_nil in Hp.
Defined.

(** ** The disclosure expander when the waits succeed *)

Section expander_progress.
Context `{D : Driver} `{L : Logger}.
Import Scraper.

(** X14: [_expand_toggle_blocks] returns when no wait runs into its
    deadline and the toggle blocks the document ever shows are among
    finitely many: after at most one pass per block and one more,
    every toggle block of the document is in the accumulator. *)
Theorem expander_returns_without_timeouts (blocks : gset nat) (x : expansion) :
  (∀ d b, (wait_until_expanded d b).2 = true) →
  (∀ d b, b ∈ get_toggle_blocks d → b ∈ blocks) →
  ∃ x', _expand_toggle_blocks (S (size blocks)) x = Returned x'
        ∧ unexpanded x' = [].
Proof.
  intros Hwait Hblocks. apply (expander_returns blocks Hwait Hblocks).
  apply Nat.lt_succ_r, subseteq_size.
  intros y Hy. by apply elem_of_difference in Hy as [Hy _].
Qed.

(** X15: a block that is in the accumulator when
    [_expand_toggle_blocks] is called is not clicked by the call,
    however deep the recursion goes and however it ends; the
    accumulator and the clicks only grow. The accumulator is the
    default argument of the function, so this holds across the pages of
    a run. *)
Theorem recorded_block_is_not_clicked (depth : nat) (x : expansion) :
  ∃ clicked recorded,
    e_clicks (reached (_expand_toggle_blocks depth x)) = e_clicks x ++ clicked
    ∧ e_expanded (reached (_expand_toggle_blocks depth x))
      = e_expanded x ++ recorded
    ∧ ∀ b, b ∈ clicked → b ∉ e_expanded x.
Proof.
  destruct (expander_clicks depth x) as (clicked & recorded & Hc & Hr & Hin & _).
  exists clicked, recorded. by split_and!.
Qed.

End expander_progress.

Lemma expander_returns_without_timeouts_witness :
  ∃ x', @Scraper._expand_toggle_blocks Example.willing_driver
          Example.standard_logger 3
          (Scraper.mkExpansion (tt : @dom Example.willing_driver) [] [])
        = Scraper.Returned x'
        ∧ @Scraper.unexpanded Example.willing_driver x' = [].
Proof.
  apply (@expander_returns_without_timeouts Example.willing_driver
           Example.standard_logger {[0%nat; 1%nat]}
           (Scraper.mkExpansion (tt : @dom Example.willing_driver) [] [])).
  - intros d b. reflexivity.
  - intros d b Hb. simpl in Hb. apply elem_of_cons in Hb as [->|Hb].
    + apply elem_of_union. left. by apply elem_of_singleton.
    + apply list_elem_of_singleton in Hb as ->.
      apply elem_of_union. right. by apply elem_of_singleton.
Defined.

(** ** The pattern of font-face sources *)

Section font_pattern.
Import Scraper.

Lemma contains_char_cons (a c : ascii) (s : string) :
  Py.contains (Py.chr a) (String c s) = false →
  Ascii.eqb a c = false ∧ Py.contains (Py.chr a) s = false.
Proof.
  intros H. apply contains_false in H.
  destruct (find_nat_none_cons _ _ _ H) as [Hc Hs].
  cbn [Py.chr Py.startswith] in Hc. rewrite startswith_empty in Hc.
  split; [by destruct (Ascii.eqb a c)|].
  unfold Py.contains. by rewrite Hs.
Qed.

Lemma contains_char_cons_inv (a c : ascii) (s : string) :
  Ascii.eqb a c = false → Py.contains (Py.chr a) s = false →
  Py.contains (Py.chr a) (String c s) = false.
Proof.
  intros Hc Hs. apply contains_false in Hs. unfold Py.contains.
  cbn [Py.chr Py.find_nat Py.startswith]. rewrite Hc.
  cbn [Py.chr] in Hs. by rewrite Hs.
Qed.

Lemma match_prefix_once (slash : bool) (s : string) :
  match_prefix ((if slash then "/" else "") +:+ "https:/www.notion.so" +:+ s)
  = Some s.
Proof. by destruct slash. Qed.

Lemma match_lazy_rest_plain (g tail : string) :
  Py.contains ")" g = false →
  Py.contains (Py.chr "010"%char) g = false →
  match_lazy_rest (g +:+ ")" +:+ tail) = Some g.
Proof.
  induction g as [|c g IH]; intros Hp Hn.
  - reflexivity.
  - apply (contains_char_cons ")"%char) in Hp as [Hc Hp].
    apply contains_char_cons in Hn as [Hc' Hn].
    rewrite append_cons. cbn [match_lazy_rest].
    rewrite (Ascii.eqb_sym c), Hc, (Ascii.eqb_sym c), Hc'.
    by rewrite (IH Hp Hn).
Qed.

Lemma match_lazy_plain (g tail : string) :
  g ≠ "" →
  Py.contains ")" g = false →
  Py.contains (Py.chr "010"%char) g = false →
  match_lazy (g +:+ ")" +:+ tail) = Some g.
Proof.
  destruct g as [|c g]; [done|]. intros _ Hp Hn.
  apply (contains_char_cons ")"%char) in Hp as [_ Hp].
  apply contains_char_cons in Hn as [Hc' Hn].
  rewrite append_cons. cbn [match_lazy].
  rewrite (Ascii.eqb_sym c), Hc'.
  by rewrite (match_lazy_rest_plain g tail Hp Hn).
Qed.

Lemma notion_prefixes_length (slashes : list bool) :
  (length slashes ≤ String.length (notion_prefixes slashes))%nat.
Proof.
  induction slashes as [|b l IH]; cbn [notion_prefixes length]; [done|].
  rewrite !append_length. destruct b; simpl; lia.
Qed.

(** X16: the pattern of line 328 gives the font source without the
    repeated [https:/www.notion.so] in front of it: whatever the number
    of repetitions, each with or without a slash before it, group 2 is
    the text between the last of them and the closing parenthesis,
    when that text is not empty, has no parenthesis and no newline in
    it and does not start with one more repetition. *)
Theorem font_src_prefixes_are_dropped (slashes : list bool) (g tail : string) :
  g ≠ "" →
  Py.contains ")" g = false →
  Py.contains (Py.chr "010"%char) g = false →
  match_prefix (g +:+ ")" +:+ tail) = None →
  match_font_src ("url(" +:+ notion_prefixes slashes +:+ g +:+ ")" +:+ tail)
  = Some g.
Proof.
  intros Hg Hp Hn Hstop.
  assert (∀ l fuel, (length l ≤ fuel)%nat →
            match_groups fuel (notion_prefixes l +:+ g +:+ ")" +:+ tail) = Some g)
    as Hgroups.
  { induction l as [|b l IH]; intros fuel Hfuel.
    - change (notion_prefixes [] +:+ g +:+ ")" +:+ tail) with (g +:+ ")" +:+ tail).
      destruct fuel as [|fuel]; cbn [match_groups].
      + by apply match_lazy_plain.
      + rewrite Hstop. by apply match_lazy_plain.
    - destruct fuel as [|fuel]; [simpl in Hfuel; lia|].
      cbn [match_groups notion_prefixes]. rewrite !append_assoc.
      rewrite match_prefix_once. rewrite IH; [done|]. simpl in Hfuel. lia. }
  unfold match_font_src. rewrite startswith_app.
  change 4%nat with (String.length "url("). rewrite drop_app_length.
  apply Hgroups. rewrite !append_length.
  pose proof (notion_prefixes_length slashes). simpl. lia.
Qed.

Lemma match_pattern_app (pat s r : string) :
  match_pattern pat s = Some r → ∃ p, s = p +:+ r.
Proof.
  revert s. induction pat as [|x pat IH]; intros s H.
  - exists "". simpl in H. by inversion H.
  - destruct s as [|c s]; [done|]. cbn [match_pattern] in H.
    destruct (if Ascii.eqb x "."%char then negb (Ascii.eqb c "010"%char)
              else Ascii.eqb x c); [|done].
    destruct (IH _ H) as [p ->]. exists (String c p). by rewrite append_cons.
Qed.

Lemma match_prefix_app (s r : string) :
  match_prefix s = Some r → ∃ p, s = p +:+ r.
Proof.
  unfold match_prefix. destruct (Py.startswith s "/") eqn:Hs; intros H.
  - destruct s as [|c s]; [done|]. cbn [Py.drop] in H.
    destruct (match_pattern_app _ _ _ H) as [p ->].
    exists (String c p). by rewrite append_cons.
  - by eapply match_pattern_app.
Qed.

Lemma match_lazy_rest_inv (s g : string) :
  match_lazy_rest s = Some g →
  Py.contains ")" g = false
  ∧ Py.contains (Py.chr "010"%char) g = false
  ∧ ∃ tail, s = g +:+ ")" +:+ tail.
Proof.
  revert g. induction s as [|c s IH]; intros g H; [done|].
  cbn [match_lazy_rest] in H.
  destruct (Ascii.eqb c ")"%char) eqn:Hc.
  - inversion H; subst. apply Ascii.eqb_eq in Hc as ->.
    split_and!; [done..|]. by exists s.
  - destruct (Ascii.eqb c "010"%char) eqn:Hc'; [done|].
    destruct (match_lazy_rest s) as [g'|]; [|done].
    inversion H; subst. destruct (IH g' eq_refl) as (Hp & Hn & tail & ->).
    rewrite Ascii.eqb_sym in Hc, Hc'. split_and!.
    + by apply (contains_char_cons_inv ")"%char).
    + by apply contains_char_cons_inv.
    + exists tail. by rewrite append_cons.
Qed.

Lemma match_lazy_inv (s g : string) :
  match_lazy s = Some g →
  g ≠ ""
  ∧ Py.contains ")" (Py.drop 1 g) = false
  ∧ Py.contains (Py.chr "010"%char) g = false
  ∧ ∃ tail, s = g +:+ ")" +:+ tail.
Proof.
  destruct s as [|c s]; [done|]. cbn [match_lazy].
  destruct (Ascii.eqb c "010"%char) eqn:Hc'; [done|].
  destruct (match_lazy_rest s) as [g'|] eqn:Hrest; [|done].
  intros H. inversion H; subst.
  destruct (match_lazy_rest_inv _ _ Hrest) as (Hp & Hn & tail & ->).
  rewrite Ascii.eqb_sym in Hc'.
  split_and!; [done|done|by apply contains_char_cons_inv|].
  exists tail. by rewrite append_cons.
Qed.

(** X17: what the pattern of line 328 gives as group 2 is a piece of
    the source that a closing parenthesis follows: it is not empty, has
    no newline in it and, after its first character, no closing
    parenthesis; and the source starts with [url(]. *)
Theorem font_src_group_is_in_the_source (src g : string) :
  match_font_src src = Some g →
  g ≠ ""
  ∧ Py.contains ")" (Py.drop 1 g) = false
  ∧ Py.contains (Py.chr "010"%char) g = false
  ∧ ∃ before tail, src = "url(" +:+ before +:+ g +:+ ")" +:+ tail.
Proof.
  unfold match_font_src. destruct (Py.startswith src "url(") eqn:Hurl; [|done].
  apply startswith_inv in Hurl as [rest ->].
  change 4%nat with (String.length "url("). rewrite drop_app_length.
  generalize (String.length ("url(" +:+ rest)). intros fuel. revert rest.
  induction fuel as [|fuel IH]; intros rest H; cbn [match_groups] in H.
  - destruct (match_lazy_inv _ _ H) as (H1 & H2 & H3 & tail & ->).
    split_and!; [done..|]. by exists "", tail.
  - destruct (match_prefix rest) as [rest'|] eqn:Hprefix.
    + destruct (match_groups fuel rest') as [g'|] eqn:Hgroups.
      * inversion H; subst g'.
        destruct (IH _ Hgroups) as (H1 & H2 & H3 & before & tail & Heq).
        split_and!; [done..|].
        destruct (match_prefix_app _ _ Hprefix) as [p ->].
        apply append_inv_head in Heq. rewrite Heq.
        exists (p +:+ before), tail. by rewrite !append_assoc.
      * destruct (match_lazy_inv _ _ H) as (H1 & H2 & H3 & tail & ->).
        split_and!; [done..|]. by exists "", tail.
    + destruct (match_lazy_inv _ _ H) as (H1 & H2 & H3 & tail & ->).
      split_and!; [done..|]. by exists "", tail.
Qed.

End font_pattern.

Lemma font_src_prefixes_are_dropped_witness :
  Scraper.match_font_src
    "url(https:/www.notion.so/https:/www.notion.so/_assets/inter.woff2) format(x)"
  = Some "/_assets/inter.woff2".
Proof.
  apply (font_src_prefixes_are_dropped [false; true] "/_assets/inter.woff2"
           " format(x)").
  - done.
  - vm_compute. reflexivity.
  - vm_compute. reflexivity.
  - vm_compute. reflexivity.
Defined.

Lemma font_src_group_is_in_the_source_witness :
  "/fonts/inter.woff2" ≠ ""
  ∧ Py.contains ")" (Py.drop 1 "/fonts/inter.woff2") = false
  ∧ Py.contains (Py.chr "010"%char) "/fonts/inter.woff2" = false
  ∧ ∃ before tail,
      "url(/fonts/inter.woff2)" = "url(" +:+ before +:+ "/fonts/inter.woff2" +:+ ")" +:+ tail.
Proof.
  apply (font_src_group_is_in_the_source "url(/fonts/inter.woff2)"
           "/fonts/inter.woff2").
  vm_compute. reflexivity.
Defined.

(** ** When a page counts as loaded *)

Section readiness.
Import Scraper.

Lemma filter_length_all {A : Type} (p : A → bool) (l : list A) :
  length (List.filter p l) = length l → Forall (λ x, p x = true) l.
Proof.
  induction l as [|x l IH]; simpl; [by constructor|].
  pose proof (List.filter_length_le p l) as Hle.
  destruct (p x) eqn:Hx; simpl; intros H.
  - constructor; [done|]. apply IH. lia.
  - lia.
Qed.

(** X18: the wait of [_load_page] ends before its deadline only on a
    poll that finds the presence container, no unknown block, no
    spinner and a [div] below every scroller, and whose markup is the
    markup the poll before it left in [prev_page]; the first poll can
    end it only on an empty markup. *)
Theorem page_counts_as_loaded_when_stable (polls : list poll) (k : nat) :
  wait_for_page polls = Some k →
  ∃ d, polls !! k = Some d
       ∧ (0 < root_block d)%nat
       ∧ unknown_blocks d = 0%nat
       ∧ loading_spinners d = 0%nat
       ∧ Forall (λ n, (0 < n)%nat) (scrollers d)
       ∧ page_source d
         = match k with
           | O => ""
           | S j => from_option page_source_after "" (polls !! j)
           end.
Proof.
  unfold wait_for_page.
  assert (∀ polls prev k0 k,
            until_loaded prev k0 polls = Some k →
            ∃ i d, k = (k0 + i)%nat ∧ polls !! i = Some d
                   ∧ (0 < root_block d)%nat
                   ∧ unknown_blocks d = 0%nat
                   ∧ loading_spinners d = 0%nat
                   ∧ Forall (λ n, (0 < n)%nat) (scrollers d)
                   ∧ page_source d
                     = match i with
                       | O => prev
                       | S j => from_option page_source_after "" (polls !! j)
                       end) as Hgen.
  { clear. induction polls as [|d rest IH]; intros prev k0 k H; [done|].
    cbn [until_loaded] in H. unfold is_page_loaded in H.
    assert (until_loaded (page_source_after d) (S k0) rest = Some k →
            ∃ i d', k = (k0 + i)%nat ∧ (d :: rest) !! i = Some d'
                    ∧ (0 < root_block d')%nat
                    ∧ unknown_blocks d' = 0%nat
                    ∧ loading_spinners d' = 0%nat
                    ∧ Forall (λ n, (0 < n)%nat) (scrollers d')
                    ∧ page_source d'
                      = match i with
                        | O => prev
                        | S j => from_option page_source_after "" ((d :: rest) !! j)
                        end) as Hlater.
    { intros Hrest. destruct (IH _ _ _ Hrest) as (i & d' & -> & Hd' & H1 & H2 & H3 & H4 & H5).
      exists (S i), d'. split_and!; [lia|done..|].
      rewrite H5. by destruct i. }
    destruct (0 <? root_block d)%nat eqn:Hroot; [|by apply Hlater].
    destruct ((length (List.filter (λ n, (0 <? n)%nat) (scrollers d))
               =? length (scrollers d))%nat
              && (unknown_blocks d =? 0)%nat && (loading_spinners d =? 0)%nat
              && negb (negb (String.eqb prev (page_source d)))) eqn:Hready;
      [|by apply Hlater].
    inversion H; subst k.
    apply andb_true_iff in Hready as [Hready Hsame].
    apply andb_true_iff in Hready as [Hready Hspin].
    apply andb_true_iff in Hready as [Hscroll Hunknown].
    apply negb_true_iff, negb_false_iff, String.eqb_eq in Hsame.
    apply Nat.eqb_eq in Hspin, Hunknown, Hscroll. apply Nat.ltb_lt in Hroot.
    exists 0%nat, d. split_and!; [lia|done..| |done].
    apply filter_length_all in Hscroll.
    eapply Forall_impl; [exact Hscroll|]. intros n Hn. by apply Nat.ltb_lt. }
  intros H. destruct (Hgen _ _ _ _ H) as (i & d & -> & Hd & H1 & H2 & H3 & H4 & H5).
  by exists d.
Qed.

End readiness.

Lemma page_counts_as_loaded_when_stable_witness :
  ∃ d, [Scraper.mkPoll 1 0 0 [2%nat] "<html>a</html>" "<html>b</html>";
        Scraper.mkPoll 1 0 0 [2%nat] "<html>b</html>" "<html>b</html>"] !! 1%nat
       = Some d
       ∧ (0 < Scraper.root_block d)%nat
       ∧ Scraper.unknown_blocks d = 0%nat
       ∧ Scraper.loading_spinners d = 0%nat
       ∧ Forall (λ n, (0 < n)%nat) (Scraper.scrollers d)
       ∧ Scraper.page_source d = "<html>b</html>".
Proof.
  apply (page_counts_as_loaded_when_stable
           [Scraper.mkPoll 1 0 0 [2%nat] "<html>a</html>" "<html>b</html>";
            Scraper.mkPoll 1 0 0 [2%nat] "<html>b</html>" "<html>b</html>"] 1).
  vm_compute. reflexivity.
Defined.

(** ** What [_clean_up] takes out *)

Section sanitizer.
Import Scraper.

Lemma decompose_all_tag (p : selector) (name : string)
    (attrs : gmap string string) (class : option (list string)) (l : list node) :
  decompose_all p (Tag name attrs class l)
  = Tag name attrs class (decompose_all_in p l).
Proof. reflexivity. Qed.

Lemma decompose_all_in_cons (p : selector) (c : node) (l : list node) :
  decompose_all_in p (c :: l)
  = if selects p c then decompose_all_in p l
    else decompose_all p c :: decompose_all_in p l.
Proof. reflexivity. Qed.

Lemma decompose_first_tag (p : selector) (name : string)
    (attrs : gmap string string) (class : option (list string)) (l : list node) :
  decompose_first p (Tag name attrs class l)
  = (Tag name attrs class (decompose_first_in p l).1, (decompose_first_in p l).2).
Proof.
  cbn [decompose_first]. fold (decompose_first_in p l).
  by destruct (decompose_first_in p l).
Qed.

Lemma decompose_first_in_cons (p : selector) (c : node) (l : list node) :
  decompose_first_in p (c :: l)
  = if selects p c then (l, true)
    else if (decompose_first p c).2 then ((decompose_first p c).1 :: l, true)
    else ((decompose_first p c).1 :: (decompose_first_in p l).1,
          (decompose_first_in p l).2).
Proof.
  cbn [decompose_first_in]. fold (decompose_first_in p l).
  destruct (selects p c); [done|].
  destruct (decompose_first p c) as [c' [|]]; [done|].
  by destruct (decompose_first_in p l).
Qed.

Lemma subtree_descendants (n : node) : subtree n = n :: descendants n.
Proof. by destruct n. Qed.

Lemma existsb_false {A : Type} (p : A → bool) (l : list A) :
  List.existsb p l = false ↔ ∀ x, x ∈ l → p x = false.
Proof.
  induction l as [|y l IH]; simpl.
  - split; [|done]. intros _ x Hx. by apply elem_of_nil in Hx.
  - rewrite orb_false_iff, IH. split.
    + intros [Hy Hl] x Hx. apply elem_of_cons in Hx as [->|Hx]; [done|by apply Hl].
    + intros H. split; [apply H; by left|]. intros x Hx. apply H. by right.
Qed.

Lemma pruned_contents_refl (l : list node) :
  Forall (λ c, pruned c c) l → pruned_contents l l.
Proof. induction 1; by constructor. Qed.

Lemma pruned_refl (n : node) : pruned n n.
Proof.
  induction n as [x|name attrs class l IH] using node_induction;
    constructor. by apply pruned_contents_refl.
Qed.

Lemma pruned_trans (a : node) : ∀ b c, pruned a b → pruned b c → pruned a c.
Proof.
  induction a as [x|name attrs class l IH] using node_induction;
    intros b c Hab Hbc.
  - inversion Hab; subst. by inversion Hbc; subst.
  - inversion Hab as [|? ? ? ? l' Hl]; subst.
    inversion Hbc as [|? ? ? ? l'' Hl']; subst.
    constructor. clear Hab Hbc. revert l'' Hl' IH.
    induction Hl as [|c l l' Hl IHl|c c' l l' Hc Hl IHl]; intros l'' Hl' IH.
    + by inversion Hl'; subst.
    + apply Forall_cons in IH as [_ IH]. constructor. by apply IHl.
    + apply Forall_cons in IH as [IHc IH].
      inversion Hl' as [|? ? ? Hd|? c'' ? l0 Hc' Hk]; subst.
      * constructor. by apply IHl.
      * apply pruned_keep; [by eapply IHc|by apply IHl].
Qed.

Lemma pruned_selects (q : selector) (n n' : node) :
  pruned n n' → selects q n' = selects q n.
Proof. by inversion 1. Qed.

Lemma decompose_all_pruned (p : selector) (n : node) :
  pruned n (decompose_all p n).
Proof.
  induction n as [x|name attrs class l IH] using node_induction;
    [constructor|].
  rewrite decompose_all_tag. constructor.
  induction IH as [|c l Hc _ IHl]; [constructor|].
  rewrite decompose_all_in_cons. destruct (selects p c); by constructor.
Qed.

Lemma decompose_first_pruned (p : selector) (n : node) :
  pruned n (decompose_first p n).1.
Proof.
  induction n as [x|name attrs class l IH] using node_induction;
    [constructor|].
  rewrite decompose_first_tag. constructor.
  induction IH as [|c l Hc Hl IHl]; [constructor|].
  assert (pruned_contents l l) as Hrefl.
  { apply pruned_contents_refl, Forall_forall. intros. apply pruned_refl. }
  rewrite decompose_first_in_cons. destruct (selects p c); [by constructor|].
  destruct ((decompose_first p c).2); by constructor.
Qed.

Lemma fold_pruned (g : selector → node → node) (l : list selector) :
  (∀ p n, pruned n (g p n)) →
  ∀ n, pruned n (List.fold_left (λ n p, g p n) l n).
Proof.
  intros Hg. induction l as [|p l IH]; intros n; [apply pruned_refl|].
  simpl. eapply pruned_trans; [apply Hg|apply IH].
Qed.

(** what is left of a document has no element that a selector
    selects, when the document had none *)
Lemma pruned_clean (q : selector) (n : node) :
  ∀ n', pruned n n' →
    (∀ d, d ∈ descendants n → selects q d = false) →
    ∀ d, d ∈ descendants n' → selects q d = false.
Proof.
  induction n as [x|name attrs class l IH] using node_induction;
    intros n' Hn' Hclean.
  - inversion Hn'; subst. intros d Hd. by apply elem_of_nil in Hd.
  - inversion Hn' as [|? ? ? ? l' Hl]; subst. cbn [descendants] in *.
    clear Hn'. revert IH Hclean.
    induction Hl as [|c l l' Hl IHl|c c' l l' Hc Hl IHl]; intros IH Hclean d Hd.
    + by apply elem_of_nil in Hd.
    + apply Forall_cons in IH as [_ IH]. apply (IHl IH); [|done].
      intros d' Hd'. apply Hclean. cbn [List.flat_map]. apply elem_of_app. by right.
    + apply Forall_cons in IH as [IHc IH]. cbn [List.flat_map] in Hd.
      apply elem_of_app in Hd as [Hd|Hd].
      * rewrite subtree_descendants in Hd. apply elem_of_cons in Hd as [->|Hd].
        -- rewrite (pruned_selects q c c' Hc). apply Hclean.
           cbn [List.flat_map]. apply elem_of_app. left.
           rewrite subtree_descendants. by left.
        -- apply (IHc c' Hc); [|done]. intros d' Hd'. apply Hclean.
           cbn [List.flat_map]. apply elem_of_app. left.
           rewrite subtree_descendants. by right.
      * apply (IHl IH); [|done].
        intros d' Hd'. apply Hclean. cbn [List.flat_map]. apply elem_of_app. by right.
Qed.

Lemma decompose_all_clean (p : selector) (n : node) :
  ∀ d, d ∈ descendants (decompose_all p n) → selects p d = false.
Proof.
  induction n as [x|name attrs class l IH] using node_induction; intros d Hd.
  - by apply elem_of_nil in Hd.
  - rewrite decompose_all_tag in Hd. cbn [descendants] in Hd. revert d Hd.
    induction IH as [|c l Hc _ IHl]; intros d Hd.
    + by apply elem_of_nil in Hd.
    + rewrite decompose_all_in_cons in Hd.
      destruct (selects p c) eqn:Hsel; [by apply IHl|].
      cbn [List.flat_map] in Hd. apply elem_of_app in Hd as [Hd|Hd]; [|by apply IHl].
      rewrite subtree_descendants in Hd. apply elem_of_cons in Hd as [->|Hd].
      * by rewrite (pruned_selects p c _ (decompose_all_pruned p c)).
      * by apply Hc.
Qed.

Lemma decompose_all_fold_clean (p : selector) (l : list selector) :
  p ∈ l →
  ∀ n d,
    d ∈ descendants (List.fold_left (λ n q, decompose_all q n) l n) →
    selects p d = false.
Proof.
  induction l as [|q l IH]; intros Hin n; [by apply elem_of_nil in Hin|].
  apply elem_of_cons in Hin as [->|Hin]; [|by apply IH].
  simpl. apply (pruned_clean q (decompose_all q n)).
  - apply (fold_pruned decompose_all). apply decompose_all_pruned.
  - apply decompose_all_clean.
Qed.

(** X19: after [_clean_up] the document has, below its root, no
    [script], neither of the two [iframe]s, none of the three [div]s
    and no [link] to a [vendors~] file: each of the seven loops of
    lines 260-273 takes out all it looks for, and no later step of
    [_clean_up] puts anything back. *)
Theorem clean_up_leaves_nothing_unwanted (soup : node) :
  Forall (λ p, List.existsb (selects p) (descendants (_clean_up soup)) = false)
         unwanted.
Proof.
  apply Forall_forall. intros p Hp. apply existsb_false. unfold _clean_up.
  apply (pruned_clean p
           (List.fold_left (λ soup p, decompose_all p soup) unwanted soup)).
  - apply (fold_pruned (λ p n, (decompose_first p n).1)).
    apply decompose_first_pruned.
  - by apply decompose_all_fold_clean.
Qed.

Lemma pruned_texts (n : node) :
  ∀ n', pruned n n' → texts n' `sublist_of` texts n.
Proof.
  induction n as [x|name attrs class l IH] using node_induction; intros n' Hn'.
  - by inversion Hn'; subst.
  - inversion Hn' as [|? ? ? ? l' Hl]; subst. cbn [texts]. clear Hn'. revert IH.
    induction Hl as [|c l l' Hl IHl|c c' l l' Hc Hl IHl]; intros IH.
    + done.
    + apply Forall_cons in IH as [_ IH]. cbn [List.flat_map].
      apply sublist_inserts_l. by apply IHl.
    + apply Forall_cons in IH as [IHc IH]. cbn [List.flat_map].
      apply sublist_app; [by apply IHc|by apply IHl].
Qed.

(** X20: [_clean_up] only takes elements out. What it leaves is the
    document it was given without some of the elements below the root,
    each taken out with all it contains: the elements that stay keep
    their name, their attributes, their classes and their order, and
    the texts that stay are texts of the document, in their order. *)
Theorem clean_up_only_takes_out (soup : node) :
  pruned soup (_clean_up soup)
  ∧ texts (_clean_up soup) `sublist_of` texts soup.
Proof.
  assert (pruned soup (_clean_up soup)) as H.
  { unfold _clean_up. eapply pruned_trans.
    - apply (fold_pruned decompose_all). apply decompose_all_pruned.
    - apply (fold_pruned (λ p n, (decompose_first p n).1)).
      apply decompose_first_pruned. }
  split; [exact H|]. by apply pruned_texts.
Qed.

Lemma decompose_all_id (p : selector) (n : node) :
  (∀ d, d ∈ descendants n → selects p d = false) → decompose_all p n = n.
Proof.
  induction n as [x|name attrs class l IH] using node_induction; intros H; [done|].
  rewrite decompose_all_tag. f_equal. cbn [descendants] in H. revert H.
  induction IH as [|c l Hc _ IHl]; intros H; [done|].
  rewrite decompose_all_in_cons. cbn [List.flat_map] in H.
  rewrite subtree_descendants in H.
  rewrite (H c) by (apply elem_of_app; left; by left).
  rewrite Hc, IHl; [done| |].
  - intros d Hd. apply H, elem_of_app. by right.
  - intros d Hd. apply H, elem_of_app. left. by right.
Qed.

Lemma decompose_first_id (p : selector) (n : node) :
  (∀ d, d ∈ descendants n → selects p d = false) →
  decompose_first p n = (n, false).
Proof.
  induction n as [x|name attrs class l IH] using node_induction; intros H; [done|].
  rewrite decompose_first_tag. cbn [descendants] in H.
  assert (decompose_first_in p l = (l, false)) as ->; [|done]. revert H.
  induction IH as [|c l Hc _ IHl]; intros H; [done|].
  rewrite decompose_first_in_cons. cbn [List.flat_map] in H.
  rewrite subtree_descendants in H.
  rewrite (H c) by (apply elem_of_app; left; by left).
  rewrite Hc, IHl; [done| |].
  - intros d Hd. apply H, elem_of_app. by right.
  - intros d Hd. apply H, elem_of_app. left. by right.
Qed.

(** X21: a document that has none of the elements [_clean_up] looks
    for is left as it is. *)
Theorem clean_up_keeps_a_clean_document (soup : node) :
  (∀ p, p ∈ unwanted ++ unwanted_meta →
     List.existsb (selects p) (descendants soup) = false) →
  _clean_up soup = soup.
Proof.
  intros H. unfold _clean_up.
  assert (∀ l, (∀ p, p ∈ l → List.existsb (selects p) (descendants soup) = false) →
            List.fold_left (λ soup p, decompose_all p soup) l soup = soup) as Hall.
  { induction l as [|p l IH]; intros Hl; [done|]. simpl.
    rewrite decompose_all_id.
    - apply IH. intros q Hq. apply Hl. by right.
    - apply existsb_false, Hl. by left. }
  assert (∀ l, (∀ p, p ∈ l → List.existsb (selects p) (descendants soup) = false) →
            List.fold_left (λ soup p, (decompose_first p soup).1) l soup = soup)
    as Hfirst.
  { induction l as [|p l IH]; intros Hl; [done|]. simpl.
    rewrite decompose_first_id.
    - apply IH. intros q Hq. apply Hl. by right.
    - apply existsb_false, Hl. by left. }
  rewrite Hall.
  - apply Hfirst. intros p Hp. apply H, elem_of_app. by right.
  - intros p Hp. apply H, elem_of_app. by left.
Qed.

End sanitizer.

Lemma clean_up_keeps_a_clean_document_witness :
  Scraper._clean_up Example.plain_page = Example.plain_page.
Proof.
  apply clean_up_keeps_a_clean_document. intros p _. reflexivity.
Defined.

(** ** Table views *)

Section table_views.
Import Scraper.

Lemma table_rows_tag (name : string) (attrs : gmap string string)
    (class : option (list string)) (contents : list node) (r : nat) :
  table_rows (Tag name attrs class contents) r
  = let r := if is_row name attrs class then S r else r in
    let own :=
      if is_table name attrs class then [(row_ranks_in contents r).1] else [] in
    (own ++ (table_rows_in contents r).1, (table_rows_in contents r).2).
Proof.
  cbn [table_rows]. cbv zeta.
  fold (table_rows_in contents (if is_row name attrs class then S r else r)).
  by destruct (table_rows_in contents _).
Qed.

Lemma table_rows_in_cons (c : node) (l : list node) (r : nat) :
  table_rows_in (c :: l) r
  = ((table_rows c r).1 ++ (table_rows_in l (table_rows c r).2).1,
     (table_rows_in l (table_rows c r).2).2).
Proof.
  cbn [table_rows_in]. destruct (table_rows c r) as [a r1]. cbn [fst snd].
  fold (table_rows_in l r1). by destruct (table_rows_in l r1).
Qed.

Lemma wrap_first_span_tag (href name : string) (attrs : gmap string string)
    (class : option (list string)) (contents : list node) :
  wrap_first_span href (Tag name attrs class contents)
  = if String.eqb name "span" then
      Some
        match attrs !! "style" with
        | None => Raise (KeyError "style")
        | Some style =>
            Ok (Tag "a" {["href" := href; "style" := anchor_style]} None
                  [Tag name
                     (<["style" := Py.replace style "pointer-events: none;" ""]> attrs)
                     class contents])
        end
    else map_found (Tag name attrs class) (wrap_first_span_in href contents).
Proof. reflexivity. Qed.

Lemma wrap_first_span_in_cons (href : string) (c : node) (l : list node) :
  wrap_first_span_in href (c :: l)
  = match wrap_first_span href c with
    | Some c' => map_found (λ c', c' :: l) (Some c')
    | None => map_found (cons c) (wrap_first_span_in href l)
    end.
Proof. reflexivity. Qed.

Lemma wrap_row_tag (target : nat) (name : string) (attrs : gmap string string)
    (class : option (list string)) (contents : list node) (r : nat) :
  wrap_row target (Tag name attrs class contents) r
  = if is_row name attrs class && (r =? target)%nat then
      match attrs !! "data-block-id" with
      | None => Raise (KeyError "data-block-id")
      | Some id =>
          match wrap_first_span_in ("/" +:+ Py.replace id "-" "") contents with
          | None => Raise (OtherError "TypeError")
          | Some (Raise e) => Raise e
          | Some (Ok contents') => Ok (Tag name attrs class contents', S r)
          end
      end
    else
      '(contents', r) ←
        wrap_row_in target contents (if is_row name attrs class then S r else r);
      Ok (Tag name attrs class contents', r).
Proof. reflexivity. Qed.

Lemma wrap_row_in_cons (target : nat) (c : node) (l : list node) (r : nat) :
  wrap_row_in target (c :: l) r
  = ('(c', r) ← wrap_row target c r;
     '(l', r) ← wrap_row_in target l r;
     Ok (c' :: l', r)).
Proof. reflexivity. Qed.

Lemma first_span_tag (name : string) (attrs : gmap string string)
    (class : option (list string)) (contents : list node) :
  first_span (Tag name attrs class contents)
  = if String.eqb name "span" then Some attrs else first_span_in contents.
Proof. reflexivity. Qed.

Lemma first_span_in_cons (c : node) (l : list node) :
  first_span_in (c :: l)
  = match first_span c with
    | Some a => Some a
    | None => first_span_in l
    end.
Proof. reflexivity. Qed.

Lemma is_row_div (name : string) (attrs : gmap string string)
    (class : option (list string)) :
  is_row name attrs class = true → String.eqb name "span" = false.
Proof.
  unfold is_row, by_class. intros H. apply andb_true_iff in H as [H _].
  by apply String.eqb_eq in H as ->.
Qed.

(** wrapping the first span keeps the texts *)
Lemma wrap_first_span_texts (href : string) (n : node) :
  ∀ n', wrap_first_span href n = Some (Ok n') → texts n' = texts n.
Proof.
  induction n as [x|name attrs class l IH] using node_induction; intros n' H;
    [done|].
  rewrite wrap_first_span_tag in H. destruct (String.eqb name "span").
  - destruct (attrs !! "style"); [|done]. inversion H; subst.
    cbn [texts List.flat_map]. by rewrite app_nil_r.
  - assert (∀ l', wrap_first_span_in href l = Some (Ok l') →
              List.flat_map texts l' = List.flat_map texts l) as Hl.
    { clear H. induction IH as [|c l Hc _ IHl]; intros l' H; [done|].
      rewrite wrap_first_span_in_cons in H.
      destruct (wrap_first_span href c) as [[c'|e]|] eqn:Hw.
      - inversion H; subst. cbn [List.flat_map]. by rewrite (Hc c').
      - done.
      - destruct (wrap_first_span_in href l) as [[l''|e]|]; [|done..].
        inversion H; subst. cbn [List.flat_map]. by rewrite (IHl l''). }
    destruct (wrap_first_span_in href l) as [[l'|e]|]; [|done..].
    inversion H; subst. cbn [texts]. by apply Hl.
Qed.

Lemma wrap_first_span_in_texts (href : string) (l l' : list node) :
  wrap_first_span_in href l = Some (Ok l') →
  List.flat_map texts l' = List.flat_map texts l.
Proof.
  revert l'. induction l as [|c l IHl]; intros l' H; [done|].
  rewrite wrap_first_span_in_cons in H.
  destruct (wrap_first_span href c) as [[c'|e]|] eqn:Hw.
  - inversion H; subst. cbn [List.flat_map].
    by rewrite (wrap_first_span_texts href c c' Hw).
  - done.
  - destruct (wrap_first_span_in href l) as [[l''|e]|]; [|done..].
    inversion H; subst. cbn [List.flat_map]. by rewrite (IHl l'').
Qed.

Lemma wrap_row_texts (target : nat) (n : node) :
  ∀ r n' r', wrap_row target n r = Ok (n', r') → texts n' = texts n.
Proof.
  induction n as [x|name attrs class l IH] using node_induction;
    intros r n' r' H.
  - by inversion H.
  - rewrite wrap_row_tag in H.
    destruct (is_row name attrs class && (r =? target)%nat).
    + destruct (attrs !! "data-block-id") as [id|]; [|done].
      destruct (wrap_first_span_in _ l) as [[l'|e]|] eqn:Hw; [|done..].
      inversion H; subst. cbn [texts]. by eapply wrap_first_span_in_texts.
    + assert (∀ r l' r', wrap_row_in target l r = Ok (l', r') →
                List.flat_map texts l' = List.flat_map texts l) as Hl.
      { clear H. induction IH as [|c l Hc _ IHl]; intros r0 l' r0' H.
        - by inversion H.
        - rewrite wrap_row_in_cons in H.
          destruct (wrap_row target c r0) as [[c' r1]|e] eqn:Hw; [|done].
          cbn [mbind result_bind] in H.
          destruct (wrap_row_in target l r1) as [[l'' r2]|e] eqn:Hw'; [|done].
          cbn [mbind result_bind] in H. inversion H; subst.
          cbn [List.flat_map]. by rewrite (Hc _ _ _ Hw), (IHl _ _ _ Hw'). }
      destruct (wrap_row_in target l _) as [[l' r1]|e] eqn:Hw; [|done].
      cbn [mbind result_bind] in H. inversion H; subst. cbn [texts].
      by eapply Hl.
Qed.

Lemma wrap_row_in_texts (target : nat) (l : list node) :
  ∀ r l' r', wrap_row_in target l r = Ok (l', r') →
    List.flat_map texts l' = List.flat_map texts l.
Proof.
  induction l as [|c l IHl]; intros r l' r' H.
  - by inversion H.
  - rewrite wrap_row_in_cons in H.
    destruct (wrap_row target c r) as [[c' r1]|e] eqn:Hw; [|done].
    cbn [mbind result_bind] in H.
    destruct (wrap_row_in target l r1) as [[l'' r2]|e] eqn:Hw'; [|done].
    cbn [mbind result_bind] in H. inversion H; subst.
    cbn [List.flat_map].
    by rewrite (wrap_row_texts _ _ _ _ _ Hw), (IHl _ _ _ Hw').
Qed.

Lemma wrap_rows_texts (rows : list nat) :
  ∀ l l', wrap_rows rows l = Ok l' →
    List.flat_map texts l' = List.flat_map texts l.
Proof.
  induction rows as [|target rows IH]; intros l l' H.
  - by inversion H.
  - cbn [wrap_rows] in H.
    destruct (wrap_row_in target l 0) as [[l1 r1]|e] eqn:Hw; [|done].
    cbn [mbind result_bind] in H.
    by rewrite (IH _ _ H), (wrap_row_in_texts _ _ _ _ _ Hw).
Qed.

(** X22: when [_link_to_table_view_subpages] returns, the document
    has the texts it had, in their order: the anchors are put around
    the names of the rows and nothing is taken out. *)
Theorem table_links_keep_the_texts (soup soup' : node) :
  _link_to_table_view_subpages soup = Ok soup' → texts soup' = texts soup.
Proof.
  destruct soup as [x|name attrs class contents]; [intros H; by inversion H|].
  unfold _link_to_table_view_subpages.
  generalize (List.seq 0 (length (table_rows_in contents 0).1)). intros tables.
  assert (∀ l l', wrap_tables tables l = Ok l' →
            List.flat_map texts l' = List.flat_map texts l) as Htables.
  { induction tables as [|k tables IH]; intros l l' H.
    - by inversion H.
    - cbn [wrap_tables] in H.
      destruct (wrap_rows _ l) as [l1|e] eqn:Hrows; [|done].
      cbn [mbind result_bind] in H.
      by rewrite (IH _ _ H), (wrap_rows_texts _ _ _ Hrows). }
  destruct (wrap_tables tables contents) as [l'|e] eqn:Hw; [|done].
  intros H. inversion H; subst. cbn [texts]. by apply Htables.
Qed.

End table_views.

Lemma table_links_keep_the_texts_witness :
  texts
    (Tag "body" ∅ None
       [Tag "div" ∅ (Some ["notion-table-view"])
          [Tag "div" {["data-block-id" := "0a1b-2c3d"]}
             (Some ["notion-selectable"; "notion-collection-item"])
             [Tag "a" {["href" := "/0a1b2c3d"; "style" := Scraper.anchor_style]} None
                [Tag "span" {["style" := "color: red"]} None [Text "Row"]]]]])
  = texts Example.page_with_table.
Proof.
  apply table_links_keep_the_texts. vm_compute. reflexivity.
Defined.

Section table_rows_readable.
Import Scraper.

(** what wrapping finds is what [first_span] finds: without a span
    there is nothing to wrap, a span without style raises, and a span
    with a style is wrapped and still the first span, with a style *)
Lemma wrap_first_span_outcome (href : string) (n : node) :
  match first_span n with
  | None => wrap_first_span href n = None
  | Some a =>
      if bool_decide (is_Some (a !! "style"))
      then ∃ n' a', wrap_first_span href n = Some (Ok n')
                    ∧ first_span n' = Some a' ∧ is_Some (a' !! "style")
      else wrap_first_span href n = Some (Raise (KeyError "style"))
  end.
Proof.
  induction n as [x|name attrs class l IH] using node_induction; [done|].
  rewrite first_span_tag, wrap_first_span_tag.
  destruct (String.eqb name "span") eqn:Hname.
  - destruct (attrs !! "style") as [style|] eqn:Hstyle.
    + rewrite bool_decide_eq_true_2 by (by eexists).
      eexists _, _. split_and!; [done| |].
      * rewrite first_span_tag. cbn [String.eqb Ascii.eqb Bool.eqb].
        rewrite first_span_in_cons, first_span_tag, Hname. done.
      * rewrite lookup_insert_eq. by eexists.
    + rewrite bool_decide_eq_false_2; [done|]. by intros [? ?].
  - assert (match first_span_in l with
            | None => wrap_first_span_in href l = None
            | Some a =>
                if bool_decide (is_Some (a !! "style"))
                then ∃ l' a', wrap_first_span_in href l = Some (Ok l')
                              ∧ first_span_in l' = Some a'
                              ∧ is_Some (a' !! "style")
                else wrap_first_span_in href l = Some (Raise (KeyError "style"))
            end) as Hl.
    { induction IH as [|c l Hc _ IHl]; [done|].
      rewrite first_span_in_cons, wrap_first_span_in_cons.
      destruct (first_span c) as [a|] eqn:Hfc.
      - destruct (bool_decide (is_Some (a !! "style"))).
        + destruct Hc as (c' & a' & -> & Hfirst & Hstyle).
          exists (c' :: l), a'. split_and!; [done| |done].
          by rewrite first_span_in_cons, Hfirst.
        + by rewrite Hc.
      - rewrite Hc. destruct (first_span_in l) as [a|].
        + destruct (bool_decide (is_Some (a !! "style"))).
          * destruct IHl as (l' & a' & -> & Hfirst & Hstyle).
            exists (c :: l'), a'. split_and!; [done| |done].
            by rewrite first_span_in_cons, Hfc.
          * by rewrite IHl.
        + by rewrite IHl. }
    destruct (first_span_in l) as [a|].
    + destruct (bool_decide (is_Some (a !! "style"))).
      * destruct Hl as (l' & a' & -> & Hfirst & Hstyle).
        exists (Tag name attrs class l'), a'. split_and!; [done| |done].
        by rewrite first_span_tag, Hname.
      * by rewrite Hl.
    + by rewrite Hl.
Qed.


Lemma wrap_first_span_in_outcome (href : string) (l : list node) :
  match first_span_in l with
  | None => wrap_first_span_in href l = None
  | Some a =>
      if bool_decide (is_Some (a !! "style"))
      then ∃ l' a', wrap_first_span_in href l = Some (Ok l')
                    ∧ first_span_in l' = Some a' ∧ is_Some (a' !! "style")
      else wrap_first_span_in href l = Some (Raise (KeyError "style"))
  end.
Proof.
  induction l as [|c l IHl]; [done|].
  rewrite first_span_in_cons, wrap_first_span_in_cons.
  pose proof (wrap_first_span_outcome href c) as Hc.
  destruct (first_span c) as [a|] eqn:Hfc.
  - destruct (bool_decide (is_Some (a !! "style"))).
    + destruct Hc as (c' & a' & -> & Hfirst & Hstyle).
      exists (c' :: l), a'. split_and!; [done| |done].
      by rewrite first_span_in_cons, Hfirst.
    + by rewrite Hc.
  - rewrite Hc. destruct (first_span_in l) as [a|].
    + destruct (bool_decide (is_Some (a !! "style"))).
      * destruct IHl as (l' & a' & -> & Hfirst & Hstyle).
        exists (c :: l'), a'. split_and!; [done| |done].
        by rewrite first_span_in_cons, Hfc.
      * by rewrite IHl.
    + by rewrite IHl.
Qed.

Lemma wrap_first_span_in_styled (href : string) (l l' : list node) :
  wrap_first_span_in href l = Some (Ok l') →
  ∃ a a', first_span_in l = Some a ∧ first_span_in l' = Some a'
          ∧ is_Some (a' !! "style").
Proof.
  intros H. pose proof (wrap_first_span_in_outcome href l) as Hl.
  destruct (first_span_in l) as [a|]; [|congruence].
  destruct (bool_decide (is_Some (a !! "style"))); [|congruence].
  destruct Hl as (l'' & a' & Hw & Hfirst & Hstyle).
  rewrite Hw in H. inversion H; subst. by eauto.
Qed.

Lemma readable_row_tag (name : string) (attrs : gmap string string)
    (class : option (list string)) (l l' : list node) :
  readable_row (Tag name attrs class l) = true →
  (∀ a, first_span_in l = Some a → is_Some (a !! "style") →
     ∃ a', first_span_in l' = Some a' ∧ is_Some (a' !! "style")) →
  readable_row (Tag name attrs class l') = true.
Proof.
  unfold readable_row. destruct (is_row name attrs class); [|done].
  cbn [negb orb]. intros H Hfirst. apply andb_true_iff in H as [Hid Hspan].
  rewrite Hid. cbn [andb].
  destruct (first_span_in l) as [a|]; [|done].
  apply bool_decide_eq_true in Hspan.
  destruct (Hfirst a eq_refl Hspan) as (a' & -> & Hstyle).
  by apply bool_decide_eq_true.
Qed.

(** wrapping the first span leaves every row readable *)
Lemma wrap_first_span_readable (href : string) (n : node) :
  ∀ n', wrap_first_span href n = Some (Ok n') →
    List.forallb readable_row (subtree n) = true →
    List.forallb readable_row (subtree n') = true.
Proof.
  induction n as [x|name attrs class l IH] using node_induction;
    intros n' H Hn; [done|].
  rewrite wrap_first_span_tag in H. cbn [subtree List.forallb] in Hn.
  apply andb_true_iff in Hn as [Hn Hl].
  destruct (String.eqb name "span") eqn:Hname.
  - destruct (attrs !! "style"); [|done]. inversion H; subst.
    apply String.eqb_eq in Hname as ->.
    cbn [subtree List.flat_map List.forallb app]. rewrite app_nil_r.
    by rewrite Hl.
  - destruct (wrap_first_span_in href l) as [[l'|e]|] eqn:Hw; [|done..].
    inversion H; subst. cbn [subtree List.forallb].
    apply andb_true_iff. split.
    + apply (readable_row_tag name attrs class l l' Hn). intros a Ha _.
      destruct (wrap_first_span_in_styled _ _ _ Hw) as (_ & a' & _ & Ha' & Hs).
      by eauto.
    + clear Hn H. revert l' Hw Hl.
      induction IH as [|c l Hc _ IHl]; intros l' Hw Hl; [done|].
      rewrite wrap_first_span_in_cons in Hw. cbn [List.flat_map] in Hl.
      rewrite List.forallb_app in Hl. apply andb_true_iff in Hl as [Hc' Hl].
      destruct (wrap_first_span href c) as [[c'|e]|] eqn:Hwc.
      * inversion Hw; subst. cbn [List.flat_map].
        rewrite List.forallb_app, (Hc c' eq_refl Hc'). by rewrite Hl.
      * done.
      * destruct (wrap_first_span_in href l) as [[l''|e]|] eqn:Hwl; [|done..].
        inversion Hw; subst. cbn [List.flat_map].
        rewrite List.forallb_app, Hc'. by rewrite (IHl l'' eq_refl Hl).
Qed.

Lemma wrap_first_span_in_readable (href : string) (l : list node) :
  ∀ l', wrap_first_span_in href l = Some (Ok l') →
    List.forallb readable_row (List.flat_map subtree l) = true →
    List.forallb readable_row (List.flat_map subtree l') = true.
Proof.
  induction l as [|c l IHl]; intros l' Hw Hl; [done|].
  rewrite wrap_first_span_in_cons in Hw. cbn [List.flat_map] in Hl.
  rewrite List.forallb_app in Hl. apply andb_true_iff in Hl as [Hc' Hl].
  destruct (wrap_first_span href c) as [[c'|e]|] eqn:Hwc.
  - inversion Hw; subst. cbn [List.flat_map].
    rewrite List.forallb_app, (wrap_first_span_readable href c c' Hwc Hc').
    by rewrite Hl.
  - done.
  - destruct (wrap_first_span_in href l) as [[l''|e]|] eqn:Hwl; [|done..].
    inversion Hw; subst. cbn [List.flat_map].
    rewrite List.forallb_app, Hc'. by rewrite (IHl l'' eq_refl Hl).
Qed.

(** the first span of a document is still its first span after a row
    has been linked, and has a style if it had one *)
Lemma wrap_row_first_span (target : nat) (n : node) :
  ∀ r n' r', wrap_row target n r = Ok (n', r') →
    match first_span n with
    | None => first_span n' = None
    | Some a =>
        ∃ a', first_span n' = Some a'
              ∧ (is_Some (a !! "style") → is_Some (a' !! "style"))
    end.
Proof.
  induction n as [x|name attrs class l IH] using node_induction;
    intros r n' r' H.
  - by inversion H.
  - rewrite wrap_row_tag in H.
    destruct (is_row name attrs class && (r =? target)%nat) eqn:Hc.
    + apply andb_true_iff in Hc as [Hrow _]. apply is_row_div in Hrow.
      destruct (attrs !! "data-block-id") as [id|]; [|done].
      destruct (wrap_first_span_in _ l) as [[l'|e]|] eqn:Hw; [|done..].
      inversion H; subst. rewrite !first_span_tag, Hrow.
      destruct (wrap_first_span_in_styled _ _ _ Hw) as (a & a' & -> & -> & Hs).
      by eauto.
    + destruct (wrap_row_in target l _) as [[l' r1]|e] eqn:Hw; [|done].
      cbn [mbind result_bind] in H. inversion H; subst.
      rewrite !first_span_tag. destruct (String.eqb name "span"); [by eauto|].
      clear H Hc. revert Hw. generalize (if is_row name attrs class then S r else r).
      revert l' r'. induction IH as [|c l Hc _ IHl]; intros l' r' r0 Hw.
      * by inversion Hw.
      * rewrite wrap_row_in_cons in Hw.
        destruct (wrap_row target c r0) as [[c' r1]|e] eqn:Hwc; [|done].
        cbn [mbind result_bind] in Hw.
        destruct (wrap_row_in target l r1) as [[l'' r2]|e] eqn:Hwl; [|done].
        cbn [mbind result_bind] in Hw. inversion Hw; subst.
        rewrite !first_span_in_cons. specialize (Hc _ _ _ Hwc).
        destruct (first_span c) as [a|].
        -- destruct Hc as (a' & -> & Hs). by eauto.
        -- rewrite Hc. by eapply IHl.
Qed.

Lemma wrap_row_in_first_span (target : nat) (l : list node) :
  ∀ r l' r', wrap_row_in target l r = Ok (l', r') →
    match first_span_in l with
    | None => first_span_in l' = None
    | Some a =>
        ∃ a', first_span_in l' = Some a'
              ∧ (is_Some (a !! "style") → is_Some (a' !! "style"))
    end.
Proof.
  induction l as [|c l IHl]; intros r l' r' Hw.
  - by inversion Hw.
  - rewrite wrap_row_in_cons in Hw.
    destruct (wrap_row target c r) as [[c' r1]|e] eqn:Hwc; [|done].
    cbn [mbind result_bind] in Hw.
    destruct (wrap_row_in target l r1) as [[l'' r2]|e] eqn:Hwl; [|done].
    cbn [mbind result_bind] in Hw. inversion Hw; subst.
    rewrite !first_span_in_cons.
    pose proof (wrap_row_first_span _ _ _ _ _ Hwc) as Hc.
    destruct (first_span c) as [a|].
    + destruct Hc as (a' & -> & Hs). by eauto.
    + rewrite Hc. by eapply IHl.
Qed.

(** linking a row of a document whose rows are readable returns, and
    leaves the rows readable *)
Lemma wrap_row_readable (target : nat) (n : node) :
  ∀ r, List.forallb readable_row (subtree n) = true →
    ∃ n' r', wrap_row target n r = Ok (n', r')
             ∧ List.forallb readable_row (subtree n') = true.
Proof.
  induction n as [x|name attrs class l IH] using node_induction; intros r Hn.
  - by eexists _, _.
  - rewrite wrap_row_tag. cbn [subtree List.forallb] in Hn.
    apply andb_true_iff in Hn as [Hn Hl].
    destruct (is_row name attrs class && (r =? target)%nat) eqn:Hc.
    + apply andb_true_iff in Hc as [Hrow _].
      pose proof Hn as Hn'. unfold readable_row in Hn'. rewrite Hrow in Hn'.
      cbn [negb orb] in Hn'. apply andb_true_iff in Hn' as [Hid Hspan].
      apply bool_decide_eq_true in Hid as [id Hid]. rewrite Hid.
      pose proof (wrap_first_span_in_outcome ("/" +:+ Py.replace id "-" "") l)
        as Hw.
      destruct (first_span_in l) as [a|]; [|done]. rewrite Hspan in Hw.
      destruct Hw as (l' & a' & Hw & Hfirst & Hstyle). rewrite Hw.
      eexists _, _. split; [done|]. cbn [subtree List.forallb].
      apply andb_true_iff. split.
      * apply (readable_row_tag name attrs class l l' Hn). intros.
        destruct (wrap_first_span_in_styled _ _ _ Hw) as (_ & b & _ & Hb & Hs).
        by eauto.
      * by eapply wrap_first_span_in_readable.
    + assert (∀ r, ∃ l' r', wrap_row_in target l r = Ok (l', r')
                ∧ List.forallb readable_row (List.flat_map subtree l') = true)
        as Hcontents.
      { clear Hn Hc. induction IH as [|c l Hc _ IHl]; intros r0.
        - by eexists _, _.
        - cbn [List.flat_map] in Hl. rewrite List.forallb_app in Hl.
          apply andb_true_iff in Hl as [Hc' Hl].
          destruct (Hc r0 Hc') as (c' & r1 & Hwc & Hc'').
          destruct (IHl Hl r1) as (l' & r2 & Hwl & Hl').
          exists (c' :: l'), r2. rewrite wrap_row_in_cons, Hwc.
          cbn [mbind result_bind]. rewrite Hwl. cbn [mbind result_bind].
          split; [done|]. cbn [List.flat_map].
          by rewrite List.forallb_app, Hc'', Hl'. }
      destruct (Hcontents (if is_row name attrs class then S r else r))
        as (l' & r' & Hw & Hl').
      rewrite Hw. cbn [mbind result_bind]. eexists _, _. split; [done|].
      cbn [subtree List.forallb]. apply andb_true_iff. split; [|done].
      apply (readable_row_tag name attrs class l l' Hn). intros a Ha Hs.
      pose proof (wrap_row_in_first_span _ _ _ _ _ Hw) as Hfirst.
      rewrite Ha in Hfirst. destruct Hfirst as (a' & Ha' & Hs'). by eauto.
Qed.

Lemma wrap_row_in_readable (target : nat) (l : list node) :
  ∀ r, List.forallb readable_row (List.flat_map subtree l) = true →
    ∃ l' r', wrap_row_in target l r = Ok (l', r')
             ∧ List.forallb readable_row (List.flat_map subtree l') = true.
Proof.
  induction l as [|c l IHl]; intros r Hl.
  - by eexists _, _.
  - cbn [List.flat_map] in Hl. rewrite List.forallb_app in Hl.
    apply andb_true_iff in Hl as [Hc Hl].
    destruct (wrap_row_readable target c r Hc) as (c' & r1 & Hwc & Hc').
    destruct (IHl r1 Hl) as (l' & r2 & Hwl & Hl').
    exists (c' :: l'), r2. rewrite wrap_row_in_cons, Hwc.
    cbn [mbind result_bind]. rewrite Hwl. cbn [mbind result_bind].
    split; [done|]. cbn [List.flat_map].
    by rewrite List.forallb_app, Hc', Hl'.
Qed.

(** X23: [_link_to_table_view_subpages] returns on every document
    whose rows can be read, that is, in which every element of class
    [notion-collection-item] has a [data-block-id] and a [span] below
    it, the first of which has a style: the three things that lines
    381-383 read. The rows of the document it leaves can be read as
    well. *)
Theorem table_links_need_readable_rows (soup : node) :
  List.forallb readable_row (descendants soup) = true →
  ∃ soup', _link_to_table_view_subpages soup = Ok soup'
           ∧ List.forallb readable_row (descendants soup') = true.
Proof.
  destruct soup as [x|name attrs class contents]; [by eexists|].
  cbn [descendants]. unfold _link_to_table_view_subpages.
  generalize (List.seq 0 (length (table_rows_in contents 0).1)). intros tables.
  assert (∀ rows l,
            List.forallb readable_row (List.flat_map subtree l) = true →
            ∃ l', wrap_rows rows l = Ok l'
                  ∧ List.forallb readable_row (List.flat_map subtree l') = true)
    as Hrows.
  { induction rows as [|target rows IH]; intros l Hl; [by eexists|].
    cbn [wrap_rows].
    destruct (wrap_row_in_readable target l 0 Hl) as (l1 & r1 & -> & Hl1).
    cbn [mbind result_bind]. by apply IH. }
  revert contents.
  induction tables as [|k tables IH]; intros contents Hl.
  - by eexists.
  - cbn [wrap_tables].
    destruct (Hrows (List.nth k (table_rows_in contents 0).1 []) contents Hl)
      as (l1 & -> & Hl1).
    cbn [mbind result_bind]. by apply IH.
Qed.

Lemma table_rows_none (n : node) :
  ∀ r, List.existsb (selects is_table) (subtree n) = false →
    (table_rows n r).1 = [].
Proof.
  induction n as [x|name attrs class l IH] using node_induction; intros r Hn;
    [done|].
  rewrite table_rows_tag. cbv zeta. cbn [fst].
  cbn [subtree List.existsb selects] in Hn.
  apply orb_false_iff in Hn as [-> Hl]. cbn [app].
  generalize (if is_row name attrs class then S r else r). clear r.
  induction IH as [|c l Hc _ IHl]; intros r; [done|].
  cbn [List.flat_map] in Hl. rewrite List.existsb_app in Hl.
  apply orb_false_iff in Hl as [Hc' Hl].
  rewrite table_rows_in_cons. cbn [fst]. by rewrite (Hc r Hc'), (IHl Hl).
Qed.

(** X24: a document without table view is left as it is, whatever
    rows it has. *)
Theorem page_without_table_is_left_alone (soup : node) :
  List.existsb (selects is_table) (descendants soup) = false →
  _link_to_table_view_subpages soup = Ok soup.
Proof.
  destruct soup as [x|name attrs class contents]; [done|].
  cbn [descendants]. intros H. unfold _link_to_table_view_subpages.
  assert ((table_rows_in contents 0).1 = []) as ->; [|done].
  generalize 0%nat. induction contents as [|c l IHl]; intros r; [done|].
  cbn [List.flat_map] in H. rewrite List.existsb_app in H.
  apply orb_false_iff in H as [Hc Hl].
  rewrite table_rows_in_cons. cbn [fst].
  by rewrite (table_rows_none c r Hc), (IHl Hl).
Qed.

End table_rows_readable.

Lemma table_links_need_readable_rows_witness :
  ∃ soup', Scraper._link_to_table_view_subpages Example.page_with_table = Ok soup'
           ∧ List.forallb Scraper.readable_row (descendants soup') = true.
Proof.
  apply table_links_need_readable_rows. vm_compute. reflexivity.
Defined.

Lemma page_without_table_is_left_alone_witness :
  Scraper._link_to_table_view_subpages Example.page_with_subpage
  = Ok Example.page_with_subpage.
Proof.
  apply page_without_table_is_left_alone. vm_compute. reflexivity.
Defined.
